(** * The segmentation-and-voting inference pipeline of the speech classifier

    A shallow embedding of the Python sources
      - backend/src/segmentation.py and server/server/segmentation.py,
      - backend/src/transcription.py, backend/src/linguistic_extraction.py
        and server/server/linguistic_extraction.py,
      - server/server/prediction.py and backend/api/prediction.py,
      - backend/src/prediction_script.py and server/server/prediction_script.py,
      - the request handlers of server/server/server.py and backend/api/server.py,
    followed by the properties of the specification that were checked
    against them.

    Python integers are [Z]; a float64 is the rational it stands for
    ([Q]), next to an explicit [NaN] in the feature tables, and the
    float64 operations of the sources ([Float64], [Numpy]) round their
    exact result to 53 significant bits; exceptions are values of [exn].
    pydub keeps a recording as frames at a frame rate and converts
    between milliseconds and frames in float64: [Frames] is this
    arithmetic with the two functions of segmentation.py that cut and
    pad on it, and the durations of the segments are settled there.  The
    orchestrators run on recordings of one frame per millisecond
    ([Pydub]), where these conversions are exact.  The file system, the
    loaded ASR models and the calls
    made to the scaler, to ffmpeg and to the audit sink are the fields of
    an explicit [world] that every statement threads; a statement that
    raises keeps the effects it had before raising.  The external
    collaborators (pydub's decoder, ffmpeg, the ASR model, the feature
    extractors, the scaler and the classifier) are the fields of a record
    [Env], and the theorems hold for every [Env]. *)

From Stdlib Require Import ZArith QArith Qround List String Ascii Lia.
From stdpp Require Import base option list gmap strings pretty sorting.

Local Open Scope string_scope.
Local Open Scope list_scope.
Local Open Scope Z_scope.

(** ** Exceptions *)

Inductive exn : Type :=
  | CouldntDecodeError
  | CalledProcessError
  | ZeroDivisionError
  | FileNotFoundError
  | NotFittedError
  | ValueError
  | KeyError
  | IndexError
  | AttributeError
  | TypeError
  | OtherException      (* any further subclass of Exception *)
  | KeyboardInterrupt.  (* a BaseException that is not an Exception *)

(** [isinstance(e, Exception)]: what a clause [except Exception] catches. *)
Definition is_Exception (e : exn) : bool :=
  match e with
  | KeyboardInterrupt => false
  | _ => true
  end.

Inductive result (A : Type) : Type :=
  | Ok (a : A)
  | Raise (e : exn).
Arguments Ok {A} a.
Arguments Raise {A} e.

(** ** float64

    The numbers that Python, numpy and pydub compute with are IEEE 754
    binary64 values.  A finite one is a rational [m * 2^e] with
    [|m| < 2^53]; here it is held as that rational, and each operation is
    the exact operation followed by the rounding to the nearest such
    number, ties to the even mantissa.  The exponent is not bounded:
    overflow and the loss of precision below [2^-1022] are left out (the
    sums of probabilities and the frame counts of a recording are far
    from both; the sum and the difference of two float64 values that
    fall below [2^-1022] are exact in either reading). *)
Module Float64.

(** [2^k <= n/d], for positive [n] and [d] *)
Definition le_pow2 (k n d : Z) : bool :=
  if 0 <=? k then d * 2 ^ k <=? n else d <=? n * 2 ^ (- k).

(** The exponent of a positive [n/d]: the [k] with [2^k <= n/d < 2^(k+1)]. *)
Definition ilog2 (n d : Z) : Z :=
  let k := Z.log2 n - Z.log2 d in
  if le_pow2 k n d then k else k - 1.

(** [N/D] rounded to the nearest integer, a half to the even one ([D > 0]). *)
Definition rint_frac (N D : Z) : Z :=
  let q := N / D in
  let r := N mod D in
  match 2 * r ?= D with
  | Lt => q
  | Gt => q + 1
  | Eq => if Z.even q then q else q + 1
  end.

(** Python's [round(x)] of a float. *)
Definition round (x : Q) : Z := rint_frac (Qnum x) (Zpos (Qden x)).

(** Python's [int(x)] of a float: towards zero. *)
Definition int (x : Q) : Z := Z.quot (Qnum x) (Zpos (Qden x)).

(** [m * 2^e] *)
Definition scale (m e : Z) : Q :=
  if 0 <=? e then inject_Z (m * 2 ^ e) else Qmake m (Z.to_pos (2 ^ (- e))).

(** A positive [n/d] rounded to 53 significant bits. *)
Definition round53 (n d : Z) : Q :=
  let e := ilog2 n d - 52 in
  let m := if 0 <=? e then rint_frac n (d * 2 ^ e) else rint_frac (n * 2 ^ (- e)) d in
  Qred (scale m e).

(** The float64 nearest to [x]. *)
Definition b64 (x : Q) : Q :=
  let x := Qred x in
  match Qnum x with
  | Z0 => 0%Q
  | Zpos n => round53 (Zpos n) (Zpos (Qden x))
  | Zneg n => Qopp (round53 (Zpos n) (Zpos (Qden x)))
  end.

Definition add (x y : Q) : Q := b64 (x + y).
Definition sub (x y : Q) : Q := b64 (x - y).
Definition mul (x y : Q) : Q := b64 (x * y).
Definition div (x y : Q) : Q := b64 (x / y).

End Float64.

(** The float64 value of a decimal literal. *)
Definition f64 (x : Q) : Q := Float64.b64 x.

(** ** numpy's sum of float64 values

    [Series.sum()] of pandas ends in [numpy.add.reduce] over the
    contiguous values, which adds in numpy's pairwise order: one by one
    when there are fewer than 8 values, with eight running sums up to
    128 values, and by halves beyond. *)
Module Numpy.

(** The eight running sums after [k] further blocks of eight values. *)
Fixpoint add_blocks (r : list Q) (l : list Q) (k : nat) : list Q :=
  match k with
  | O => r
  | S k' => add_blocks (zip_with Float64.add r (take 8 l)) (drop 8 l) k'
  end.

Definition combine8 (r : list Q) : Q :=
  match r with
  | [r0; r1; r2; r3; r4; r5; r6; r7] =>
      Float64.add (Float64.add (Float64.add r0 r1) (Float64.add r2 r3))
                  (Float64.add (Float64.add r4 r5) (Float64.add r6 r7))
  | _ => 0%Q
  end.

(** From 8 to 128 values. *)
Definition block_sum (l : list Q) : Q :=
  let n := length l in
  let full := (n - n mod 8)%nat in
  let r := add_blocks (take 8 l) (drop 8 l) (full / 8 - 1) in
  foldl Float64.add (combine8 r) (drop full l).

Fixpoint pairwise_sum (fuel : nat) (l : list Q) : Q :=
  let n := length l in
  if (n <? 8)%nat then foldl Float64.add 0%Q l
  else if (n <=? 128)%nat then block_sum l
  else
    match fuel with
    | O => 0%Q
    | S fuel' =>
        let n2 := (n / 2)%nat in
        let n2 := (n2 - n2 mod 8)%nat in
        Float64.add (pairwise_sum fuel' (take n2 l)) (pairwise_sum fuel' (drop n2 l))
    end.

(** The reduction starts from the identity of [add]. *)
Definition sum (l : list Q) : Q := Float64.add 0 (pairwise_sum (length l) l).

End Numpy.

(** ** pydub's AudioSegment at one frame per millisecond

    The sources use an AudioSegment only through [len], slicing and [*],
    whose arguments and results are milliseconds.  At a frame rate of
    1000 a millisecond is a frame, and the segment is the sequence of
    its milliseconds of audio, each an integer code; [Frames] below has
    the conversions for any frame rate. *)
Module Pydub.

Abbreviation AudioSegment := (list Z).

(** [len(audio)], in milliseconds. *)
Definition len (audio : AudioSegment) : Z := Z.of_nat (length audio).

(** [audio * n]: the data repeated [n] times (nothing for [n <= 0]). *)
Definition mul (audio : AudioSegment) (n : Z) : AudioSegment :=
  concat (replicate (Z.to_nat n) audio).

(** [AudioSegment._parse_position]: a negative position counts from the end. *)
Definition parse_position (audio : AudioSegment) (val : Z) : Z :=
  if val <? 0 then len audio - Z.abs val else val.

(** Python's [data[s:e]] on a sequence. *)
Definition clamp_index (n i : Z) : Z :=
  if i <? 0 then Z.max 0 (n + i) else Z.min i n.

Definition py_slice {A} (l : list A) (s e : Z) : list A :=
  let n := Z.of_nat (length l) in
  let s' := clamp_index n s in
  let e' := clamp_index n e in
  take (Z.to_nat (e' - s')) (drop (Z.to_nat s') l).

(** [audio[start:stop]] ([AudioSegment.__getitem__] on a slice without
    step): missing bounds default to [0] and [len], both bounds are capped
    by [len], then parsed and used to slice the data.  pydub also pads
    with silence a slice whose data came out shorter than [end - start],
    or raises TooManyMissingFrames when more than 2 ms are missing; at
    one frame per millisecond that needs a start before the beginning of
    the data, which the segmenter never asks for (its three slices are
    computed by [getslice_prefix], [getslice_window] and [getslice_tail]
    below), and it is left to [Frames.getslice]. *)
Definition getslice (audio : AudioSegment) (start stop : option Z) : AudioSegment :=
  let start := default 0 start in
  let stop := default (len audio) stop in
  let start := Z.min start (len audio) in
  let stop := Z.min stop (len audio) in
  py_slice audio (parse_position audio start) (parse_position audio stop).

End Pydub.
Import Pydub.

(** ** Paths and the file system *)

(** A path is a directory and a base name: [os.path.join(d, f)] is [(d, f)]
    and [os.path.basename] is [snd]. *)
Definition path : Type := string * string.

Definition basename (p : path) : string := snd p.

(** [os.path.splitext(name)[0]] for a base name: cut at the last dot unless
    only dots precede it. *)
Fixpoint rindex_dot (s : list ascii) (i : nat) (last : option nat) : option nat :=
  match s with
  | [] => last
  | c :: s' =>
      rindex_dot s' (S i) (if Ascii.eqb c "."%char then Some i else last)
  end.

Definition splitext_root (name : string) : string :=
  let cs := list_ascii_of_string name in
  match rindex_dot cs 0 None with
  | None => name
  | Some d =>
      if forallb (fun c => Ascii.eqb c "."%char) (take d cs)
      then name
      else string_of_list_ascii (take d cs)
  end.

(** What a file holds: the audio written by [AudioSegment.export], or bytes
    of unknown format (an upload). *)
Inductive file_data : Type :=
  | Wav (audio : AudioSegment)
  | Bytes (raw : string).

Abbreviation directory := (gmap string file_data).
Abbreviation filesystem := (gmap string directory).

(** ** Feature tables and audit rows *)

(** A cell of a pandas frame: a number or the missing-value marker. *)
Inductive value : Type :=
  | NaN
  | Num (q : Q).

Definition is_nan (v : value) : bool :=
  match v with NaN => true | Num _ => false end.

(** A Python dict of features, in insertion order. *)
Abbreviation Row := (list (string * value)).

(** A DataFrame, column by column: the column name and its cells. *)
Abbreviation DataFrame := (list (string * list value)).

(** [pd.DataFrame([row])]: one row, one column per key. *)
Definition DataFrame_of_row (r : Row) : DataFrame :=
  map (fun kv => (fst kv, [snd kv])) r.

(** [pd.concat([a, b], axis=1)]: the columns of [a] followed by those of [b]. *)
Definition concat_axis1 (a b : DataFrame) : DataFrame := a ++ b.

Definition has_nan (X : DataFrame) : bool :=
  existsb (fun col => existsb is_nan (snd col)) X.

(** One row of the frame the orchestrator accumulates.  The acoustic
    columns it also carries are never read again and are left out. *)
Record ScoredSegment : Type := {
  file_name : string;
  Prediction : Z;
  Probability : Q
}.

(** ** The world: files, loaded ASR models and the calls made outside *)

Inductive event : Type :=
  | FromFile (p : path)                       (* AudioSegment.from_file(p) *)
  | Ffmpeg (src dst : path)                   (* subprocess.run(["ffmpeg", ...]) *)
  | ScalerTransform (X : DataFrame)           (* scaler.transform(X) *)
  | ScalerFitTransform (X : DataFrame)        (* scaler.fit_transform(X) *)
  | SavePredictions (rows : list ScoredSegment).  (* "Predictions saved to ..." *)

Record world : Type := {
  fs : filesystem;
  (* language_models[code]: the tokenizer/model pair stored by
     load_language_model, [None] when loading failed *)
  loaded : gmap string (option string);
  trace : list event
}.

Definition set_fs (f : filesystem -> filesystem) (w : world) : world :=
  {| fs := f (fs w); loaded := loaded w; trace := trace w |}.

Definition set_loaded (f : gmap string (option string) -> gmap string (option string))
    (w : world) : world :=
  {| fs := fs w; loaded := f (loaded w); trace := trace w |}.

Definition log_event (e : event) (w : world) : world :=
  {| fs := fs w; loaded := loaded w; trace := trace w ++ [e] |}.

(** A statement of the program: it may raise, and it keeps the effects it
    had before raising. *)
Definition M (A : Type) : Type := world -> result A * world.

#[global] Instance M_ret : MRet M := fun A a w => (Ok a, w).
#[global] Instance M_bind : MBind M := fun A B f m w =>
  match m w with
  | (Ok a, w') => f a w'
  | (Raise e, w') => (Raise e, w')
  end.

Definition raise {A} (e : exn) : M A := fun w => (Raise e, w).
Definition lift {A} (r : result A) : M A := fun w => (r, w).
Definition modify (f : world -> world) : M unit := fun w => (Ok tt, f w).
Definition gets {A} (f : world -> A) : M A := fun w => (Ok (f w), w).

(** [try: body except C: handler], where [catches e] says whether [e] is
    an instance of [C]. *)
Definition try_except {A} (body : M A) (catches : exn -> bool) (handler : exn -> M A) : M A :=
  fun w =>
    match body w with
    | (Ok a, w') => (Ok a, w')
    | (Raise e, w') => if catches e then handler e w' else (Raise e, w')
    end.

(** [try: body finally: fin]: [fin] runs on every exit of [body]; an
    exception raised by [fin] replaces the outcome of [body]. *)
Definition try_finally {A} (body : M A) (fin : M unit) : M A :=
  fun w =>
    let '(r, w') := body w in
    match fin w' with
    | (Ok _, w'') => (r, w'')
    | (Raise e, w'') => (Raise e, w'')
    end.

(** [for x in xs: body(x)] *)
Fixpoint for_each {A} (xs : list A) (body : A -> M unit) : M unit :=
  match xs with
  | [] => mret tt
  | x :: xs' => body x;; for_each xs' body
  end.

(** [a // b] on Python integers. *)
Definition floordiv (a b : Z) : M Z :=
  if b =? 0 then raise ZeroDivisionError else mret (a / b).

(** *** File-system primitives *)

Definition lookup_file (f : filesystem) (p : path) : option file_data :=
  f !! fst p ≫= fun d => d !! snd p.

Definition isfile (p : path) : M bool :=
  gets (fun w => bool_decide (is_Some (lookup_file (fs w) p))).

Definition exists_dir (d : string) : M bool :=
  gets (fun w => bool_decide (is_Some (fs w !! d))).

Definition exists_file (p : path) : M bool := isfile p.

(** [shutil.rmtree(d)] *)
Definition rmtree (d : string) : M unit :=
  fun w =>
    match fs w !! d with
    | Some _ => (Ok tt, set_fs (delete d) w)
    | None => (Raise FileNotFoundError, w)
    end.

(** [os.makedirs(d)] and [os.makedirs(d, exist_ok=True)]; the exception
    for a directory that exists is a FileExistsError. *)
Definition makedirs (d : string) (exist_ok : bool) : M unit :=
  fun w =>
    match fs w !! d with
    | Some _ => if exist_ok then (Ok tt, w) else (Raise OtherException, w)
    | None => (Ok tt, set_fs (insert d ∅) w)
    end.

(** [os.remove(p)] *)
Definition os_remove (p : path) : M unit :=
  fun w =>
    match lookup_file (fs w) p with
    | Some _ => (Ok tt, set_fs (alter (delete (snd p)) (fst p)) w)
    | None => (Raise FileNotFoundError, w)
    end.

(** Writing a file: the directory has to exist. *)
Definition write_file (p : path) (c : file_data) : M unit :=
  fun w =>
    match fs w !! fst p with
    | Some _ => (Ok tt, set_fs (alter (insert (snd p) c) (fst p)) w)
    | None => (Raise FileNotFoundError, w)
    end.

(** [sorted(names)]: strings in lexicographic order. *)
Definition sorted (names : list string) : list string := merge_sort String.le names.

(** [os.listdir(d)] *)
Definition listdir (d : string) : M (list string) :=
  fun w =>
    match fs w !! d with
    | Some files => (Ok (map fst (map_to_list files)), w)
    | None => (Raise FileNotFoundError, w)
    end.

(** [name.endswith(suffix)] *)
Definition endswith (name suffix : string) : bool :=
  String.prefix (String.rev suffix) (String.rev name).

(** ** The external collaborators

    Library calls whose internals are outside the program.  Each field is
    the outcome of one call as a function of what the call reads. *)
Definition scaler_params : Type := list (Q * Q).   (* mean_ and scale_ per column *)

Record Env : Type := {
  (* pydub decoding of bytes that are not a WAV written by pydub *)
  decode : string -> result AudioSegment;
  (* ffmpeg -y -i src -acodec pcm_s16le -ar 16000 dst: the file written,
     or the exception of subprocess.run(check=True) *)
  ffmpeg : file_data -> result file_data;
  (* the three acoustic extractors merged into one dict *)
  acoustic : file_data -> result Row;
  (* Wav2Vec2Tokenizer/Wav2Vec2ForCTC.from_pretrained(model_name) *)
  from_pretrained : string -> result unit;
  (* the body of transcribe_audio for a loaded model: the decoded text,
     lower-cased and stripped *)
  wav2vec2 : string -> file_data -> result string;
  (* lftk.search_features without bilog_ttr and bilog_ttr_no_lem *)
  all_features : list string;
  (* get_spacy_pipeline(lang) followed by nlp(text) *)
  spacy_nlp : string -> string -> result unit;
  (* lftk.Extractor(docs=doc).extract(features=all_features) *)
  lftk_extract : string -> string -> result Row;
  (* StandardScaler.fit and the arithmetic of StandardScaler.transform *)
  scaler_fit : DataFrame -> result scaler_params;
  scaler_apply : scaler_params -> DataFrame -> result (list (list value));
  (* the classifier: model.feature_names_in_, model.predict and
     model.predict_proba (one pair of class probabilities per row) *)
  feature_names_in_ : list string;
  model_predict : DataFrame -> result (list Z);
  model_predict_proba : DataFrame -> result (list (Q * Q));
  (* the text that DataFrame.to_csv(path, index=False) writes for the
     columns file_name, Prediction and Probability of these rows *)
  to_csv : list ScoredSegment -> string
}.

Definition is_CouldntDecodeError (e : exn) : bool :=
  match e with CouldntDecodeError => true | _ => false end.
Definition is_CalledProcessError (e : exn) : bool :=
  match e with CalledProcessError => true | _ => false end.
Definition is_NotFittedError (e : exn) : bool :=
  match e with NotFittedError => true | _ => false end.
Definition is_ValueError (e : exn) : bool :=
  match e with ValueError => true | _ => false end.

(** ** segmentation.py *)
Module Segmentation.
Section WithEnv.
Context (E : Env).

(** [AudioSegment.from_file(p)] *)
Definition from_file (p : path) : M AudioSegment :=
  modify (log_event (FromFile p));;
  f ← gets (fun w => lookup_file (fs w) p);
  match f with
  | None => raise FileNotFoundError
  | Some (Wav audio) => mret audio
  | Some (Bytes raw) => lift (decode E raw)
  end.

(** [segment.export(p, format="wav")] *)
Definition export (audio : AudioSegment) (p : path) : M unit :=
  write_file p (Wav audio).

(** [subprocess.run(["ffmpeg", "-y", "-i", src, ..., dst], check=True)];
    ffmpeg exits with an error when it cannot open its input. *)
Definition run_ffmpeg (src dst : path) : M unit :=
  modify (log_event (Ffmpeg src dst));;
  f ← gets (fun w => lookup_file (fs w) src);
  match f with
  | None => raise CalledProcessError
  | Some c => out ← lift (ffmpeg E c); write_file dst out
  end.

Definition reencode_audio (file_path : path) : M (option path) :=
  let base := splitext_root (snd file_path) in
  let reencoded_path := (fst file_path, base +:+ "_reencoded.wav") in
  try_except
    (run_ffmpeg file_path reencoded_path;; mret (Some reencoded_path))
    is_CalledProcessError
    (fun _ => mret None).

Definition process_short_audio (audio : AudioSegment) (filename : string)
    (duration_ms target_ms : Z) (output_folder : string) : M unit :=
  q ← floordiv target_ms duration_ms;
  let repeats := q + 1 in
  let new_audio := getslice (mul audio repeats) None (Some target_ms) in
  let output_filename := splitext_root filename +:+ ".wav" in
  let output_path := (output_folder, output_filename) in
  export new_audio output_path.

Definition segment_filename (filename : string) (k : Z) : string :=
  splitext_root filename +:+ "_segment" +:+ pretty k +:+ ".wav".

Definition process_long_audio (audio : AudioSegment) (filename : string)
    (duration_ms segment_ms : Z) (output_folder : string) : M unit :=
  num_segments ← floordiv duration_ms segment_ms;
  for_each (seqZ 0 num_segments) (fun i =>
    let start_ms := i * segment_ms in
    let end_ms := start_ms + segment_ms in
    let segment := getslice audio (Some start_ms) (Some end_ms) in
    let output_filename := segment_filename filename (i + 1) in
    let output_path := (output_folder, output_filename) in
    export segment output_path);;
  let remainder_ms := duration_ms `mod` segment_ms in
  if 0 <? remainder_ms then
    let last_segment := getslice audio (Some (- remainder_ms)) None in
    q ← floordiv segment_ms remainder_ms;
    let repeats := q + 1 in
    let last_segment := getslice (mul last_segment repeats) None (Some segment_ms) in
    let output_filename := segment_filename filename (num_segments + 1) in
    let output_path := (output_folder, output_filename) in
    export last_segment output_path
  else mret tt.

(** The decoding step shared by both versions: [None] stands for the
    early [return] after a failed fallback. *)
Definition load_audio (file_path : path) : M (option AudioSegment) :=
  try_except
    (audio ← from_file file_path; mret (Some audio))
    is_CouldntDecodeError
    (fun _ =>
       reencoded_path ← reencode_audio file_path;
       match reencoded_path with
       | Some rp =>
           try_except
             (audio ← from_file rp; mret (Some audio))
             is_CouldntDecodeError
             (fun _ => mret None)
       | None => mret None
       end).

Definition split_audio (audio : AudioSegment) (file_path : path) (output_folder : string) : M unit :=
  let duration_ms := len audio in
  let twenty_sec_ms := 20 * 1000 in
  if duration_ms <? twenty_sec_ms then
    process_short_audio audio (basename file_path) duration_ms twenty_sec_ms output_folder
  else
    process_long_audio audio (basename file_path) duration_ms twenty_sec_ms output_folder.

Definition clean_folder (output_folder : string) : M unit :=
  ex ← exists_dir output_folder;
  (if ex : bool then rmtree output_folder else mret tt);;
  makedirs output_folder false.

(** backend/src/segmentation.py *)
Definition process_single_audio_file (file_path : path) (output_folder : string) : M unit :=
  ok ← isfile file_path;
  if negb ok then mret tt
  else
    clean_folder output_folder;;
    audio ← load_audio file_path;
    match audio with
    | None => mret tt
    | Some audio => split_audio audio file_path output_folder
    end.

(** server/server/segmentation.py: the folder is cleaned before the path
    is checked. *)
Definition process_single_audio_file_server (file_path : path) (output_folder : string) : M unit :=
  clean_folder output_folder;;
  ok ← isfile file_path;
  if negb ok then mret tt
  else
    audio ← load_audio file_path;
    match audio with
    | None => mret tt
    | Some audio => split_audio audio file_path output_folder
    end.

End WithEnv.
End Segmentation.

(** ** transcription.py *)
Module Transcription.

(** The supported languages and their ASR models. *)
Definition language_models : list (string * string) :=
  [ ("en", "facebook/wav2vec2-large-960h");
    ("de", "jonatasgrosman/wav2vec2-large-xlsr-53-german");
    ("es", "jonatasgrosman/wav2vec2-large-xlsr-53-spanish");
    ("zh", "jonatasgrosman/wav2vec2-large-xlsr-53-chinese-zh-cn");
    ("el", "facebook/wav2vec2-large-xlsr-53-greek");
    ("ar", "jonatasgrosman/wav2vec2-large-xlsr-53-arabic") ].

Definition model_name_of (language_code : string) : option string :=
  snd <$> find (fun kv => String.eqb (fst kv) language_code) language_models.

Section WithEnv.
Context (E : Env).

Definition load_language_model (language_code : string) : M unit :=
  match model_name_of language_code with
  | None => raise ValueError
  | Some model_name =>
      try_except
        (lift (from_pretrained E model_name);;
         modify (set_loaded (insert language_code (Some model_name))))
        is_Exception
        (fun _ => modify (set_loaded (insert language_code None)))
  end.

(** [language_models[lang]["tokenizer"]] and [language_models[lang]["model"]],
    read as one pair. *)
Definition get_language_model (lang : string) : M (option string) :=
  entry ← gets (fun w => loaded w !! lang);
  match entry with
  | Some loaded_pair => mret loaded_pair
  | None => raise KeyError
  end.

(** A failure of any kind inside the body is answered with [None]. *)
Definition transcribe_audio (file_path : path) (tokenizer_model : option string)
    : M (option string) :=
  try_except
    (f ← gets (fun w => lookup_file (fs w) file_path);
     match f, tokenizer_model with
     | None, _ => raise FileNotFoundError      (* librosa.load *)
     | Some _, None => raise TypeError         (* calling a None tokenizer *)
     | Some c, Some name =>
         transcription ← lift (wav2vec2 E name c);
         mret (Some transcription)
     end)
    is_Exception
    (fun _ => mret None).

End WithEnv.
End Transcription.

(** ** linguistic_extraction.py *)
Module Linguistic.
Section WithEnv.
Context (E : Env).

(** [{f: float("nan") for f in _all_features}] *)
Definition nan_features : Row := map (fun f => (f, NaN)) (all_features E).

(** [str.isspace] for a character below U+0080: the controls from tab
    to carriage return, the four separators U+001C to U+001F and the
    space. *)
Definition isspace_byte (b : N) : bool :=
  ((9 <=? b) && (b <=? 13) || (28 <=? b) && (b <=? 32))%N.

(** [str.isspace] for a character of two or three bytes of UTF-8:
    U+0085 and U+00A0; U+1680, U+2000 to U+200A, U+2028, U+2029, U+202F,
    U+205F and U+3000. *)
Definition isspace_2 (b c : N) : bool :=
  ((b =? 194) && ((c =? 133) || (c =? 160)))%N.

Definition isspace_3 (b c d : N) : bool :=
  ((b =? 225) && (c =? 154) && (d =? 128)
   || (b =? 226) && (c =? 128)
      && ((128 <=? d) && (d <=? 138) || (d =? 168) || (d =? 169) || (d =? 175))
   || (b =? 226) && (c =? 129) && (d =? 159)
   || (b =? 227) && (c =? 128) && (d =? 128))%N.

(** Whether a text, held as the bytes of its UTF-8 encoding, is made of
    whitespace only. *)
Fixpoint all_isspace (bytes : list N) : bool :=
  match bytes with
  | [] => true
  | b :: rest =>
      if isspace_byte b then all_isspace rest
      else
        match rest with
        | [] => false
        | c :: rest1 =>
            if isspace_2 b c then all_isspace rest1
            else
              match rest1 with
              | [] => false
              | d :: rest2 => isspace_3 b c d && all_isspace rest2
              end
        end
  end.

(** [not text.strip()]: nothing is left of the text when the whitespace
    at both ends is removed. *)
Definition is_blank (text : string) : bool :=
  all_isspace (map N_of_ascii (list_ascii_of_string text)).

(** backend/src/linguistic_extraction.py.  The argument is what
    [transcribe_audio] returned: [None] has no method [strip]. *)
Definition extract_linguistic_features (transcription : option string) (lang_code : string)
    : M DataFrame :=
  match transcription with
  | None => raise AttributeError
  | Some text =>
      if is_blank text then mret (DataFrame_of_row nan_features)
      else
        try_except
          (lift (spacy_nlp E lang_code text);;
           features ← lift (lftk_extract E lang_code text);
           mret (DataFrame_of_row features))
          is_Exception
          (fun _ => mret (DataFrame_of_row nan_features))
  end.

(** server/server/linguistic_extraction.py: the pipeline is loaded and
    run outside the [try]; spaCy refuses an input that is not text. *)
Definition extract_linguistic_features_server (transcription : option string) (lang_code : string)
    : M Row :=
  match transcription with
  | None => raise ValueError
  | Some text =>
      lift (spacy_nlp E lang_code text);;
      try_except
        (lift (lftk_extract E lang_code text))
        is_ValueError
        (fun _ => mret nan_features)
  end.

End WithEnv.
End Linguistic.

(** ** prediction.py *)

(** A StandardScaler object: its fitted parameters, [None] when it was
    never fit. *)
Definition StandardScaler : Type := option scaler_params.

(** [a > b] on numbers *)
Definition Qgt_bool (a b : Q) : bool := negb (Qle_bool a b).

Module Prediction.

(** server/server/prediction.py *)
Definition weighted_majority_voting (df : list ScoredSegment) : Z :=
  let weighted_sum_1 :=
    Numpy.sum (map Probability (filter (fun r => Prediction r = 1) df)) in
  let weighted_sum_0 :=
    Numpy.sum (map (fun p => Float64.sub 1 p)
                 (map Probability (filter (fun r => Prediction r = 0) df))) in
  if Qgt_bool weighted_sum_1 weighted_sum_0 then 1 else 0.

(** [pd.DataFrame(array, columns=names)] *)
Definition with_columns (names : list string) (cols : list (list value)) : DataFrame :=
  zip names cols.

(** [df[names]]: a missing label is a KeyError. *)
Fixpoint select_columns (df : DataFrame) (names : list string) : result DataFrame :=
  match names with
  | [] => Ok []
  | n :: names' =>
      match find (fun col => String.eqb (fst col) n) df with
      | None => Raise KeyError
      | Some col =>
          match select_columns df names' with
          | Ok cols => Ok (col :: cols)
          | Raise e => Raise e
          end
      end
  end.

Section WithEnv.
Context (E : Env).

Definition scaler_transform (scaler : StandardScaler) (X : DataFrame) : M (list (list value)) :=
  modify (log_event (ScalerTransform X));;
  match scaler with
  | None => raise NotFittedError
  | Some params => lift (scaler_apply E params X)
  end.

(** [scaler.fit_transform(X)]: the scaler is fit on [X] itself. *)
Definition scaler_fit_transform (X : DataFrame) : M (list (list value)) :=
  modify (log_event (ScalerFitTransform X));;
  params ← lift (scaler_fit E X);
  lift (scaler_apply E params X).

Definition predict (scaler : StandardScaler) (combined_features : DataFrame)
    : M (list Z * list Q) :=
  scaled_features ← scaler_transform scaler combined_features;
  let significant_features := feature_names_in_ E in
  let features_df := with_columns (map fst combined_features) scaled_features in
  selected_features ← lift (select_columns features_df significant_features);
  predictions ← lift (model_predict E selected_features);
  proba ← lift (model_predict_proba E selected_features);
  let probabilities := map snd proba in
  mret (predictions, probabilities).

(** [output_dir] is [os.path.join(os.path.dirname(__file__), "outputs")].
    Of the frame, the three columns that are written are kept. *)
Definition save_predictions (output_dir : string) (rows : list ScoredSegment) : M path :=
  makedirs output_dir true;;
  let output_path := (output_dir, "predictions.csv") in
  write_file output_path (Bytes (to_csv E rows));;
  modify (log_event (SavePredictions rows));;
  mret output_path.

End WithEnv.
End Prediction.

(** ** backend/api/prediction.py *)
Module ApiPrediction.

Definition MODELS_DIR : string := "backend/api/models".
Definition MODEL_PATH : path := (MODELS_DIR, "random_forest_model.joblib").
Definition SCALER_PATH : path := (MODELS_DIR, "scaler.joblib").

(** The numbers of a column, in increasing order. *)
Definition present (col : list value) : list Q :=
  merge_sort (fun x y => Is_true (Qle_bool x y))
    (omap (fun v => match v with Num q => Some q | NaN => None end) col).

(** [Series.median()]: missing values are skipped; nothing left gives NaN. *)
Definition median (col : list value) : value :=
  let xs := present col in
  let n := length xs in
  match n with
  | O => NaN
  | _ =>
      if Nat.odd n then
        match xs !! (n / 2)%nat with Some q => Num q | None => NaN end
      else
        match xs !! (n / 2 - 1)%nat, xs !! (n / 2)%nat with
        | Some a, Some b => Num ((a + b) / 2)%Q
        | _, _ => NaN
        end
  end.

(** [df.fillna(df.median(), inplace=True)] *)
Definition fillna_median (df : DataFrame) : DataFrame :=
  map (fun col =>
         let m := median (snd col) in
         (fst col, map (fun v => if is_nan v then m else v) (snd col)))
      df.

(** [np.round]: to the nearest integer, halves to the even one. *)
Definition np_round (q : Q) : Z :=
  let f := Qfloor q in
  let d := (q - inject_Z f)%Q in
  if Qgt_bool (1 # 2) d then f
  else if Qgt_bool d (1 # 2) then f + 1
  else if Z.even f then f else f + 1.

(** [probabilities.mean()]: the float64 sum divided by the count; the
    mean of nothing is NaN, which [int] refuses. *)
Definition mean (l : list Q) : result Q :=
  match l with
  | [] => Raise ValueError
  | _ => Ok (Float64.div (Numpy.sum l) (inject_Z (Z.of_nat (length l))))
  end.

(** The text of a path, as [str] sees it. *)
Definition path_string (p : path) : string := fst p +:+ "/" +:+ snd p.

Section WithEnv.
Context (E : Env).
(** what [joblib.load(SCALER_PATH)] yields *)
Context (saved_scaler : StandardScaler).

Definition load_model_and_scaler : M StandardScaler :=
  m ← exists_file MODEL_PATH;
  if negb m then raise FileNotFoundError
  else
    s ← exists_file SCALER_PATH;
    if negb s then raise FileNotFoundError
    else mret saved_scaler.

(** backend/src/acoustic_extraction.py: every extractor answers a
    failure with an empty dict. *)
Definition extract_acoustic_features (file_path : path) : M DataFrame :=
  f ← gets (fun w => lookup_file (fs w) file_path);
  match f with
  | None => mret (DataFrame_of_row [])
  | Some c => features ← lift (acoustic E c); mret (DataFrame_of_row features)
  end.

(** The second call passes the path where a transcription is expected. *)
Definition prepare_features (audio_path : path) (language_code : string) : M DataFrame :=
  acoustic_df ← extract_acoustic_features audio_path;
  linguistic_df ←
    Linguistic.extract_linguistic_features E (Some (path_string audio_path)) language_code;
  let combined_df := concat_axis1 acoustic_df linguistic_df in
  mret (fillna_median combined_df).

Definition predict_final_classification (audio_path : path) (language_code : string)
    : M string :=
  try_except
    (scaler ← load_model_and_scaler;
     combined_features ← prepare_features audio_path language_code;
     scaled_features ←
       try_except
         (Prediction.scaler_transform E scaler combined_features)
         is_NotFittedError
         (fun _ => Prediction.scaler_fit_transform E combined_features);
     proba ← lift (model_predict_proba E
                     (Prediction.with_columns (map fst combined_features) scaled_features));
     let probabilities := map snd proba in
     m ← lift (mean probabilities);
     let prediction := np_round m in
     let label := if prediction =? 1 then "Alzheimer's Detected" else "Healthy Control" in
     mret label)
    is_Exception
    (fun _ => mret "Error: Prediction failed.").

End WithEnv.
End ApiPrediction.

(** ** prediction_script.py *)

(** The decision threshold of the orchestrator. *)
Definition threshold : Q := 0.28.

Definition ERROR_LABEL : string := "Error: Could not classify audio.".

(** [for x in xs: results.append(body(x))] *)
Fixpoint collect {A B} (xs : list A) (body : A -> M B) : M (list B) :=
  match xs with
  | [] => mret []
  | x :: xs' => r ← body x; rs ← collect xs' body; mret (r :: rs)
  end.

(** The [.wav] files of a folder, by sorted name. *)
Definition wav_files (folder : string) (names : list string) : list path :=
  map (fun f => (folder, f)) (sorted (List.filter (fun f => endswith f ".wav") names)).

Definition label_of (classification_result : Z) : string :=
  if classification_result =? 0 then "HC" else "AD".

(** backend/src/prediction_script.py.  Its imports [predict],
    [save_predictions] and [weighted_majority_voting] are the functions of
    server/server/prediction.py, the only definitions of these names. *)
Module Backend.

Definition PROCESSED_DIR : string := "backend/processed_audio".
Definition UPLOAD_DIR : string := "backend/uploads".
(** the folder [outputs] next to backend/api/prediction.py, the module
    that [save_predictions] is imported from *)
Definition OUTPUTS_DIR : string := "backend/api/outputs".

Definition delete_directory (directory_path : string) : M unit :=
  ex ← exists_dir directory_path;
  if ex : bool then try_except (rmtree directory_path) is_Exception (fun _ => mret tt)
  else mret tt.

Definition safe_delete_file (file_path : path) : M unit :=
  ex ← exists_file file_path;
  if ex : bool then try_except (os_remove file_path) is_Exception (fun _ => mret tt)
  else mret tt.

Section WithEnv.
Context (E : Env).
(** the module-level [scaler] loaded at import *)
Context (scaler : StandardScaler).

Definition extract_all_features (file_path : path) : M Row :=
  f ← gets (fun w => lookup_file (fs w) file_path);
  match f with
  | None => mret []
  | Some c => lift (acoustic E c)
  end.

(** The body of the loop over the segments. *)
Definition score_segment (lang : string) (tokenizer_model : option string)
    (segment_path : path) : M ScoredSegment :=
  acoustic_features ← extract_all_features segment_path;
  let acoustic_df := DataFrame_of_row acoustic_features in
  transcription ← Transcription.transcribe_audio E segment_path tokenizer_model;
  linguistic_df ← Linguistic.extract_linguistic_features E transcription lang;
  let combined_features := concat_axis1 acoustic_df linguistic_df in
  '(preds, probs) ← Prediction.predict E scaler combined_features;
  positive_prob ← match probs with
                  | p :: _ => mret p
                  | [] => raise IndexError
                  end;
  let predicted_label := if Qle_bool threshold positive_prob then 1 else 0 in
  mret {| file_name := basename segment_path;
          Prediction := predicted_label;
          Probability := positive_prob |}.

Definition pipeline (audio_file_path : path) (lang : string) : M string :=
  Segmentation.process_single_audio_file E audio_file_path PROCESSED_DIR;;
  names ← listdir PROCESSED_DIR;
  let segment_files := wav_files PROCESSED_DIR names in
  match segment_files with
  | [] => raise FileNotFoundError
  | _ =>
      Transcription.load_language_model E lang;;
      tokenizer_model ← Transcription.get_language_model lang;
      results ← collect segment_files (score_segment lang tokenizer_model);
      Prediction.save_predictions E OUTPUTS_DIR results;;
      let classification_result := Prediction.weighted_majority_voting results in
      mret (label_of classification_result)
  end.

Definition finalize : M unit :=
  delete_directory PROCESSED_DIR;;
  safe_delete_file (UPLOAD_DIR, "recording.wav");;
  safe_delete_file (UPLOAD_DIR, "test_connection.wav").

Definition predict_final_classification (audio_file_path : path) (lang : string) : M string :=
  try_finally
    (try_except (pipeline audio_file_path lang) is_Exception (fun _ => mret ERROR_LABEL))
    finalize.

End WithEnv.
End Backend.

(** server/server/prediction_script.py *)
Module Server.

Definition processed_folder : string :=
  "D:\ISEF Application\dementia_detector\server\server\processed_audio".
Definition uploads : string :=
  "D:\ISEF Application\dementia_detector\server\server\uploads".
(** the folder [outputs] next to prediction.py, which lies with the
    other modules in the folder of the two paths above *)
Definition outputs : string :=
  "D:\ISEF Application\dementia_detector\server\server\outputs".

Definition delete_directory (directory_path : string) : M unit :=
  ex ← exists_dir directory_path;
  if ex : bool then try_except (rmtree directory_path) is_Exception (fun _ => mret tt)
  else mret tt.

Section WithEnv.
Context (E : Env).
Context (scaler : StandardScaler).

Definition score_segment (lang : string) (tokenizer_model : option string)
    (segment_path : path) : M ScoredSegment :=
  acoustic_features ← Backend.extract_all_features E segment_path;
  let acoustic_features_df := DataFrame_of_row acoustic_features in
  transcription ← Transcription.transcribe_audio E segment_path tokenizer_model;
  linguistic_features ← Linguistic.extract_linguistic_features_server E transcription lang;
  let linguistic_features_df := DataFrame_of_row linguistic_features in
  let combined_features := concat_axis1 acoustic_features_df linguistic_features_df in
  '(preds, probs) ← Prediction.predict E scaler combined_features;
  positive_prob ← match probs with
                  | p :: _ => mret p
                  | [] => raise IndexError
                  end;
  let predicted_label := if Qle_bool threshold positive_prob then 1 else 0 in
  mret {| file_name := basename segment_path;
          Prediction := predicted_label;
          Probability := positive_prob |}.

Definition pipeline (audio_file_path : path) (lang : string) : M string :=
  makedirs processed_folder true;;
  Segmentation.process_single_audio_file_server E audio_file_path processed_folder;;
  names ← listdir processed_folder;
  let segment_files := wav_files processed_folder names in
  match segment_files with
  | [] => raise FileNotFoundError
  | _ =>
      Transcription.load_language_model E lang;;
      tokenizer_model ← Transcription.get_language_model lang;
      results ← collect segment_files (score_segment lang tokenizer_model);
      Prediction.save_predictions E outputs results;;
      let classification_result := Prediction.weighted_majority_voting results in
      mret (label_of classification_result)
  end.

(** The two uploads are removed without a guard. *)
Definition finalize : M unit :=
  delete_directory processed_folder;;
  os_remove (uploads, "recording.wav");;
  os_remove (uploads, "test_connection.wav").

Definition predict_final_classification (audio_file_path : path) (lang : string) : M string :=
  try_finally
    (try_except (pipeline audio_file_path lang) is_Exception (fun _ => mret ERROR_LABEL))
    finalize.

End WithEnv.
End Server.

(** ** The /cancel handlers of server.py

    [current_process_pid] is initialised to [None] and no statement of the
    repository assigns it another value, so the [os.kill] branch is never
    taken: a cancel request only touches the processed folder. *)
Module Http.

Definition API_UPLOAD_FOLDER : string := "backend/api/uploads".
Definition API_PROCESSED_FOLDER : string := "backend/api/processed_audio".

(** server/server/server.py, [cancel_process] *)
Definition cancel_process_server : M (string * Z) :=
  try_except
    (ex ← exists_dir Server.processed_folder;
     (if ex : bool then rmtree Server.processed_folder else mret tt);;
     mret ("success", 200))
    is_Exception
    (fun _ => mret ("error", 500)).

(** backend/api/server.py, [clear_processed_audio] and [cancel_process];
    resetting the upload flag is not a file-system effect. *)
Definition clear_processed_audio : M unit :=
  ex ← exists_dir API_PROCESSED_FOLDER;
  if ex : bool then rmtree API_PROCESSED_FOLDER;; makedirs API_PROCESSED_FOLDER true
  else mret tt.

Definition cancel_process_backend : M (string * Z) :=
  try_except
    (clear_processed_audio;; mret ("success", 200))
    is_Exception
    (fun _ => mret ("error", 500)).

End Http.

(** ** Notions used by the statements *)

(** A file decodes at once, or after the ffmpeg fallback. *)
Definition decodes_directly (E : Env) (c : file_data) (audio : AudioSegment) : Prop :=
  match c with
  | Wav a => a = audio
  | Bytes raw => decode E raw = Ok audio
  end.

Definition decodes_after_reencoding (E : Env) (c : file_data) (audio : AudioSegment) : Prop :=
  exists raw out,
    c = Bytes raw /\ decode E raw = Raise CouldntDecodeError /\
    ffmpeg E c = Ok out /\ decodes_directly E out audio.

Definition decodes (E : Env) (c : file_data) (audio : AudioSegment) : Prop :=
  decodes_directly E c audio \/ decodes_after_reencoding E c audio.

(** A file that holds exactly [ms] milliseconds of audio. *)
Definition holds_ms (ms : Z) (c : file_data) : Prop :=
  exists a, c = Wav a /\ len a = ms.

(** The fallback does not help: ffmpeg fails, or what it wrote does not
    decode either. *)
Definition retry_fails (E : Env) (c : file_data) : Prop :=
  ffmpeg E c = Raise CalledProcessError \/
  exists raw', ffmpeg E c = Ok (Bytes raw') /\ decode E raw' = Raise CouldntDecodeError.

(** The path ffmpeg writes to. *)
Definition reencoded_path (file_path : path) : path :=
  (fst file_path, splitext_root (snd file_path) +:+ "_reencoded.wav").

(** The directory after a run of exports. *)
Definition exported {A} (nm : A -> string) (seg : A -> AudioSegment)
    (d : directory) (xs : list A) : directory :=
  foldl (fun d x => <[nm x := Wav (seg x)]> d) d xs.

(** The [i]-th full segment, the looped remainder and the folder of a long
    recording, as the code builds them. *)
Definition full_segment (audio : AudioSegment) (segment_ms i : Z) : AudioSegment :=
  getslice audio (Some (i * segment_ms)) (Some (i * segment_ms + segment_ms)).

Definition padded_remainder (audio : AudioSegment) (segment_ms : Z) : AudioSegment :=
  let remainder_ms := len audio `mod` segment_ms in
  let last_segment := getslice audio (Some (- remainder_ms)) None in
  getslice (mul last_segment (segment_ms / remainder_ms + 1)) None (Some segment_ms).

Definition long_folder (audio : AudioSegment) (filename : string) (segment_ms : Z)
    (d : directory) : directory :=
  let q := len audio / segment_ms in
  let d1 := exported (fun i => Segmentation.segment_filename filename (i + 1))
              (full_segment audio segment_ms) d (seqZ 0 q) in
  if 0 <? len audio `mod` segment_ms
  then <[Segmentation.segment_filename filename (q + 1) := Wav (padded_remainder audio segment_ms)]> d1
  else d1.


(** ** pydub's AudioSegment, frame by frame

    What pydub holds is a frame rate and the frames: a recording is a
    whole number of frames, not of milliseconds.  [len] rounds the
    duration to milliseconds, a slice turns each bound from milliseconds
    to a frame index by truncation, and a slice that asks for frames
    past the end gets them as silence, up to two milliseconds of it.
    One frame is an integer code, [0] the silent frame. *)
Module Frames.

Record AudioSegment : Type := {
  frame_rate : Z;
  data : list Z
}.

(** [frame_count(ms=None)]: the frames of the segment, or those of [ms]
    milliseconds; a float either way. *)
Definition frame_count (audio : AudioSegment) (ms : option Z) : Q :=
  match ms with
  | Some ms =>
      Float64.mul (Float64.b64 (inject_Z ms))
        (Float64.div (Float64.b64 (inject_Z (frame_rate audio))) 1000)
  | None => Float64.b64 (inject_Z (Z.of_nat (length (data audio))))
  end.

(** [len(audio)]: [round(1000 * (self.frame_count() / self.frame_rate))] *)
Definition len (audio : AudioSegment) : Z :=
  Float64.round
    (Float64.mul 1000
       (Float64.div (frame_count audio None)
          (Float64.b64 (inject_Z (frame_rate audio))))).

(** [audio * n] *)
Definition mul (audio : AudioSegment) (n : Z) : AudioSegment :=
  {| frame_rate := frame_rate audio;
     data := concat (replicate (Z.to_nat n) (data audio)) |}.

(** [_parse_position(val)], for a finite [val] *)
Definition parse_position (audio : AudioSegment) (val : Z) : Z :=
  let val := if val <? 0 then len audio - Z.abs val else val in
  Float64.int (frame_count audio (Some val)).

(** [audio[start:stop]]; TooManyMissingFrames is an Exception of pydub. *)
Definition getslice (audio : AudioSegment) (start stop : option Z) : result AudioSegment :=
  let start := default 0 start in
  let stop := default (len audio) stop in
  let start := Z.min start (len audio) in
  let stop := Z.min stop (len audio) in
  let start := parse_position audio start in
  let stop := parse_position audio stop in
  let sliced := py_slice (data audio) start stop in
  let expected_length := stop - start in
  let missing_frames := expected_length - Z.of_nat (length sliced) in
  if missing_frames =? 0 then
    Ok {| frame_rate := frame_rate audio; data := sliced |}
  else if negb (Qle_bool (inject_Z missing_frames) (frame_count audio (Some 2))) then
    Raise OtherException
  else
    let silence := map (fun _ => 0) (take 1 sliced) in
    Ok {| frame_rate := frame_rate audio;
          data := sliced ++ concat (replicate (Z.to_nat missing_frames) silence) |}.

(** segmentation.py on such a segment.  The files exported are returned
    in the order of the calls to [export], each with its name. *)
Definition exports : Type := list (string * AudioSegment).

(** [a // b] *)
Definition floordiv (a b : Z) : result Z :=
  if b =? 0 then Raise ZeroDivisionError else Ok (a / b).

Definition process_short_audio (audio : AudioSegment) (filename : string)
    (duration_ms target_ms : Z) : result exports :=
  match floordiv target_ms duration_ms with
  | Raise e => Raise e
  | Ok q =>
      let repeats := q + 1 in
      match getslice (mul audio repeats) None (Some target_ms) with
      | Raise e => Raise e
      | Ok new_audio =>
          let output_filename := splitext_root filename +:+ ".wav" in
          Ok [(output_filename, new_audio)]
      end
  end.

(** The loop over the full segments. *)
Fixpoint export_segments (audio : AudioSegment) (filename : string) (segment_ms : Z)
    (indices : list Z) : result exports :=
  match indices with
  | [] => Ok []
  | i :: rest =>
      let start_ms := i * segment_ms in
      let end_ms := start_ms + segment_ms in
      match getslice audio (Some start_ms) (Some end_ms) with
      | Raise e => Raise e
      | Ok segment =>
          let output_filename := Segmentation.segment_filename filename (i + 1) in
          match export_segments audio filename segment_ms rest with
          | Raise e => Raise e
          | Ok files => Ok ((output_filename, segment) :: files)
          end
      end
  end.

Definition process_long_audio (audio : AudioSegment) (filename : string)
    (duration_ms segment_ms : Z) : result exports :=
  match floordiv duration_ms segment_ms with
  | Raise e => Raise e
  | Ok num_segments =>
      match export_segments audio filename segment_ms (seqZ 0 num_segments) with
      | Raise e => Raise e
      | Ok files =>
          let remainder_ms := duration_ms `mod` segment_ms in
          if 0 <? remainder_ms then
            match getslice audio (Some (- remainder_ms)) None with
            | Raise e => Raise e
            | Ok last_segment =>
                match floordiv segment_ms remainder_ms with
                | Raise e => Raise e
                | Ok q =>
                    let repeats := q + 1 in
                    match getslice (mul last_segment repeats) None (Some segment_ms) with
                    | Raise e => Raise e
                    | Ok last_segment =>
                        let output_filename :=
                          Segmentation.segment_filename filename (num_segments + 1) in
                        Ok (files ++ [(output_filename, last_segment)])
                    end
                end
            end
          else Ok files
      end
  end.

(** The end of [process_single_audio_file], from the decoded audio on. *)
Definition split_audio (audio : AudioSegment) (filename : string) : result exports :=
  let duration_ms := len audio in
  let twenty_sec_ms := 20 * 1000 in
  if duration_ms <? twenty_sec_ms then
    process_short_audio audio filename duration_ms twenty_sec_ms
  else
    process_long_audio audio filename duration_ms twenty_sec_ms.

End Frames.

(** The two conversions on numbers: the milliseconds [len] reports for a
    number of frames, and the frame index of a position in milliseconds. *)
Definition duration_ms (rate frames : Z) : Z :=
  Float64.round
    (Float64.mul 1000
       (Float64.div (Float64.b64 (inject_Z frames)) (Float64.b64 (inject_Z rate)))).

Definition frame_index (rate ms : Z) : Z :=
  Float64.int
    (Float64.mul (Float64.b64 (inject_Z ms))
       (Float64.div (Float64.b64 (inject_Z rate)) 1000)).

(** ** A concrete deployment, to run the definitions

    Uploads that are not WAV files do not decode; ffmpeg repairs only the
    upload ["truncated"], into bytes that still do not decode.  The
    acoustic extractor reports the first millisecond of the segment,
    divided by 100, as its only feature, and the classifier returns that
    feature as the probability of the positive class (it refuses a
    missing value).  The ASR model fails on a segment that starts with
    code 0 and hears nothing in one that starts with code 1. *)
Module Sample.

Definition zcr_of (X : DataFrame) : option Q :=
  match find (fun col => String.eqb (fst col) "zcr") X with
  | Some (_, Num q :: _) => Some q
  | _ => None
  end.

Definition env : Env := {|
  decode := fun _ => Raise CouldntDecodeError;
  ffmpeg := fun c =>
    match c with
    | Bytes "truncated" => Ok (Bytes "garbled")
    | _ => Raise CalledProcessError
    end;
  acoustic := fun c =>
    match c with
    | Wav (code :: _) => Ok [("zcr", Num (code # 100))]
    | _ => Ok []
    end;
  from_pretrained := fun _ => Ok tt;
  wav2vec2 := fun _ c =>
    match c with
    | Wav (0 :: _) => Raise OtherException
    | Wav (1 :: _) => Ok ""
    | _ => Ok "the cat sat"
    end;
  all_features := ["t_word"; "t_sent"];
  spacy_nlp := fun _ _ => Ok tt;
  lftk_extract := fun _ _ => Ok [("t_word", Num 3); ("t_sent", Num 1)];
  scaler_fit := fun X => Ok (map (fun _ => (0, 1)%Q) X);
  scaler_apply := fun _ X => Ok (map snd X);
  feature_names_in_ := ["zcr"; "t_word"];
  model_predict := fun X => Ok [1];
  model_predict_proba := fun X =>
    if has_nan X then Raise ValueError
    else match zcr_of X with
         | Some q => Ok [((1 - q)%Q, q)]
         | None => Ok [((1 # 2)%Q, (1 # 2)%Q)]
         end;
  to_csv := fun rows =>
    String.concat "," ("file_name,Prediction,Probability" :: map file_name rows)
|}.

Definition recording : path := (Backend.UPLOAD_DIR, "recording.wav").

(** A world whose only file is the upload. *)
Definition upload (c : file_data) : world :=
  {| fs := {[ Backend.UPLOAD_DIR := {[ "recording.wav" := c ]} ]};
     loaded := ∅;
     trace := [] |}.

(** [seconds] seconds of audio, every millisecond with the same code. *)
Definition tone (code : Z) (seconds : nat) : AudioSegment :=
  replicate (seconds * 1000) code.

(** A world in which one segment waits in the processed folder and the
    English ASR model is loaded. *)
Definition one_segment (audio : AudioSegment) : world :=
  {| fs := {[ Backend.PROCESSED_DIR := {[ "recording.wav" := Wav audio ]} ]};
     loaded := {[ "en" := Some "facebook/wav2vec2-large-960h" ]};
     trace := [] |}.

(** A world with the upload and the two model artifacts of
    backend/api/models. *)
Definition deployed (c : file_data) : world :=
  {| fs := {[ Backend.UPLOAD_DIR := {[ "recording.wav" := c ]};
              ApiPrediction.MODELS_DIR :=
                {[ "random_forest_model.joblib" := Bytes "joblib";
                   "scaler.joblib" := Bytes "joblib" ]} ]};
     loaded := ∅;
     trace := [] |}.

(** The same deployment with an acoustic extractor that is interrupted. *)
Definition interrupted : Env := {|
  decode := decode env;
  ffmpeg := ffmpeg env;
  acoustic := fun _ => Raise KeyboardInterrupt;
  from_pretrained := from_pretrained env;
  wav2vec2 := wav2vec2 env;
  all_features := all_features env;
  spacy_nlp := spacy_nlp env;
  lftk_extract := lftk_extract env;
  scaler_fit := scaler_fit env;
  scaler_apply := scaler_apply env;
  feature_names_in_ := feature_names_in_ env;
  model_predict := model_predict env;
  model_predict_proba := model_predict_proba env;
  to_csv := to_csv env
|}.

(** Requests in flight when a cancel arrives: a segment is in the
    processed folder and the upload is still in place. *)
Definition in_flight_server : world :=
  {| fs := {[ Server.processed_folder := {[ "recording_segment1.wav" := Wav [5] ]};
              Server.uploads := {[ "recording.wav" := Wav [5; 5] ]} ]};
     loaded := ∅;
     trace := [] |}.

Definition in_flight_backend : world :=
  {| fs := {[ Backend.PROCESSED_DIR := {[ "recording_segment1.wav" := Wav [5] ]};
              Http.API_PROCESSED_FOLDER := ∅;
              Http.API_UPLOAD_FOLDER := {[ "recording_20240101_120000.wav" := Wav [5; 5] ]} ]};
     loaded := ∅;
     trace := [] |}.

(** The server's world: the upload and the connection test file. *)
Definition server_recording : path := (Server.uploads, "recording.wav").

Definition server_upload (c : file_data) : world :=
  {| fs := {[ Server.uploads := {[ "recording.wav" := c;
                                   "test_connection.wav" := Bytes "ping" ]} ]};
     loaded := ∅;
     trace := [] |}.

End Sample.

(** The two sums of the voting rule, as the specification words them:
    every segment adds its own confidence to the side it voted for. *)
Fixpoint positive_sum (segments : list ScoredSegment) : Q :=
  match segments with
  | [] => 0
  | s :: rest =>
      ((if Prediction s =? 1 then Probability s else 0) + positive_sum rest)%Q
  end.

Fixpoint negative_sum (segments : list ScoredSegment) : Q :=
  match segments with
  | [] => 0
  | s :: rest =>
      ((if Prediction s =? 0 then 1 - Probability s else 0) + negative_sum rest)%Q
  end.

(** The same two sums as the code forms them: the confidences of each
    side in row order, [1.0 - p] rounded to float64 for a row that voted
    0, added up by numpy in float64. *)
Fixpoint positive_confidences (segments : list ScoredSegment) : list Q :=
  match segments with
  | [] => []
  | s :: rest =>
      if Prediction s =? 1 then Probability s :: positive_confidences rest
      else positive_confidences rest
  end.

Fixpoint negative_confidences (segments : list ScoredSegment) : list Q :=
  match segments with
  | [] => []
  | s :: rest =>
      if Prediction s =? 0
      then Float64.sub 1 (Probability s) :: negative_confidences rest
      else negative_confidences rest
  end.

Definition float_positive_sum (segments : list ScoredSegment) : Q :=
  Numpy.sum (positive_confidences segments).

Definition float_negative_sum (segments : list ScoredSegment) : Q :=
  Numpy.sum (negative_confidences segments).

(** Three segments that voted 1 with the doubles 0.3, 0.2 and 0.1, and
    one that voted 0 with the double 0.4. *)
Definition three_against_one : list ScoredSegment :=
  [ {| file_name := "a_segment1.wav"; Prediction := 1; Probability := f64 0.3 |};
    {| file_name := "a_segment2.wav"; Prediction := 1; Probability := f64 0.2 |};
    {| file_name := "a_segment3.wav"; Prediction := 1; Probability := f64 0.1 |};
    {| file_name := "a_segment4.wav"; Prediction := 0; Probability := f64 0.4 |} ].

(** The label a probability gets from the orchestrator's threshold. *)
Definition thresholded (r : ScoredSegment) : Prop :=
  (Prediction r = 1 <-> (0.28 <= Probability r)%Q) /\
  (Prediction r = 0 <-> (Probability r < 0.28)%Q) /\
  ((Probability r == 0.28)%Q -> Prediction r = 1).


(** The features of one segment as the loop body puts them together:
    the acoustic row next to the linguistic one. *)
Definition backend_features (E : Env) (lang : string) (tokenizer_model : option string)
    (segment_path : path) : M DataFrame :=
  acoustic_features ← Backend.extract_all_features E segment_path;
  transcription ← Transcription.transcribe_audio E segment_path tokenizer_model;
  linguistic_df ← Linguistic.extract_linguistic_features E transcription lang;
  mret (concat_axis1 (DataFrame_of_row acoustic_features) linguistic_df).

Definition server_features (E : Env) (lang : string) (tokenizer_model : option string)
    (segment_path : path) : M DataFrame :=
  acoustic_features ← Backend.extract_all_features E segment_path;
  transcription ← Transcription.transcribe_audio E segment_path tokenizer_model;
  linguistic_features ← Linguistic.extract_linguistic_features_server E transcription lang;
  mret (concat_axis1 (DataFrame_of_row acoustic_features)
          (DataFrame_of_row linguistic_features)).

(** The row [r] of a segment is its score with the label that the
    threshold gives it: from the world [w], the features of the segment
    were put together, [predict] returned for them, leaving the world
    [w'], and [r] holds the name of the segment, the first probability
    that [predict] returned and the label of this probability. *)
Definition labelled_score (E : Env) (scaler : StandardScaler) (features : path -> M DataFrame)
    (segment_path : path) (w : world) (r : ScoredSegment) (w' : world) : Prop :=
  exists combined_features w1 preds positive_prob probs,
    features segment_path w = (Ok combined_features, w1) /\
    Prediction.predict E scaler combined_features w1
    = (Ok (preds, positive_prob :: probs), w') /\
    r = {| file_name := basename segment_path;
           Prediction := if Qle_bool threshold positive_prob then 1 else 0;
           Probability := positive_prob |}.

(** ** Further notions used by the statements *)

(** The folder the segmenter leaves for a recording, as a function of the
    audio and of the name of the upload alone. *)
Definition segment_folder (audio : AudioSegment) (filename : string) : directory :=
  if len audio <? 20000 then
    {[ splitext_root filename +:+ ".wav" :=
         Wav (getslice (mul audio (20000 / len audio + 1)) None (Some 20000)) ]}
  else long_folder audio filename 20000 ∅.

(** A statement leaves the file at [q] as it was (there or not). *)
Definition keeps_file {A} (q : path) (m : M A) : Prop :=
  forall w, lookup_file (fs (snd (m w))) q = lookup_file (fs w) q.

(** The deployment of [Sample.env] on a machine that cannot fetch the
    ASR checkpoints: every [from_pretrained] fails. *)
Module Offline.

Definition env : Env := {|
  decode := decode Sample.env;
  ffmpeg := ffmpeg Sample.env;
  acoustic := acoustic Sample.env;
  from_pretrained := fun _ => Raise OtherException;
  wav2vec2 := wav2vec2 Sample.env;
  all_features := all_features Sample.env;
  spacy_nlp := spacy_nlp Sample.env;
  lftk_extract := lftk_extract Sample.env;
  scaler_fit := scaler_fit Sample.env;
  scaler_apply := scaler_apply Sample.env;
  feature_names_in_ := feature_names_in_ Sample.env;
  model_predict := model_predict Sample.env;
  model_predict_proba := model_predict_proba Sample.env;
  to_csv := to_csv Sample.env
|}.

End Offline.

(** ** The request handlers of the two server.py

    Each Flask module keeps two globals between requests: the selected
    language and the upload flag [UPLOAD_STATUS["complete"]].  A handler
    takes them and returns its response with their new values.  Of a
    response the HTTP code and the payload are kept; the texts of the
    [message] fields are left out. *)
Record session := {
  selected_language_code : option string;
  UPLOAD_STATUS : bool
}.

Inductive body :=
  | Error                            (* {"status": "error", "message": ...} *)
  | Success                          (* {"status": "success", "message": ...} *)
  | Classification (label : string)  (* {"status": "success", "classification": label} *)
  | Complete (complete : bool).      (* {"complete": complete} *)

Abbreviation response := (body * Z)%type.

(** [request.get_json()]: the body of the request, an object with text
    values, if there is one. *)
Abbreviation json_body := (option (gmap string string)).

(** [request.files]: under each field a file name and what the file
    holds. *)
Abbreviation request_files := (gmap string (string * file_data)).

Definition set_language (code : string) (s : session) : session :=
  {| selected_language_code := Some code; UPLOAD_STATUS := UPLOAD_STATUS s |}.

Definition set_complete (b : bool) (s : session) : session :=
  {| selected_language_code := selected_language_code s; UPLOAD_STATUS := b |}.

(** The checks that [upload_audio] and [test_connection] share, and
    [file.save(path)]. *)
Definition save_upload (files : request_files) (target : path)
    (bad : M (response * session)) (saved : M (response * session))
    : M (response * session) :=
  match files !! "file" with
  | None => bad
  | Some (filename, content) =>
      if String.eqb filename "" then bad
      else write_file target content;; saved
  end.

(** server/server/server.py *)
Module ServerApp.

Section WithEnv.
Context (E : Env).
Context (scaler : StandardScaler).

Definition selected_language (data : json_body) (s : session) : M (response * session) :=
  try_except
    (match data with
     | None => mret ((Error, 400), s)
     | Some d =>
         if bool_decide (d = ∅) then mret ((Error, 400), s)
         else
           match d !! "languageCode" with
           | None => mret ((Error, 400), s)
           | Some code => mret ((Success, 200), set_language code s)
           end
     end)
    is_Exception
    (fun _ => mret ((Error, 500), s)).

Definition get_classification (s : session) : M (response * session) :=
  try_except
    (match selected_language_code s with
     | None => mret ((Error, 400), s)
     | Some lang =>
         if negb (UPLOAD_STATUS s) then mret ((Error, 400), s)
         else
           let file_path := (Server.uploads, "recording.wav") in
           classification_label ← Server.predict_final_classification E scaler file_path lang;
           mret ((Classification classification_label, 200), s)
     end)
    is_Exception
    (fun _ => mret ((Error, 500), s)).

Definition upload_audio (files : request_files) (s : session) : M (response * session) :=
  try_except
    (match selected_language_code s with
     | None => mret ((Error, 400), s)
     | Some _ =>
         save_upload files (Server.uploads, "recording.wav")
           (mret ((Error, 400), s))
           (mret ((Success, 200), set_complete true s))
     end)
    is_Exception
    (fun _ => mret ((Error, 500), s)).

Definition upload_status (s : session) : M (response * session) :=
  mret ((Complete (UPLOAD_STATUS s), 200), s).

Definition cancel_process (s : session) : M (response * session) :=
  try_except
    (ex ← exists_dir Server.processed_folder;
     (if ex : bool then rmtree Server.processed_folder else mret tt);;
     mret ((Success, 200), s))
    is_Exception
    (fun _ => mret ((Error, 500), s)).

Definition test_connection (files : request_files) (s : session) : M (response * session) :=
  try_except
    (save_upload files (Server.uploads, "test_connection.wav")
       (mret ((Error, 400), s))
       (mret ((Success, 200), s)))
    is_Exception
    (fun _ => mret ((Error, 500), s)).

End WithEnv.
End ServerApp.

(** backend/api/server.py *)
Module BackendApp.

(** [sorted(names, key=key, reverse=True)]: by decreasing key; names
    with the same key stay in the order they had. *)
Fixpoint insert_by_key (key : string -> Z) (x : string) (l : list string) : list string :=
  match l with
  | [] => [x]
  | y :: l' => if key y <=? key x then x :: y :: l' else y :: insert_by_key key x l'
  end.

Definition sorted_reverse (key : string -> Z) (names : list string) : list string :=
  foldr (insert_by_key key) [] names.

Section WithEnv.
Context (E : Env).
Context (scaler : StandardScaler).
(** [os.path.getmtime], as the request finds the upload folder *)
Context (getmtime : path -> Z).

Definition reset_upload_status (s : session) : session := set_complete false s.

Definition selected_language (data : json_body) (s : session) : M (response * session) :=
  try_except
    (match data with
     | None => mret ((Error, 400), s)
     | Some d =>
         if bool_decide (d = ∅) then mret ((Error, 400), s)
         else
           match d !! "languageCode" with
           | None => mret ((Error, 400), s)
           | Some code => mret ((Success, 200), reset_upload_status (set_language code s))
           end
     end)
    is_Exception
    (fun _ => mret ((Error, 500), s)).

(** [now] is [datetime.now().strftime('%Y%m%d_%H%M%S')], fourteen digits
    and an underscore: [secure_filename] leaves the name as it is. *)
Definition upload_audio (now : string) (files : request_files) (s : session)
    : M (response * session) :=
  try_except
    (match selected_language_code s with
     | None => mret ((Error, 400), s)
     | Some _ =>
         let filename := "recording_" +:+ now +:+ ".wav" in
         save_upload files (Http.API_UPLOAD_FOLDER, filename)
           (mret ((Error, 400), s))
           (mret ((Success, 200), set_complete true s))
     end)
    is_Exception
    (fun _ => mret ((Error, 500), s)).

Definition upload_status (s : session) : M (response * session) :=
  mret ((Complete (UPLOAD_STATUS s), 200), s).

Definition get_classification (s : session) : M (response * session) :=
  try_except
    (match selected_language_code s with
     | None => mret ((Error, 400), s)
     | Some lang =>
         if negb (UPLOAD_STATUS s) then mret ((Error, 400), s)
         else
           names ← listdir Http.API_UPLOAD_FOLDER;
           let uploaded_files :=
             sorted_reverse (fun x => getmtime (Http.API_UPLOAD_FOLDER, x))
               (List.filter (fun f => endswith f ".wav") names) in
           match uploaded_files with
           | [] => mret ((Error, 404), s)
           | latest :: _ =>
               let latest_file := (Http.API_UPLOAD_FOLDER, latest) in
               classification_label ←
                 Backend.predict_final_classification E scaler latest_file lang;
               mret ((Classification classification_label, 200), reset_upload_status s)
           end
     end)
    is_Exception
    (fun _ => mret ((Error, 500), s)).

Definition cancel_process (s : session) : M (response * session) :=
  try_except
    (Http.clear_processed_audio;;
     mret ((Success, 200), reset_upload_status s))
    is_Exception
    (fun _ => mret ((Error, 500), s)).

Definition test_connection (files : request_files) (s : session) : M (response * session) :=
  try_except
    (save_upload files (Http.API_UPLOAD_FOLDER, "test_connection.wav")
       (mret ((Error, 400), s))
       (mret ((Success, 200), s)))
    is_Exception
    (fun _ => mret ((Error, 500), s)).

End WithEnv.
End BackendApp.

(** A client, as a sequence of requests handled one after the other. *)
Inductive request :=
  | POST_selected_language (data : json_body)
  | POST_upload (now : string) (files : request_files)
  | GET_upload_status
  | GET_get_classification
  | POST_cancel
  | POST_test_connection (files : request_files).

Definition server_handle (E : Env) (scaler : StandardScaler) (r : request) (s : session)
    : M (response * session) :=
  match r with
  | POST_selected_language data => ServerApp.selected_language data s
  | POST_upload _ files => ServerApp.upload_audio files s
  | GET_upload_status => ServerApp.upload_status s
  | GET_get_classification => ServerApp.get_classification E scaler s
  | POST_cancel => ServerApp.cancel_process s
  | POST_test_connection files => ServerApp.test_connection files s
  end.

Definition backend_handle (E : Env) (scaler : StandardScaler) (getmtime : path -> Z)
    (r : request) (s : session) : M (response * session) :=
  match r with
  | POST_selected_language data => BackendApp.selected_language data s
  | POST_upload now files => BackendApp.upload_audio now files s
  | GET_upload_status => BackendApp.upload_status s
  | GET_get_classification => BackendApp.get_classification E scaler getmtime s
  | POST_cancel => BackendApp.cancel_process s
  | POST_test_connection files => BackendApp.test_connection files s
  end.

(** The responses of a run of requests, with the globals at its end. *)
Fixpoint serve (handle : request -> session -> M (response * session))
    (rs : list request) (s : session) : M (list response * session) :=
  match rs with
  | [] => mret ([], s)
  | r :: rs' =>
      '(resp, s1) ← handle r s;
      '(resps, s2) ← serve handle rs' s1;
      mret (resp :: resps, s2)
  end.

(** The globals when the module has been imported. *)
Definition fresh : session := {| selected_language_code := None; UPLOAD_STATUS := false |}.

(** What every handler of server/server/server.py keeps: a set flag, a
    selected language; and what /upload-status answers. *)
Definition server_step_ok (r : request) (s : session) (out : response * session) : Prop :=
  (UPLOAD_STATUS s = true -> UPLOAD_STATUS (snd out) = true) /\
  (is_Some (selected_language_code s) -> is_Some (selected_language_code (snd out))) /\
  (r = GET_upload_status -> fst out = (Complete (UPLOAD_STATUS s), 200)).

(** ** transcription.py, the batch entry point *)

(** [s.lower()], on the letters A to Z; no other character becomes one
    of the characters of [".wav"]. *)
Definition lower_ascii (a : ascii) : ascii :=
  let n := nat_of_ascii a in
  if (65 <=? n)%nat && (n <=? 90)%nat then ascii_of_nat (n + 32) else a.

Definition lower (s : string) : string :=
  string_of_list_ascii (map lower_ascii (list_ascii_of_string s)).

Module Dataset.

(** One row of the list that [transcribe_dataset] returns. *)
Record Transcript := {
  file_name : string;
  transcription : option string;
  label : string
}.

(** The [.wav] files of a folder, as [transcribe_dataset] selects them. *)
Definition audio_files (names : list string) : list string :=
  List.filter (fun f => endswith (lower f) ".wav") names.

Section WithEnv.
Context (E : Env).

Definition transcribe_file (dataset_path : string) (tokenizer_model : option string)
    (audio_file : string) : M Transcript :=
  text ← Transcription.transcribe_audio E (dataset_path, audio_file) tokenizer_model;
  mret {| file_name := audio_file; transcription := text; label := "Unknown" |}.

(** backend/src/transcription.py: a model that did not load is a
    RuntimeError. *)
Definition transcribe_dataset (dataset_path : string) (language_code : string)
    : M (list Transcript) :=
  ex ← exists_dir dataset_path;
  if negb ex then raise FileNotFoundError
  else
    Transcription.load_language_model E language_code;;
    tokenizer_model ← Transcription.get_language_model language_code;
    match tokenizer_model with
    | None => raise OtherException
    | Some _ =>
        names ← listdir dataset_path;
        collect (audio_files names) (transcribe_file dataset_path tokenizer_model)
    end.

(** server/server/transcription.py: no such check. *)
Definition transcribe_dataset_server (dataset_path : string) (language_code : string)
    : M (list Transcript) :=
  ex ← exists_dir dataset_path;
  if negb ex then raise FileNotFoundError
  else
    Transcription.load_language_model E language_code;;
    tokenizer_model ← Transcription.get_language_model language_code;
    names ← listdir dataset_path;
    collect (audio_files names) (transcribe_file dataset_path tokenizer_model).

(** What the ASR model makes of a file, a failure being [None]. *)
Definition heard (name : string) (c : option file_data) : option string :=
  match c with
  | Some c => match wav2vec2 E name c with Ok text => Some text | Raise _ => None end
  | None => None
  end.

End WithEnv.
End Dataset.

(** * Properties *)


(** ** float64 *)

Lemma le_pow2_mono (k k' n d : Z) :
  0 < n -> 0 < d -> k' <= k ->
  Float64.le_pow2 k n d = true -> Float64.le_pow2 k' n d = true.
Proof.
  intros Hn Hd Hk. unfold Float64.le_pow2.
  destruct (0 <=? k) eqn:Hs; destruct (0 <=? k') eqn:Hs'; intros H;
    apply Z.leb_le in H; apply Z.leb_le.
  - apply Z.leb_le in Hs, Hs'.
    assert (2 ^ k' <= 2 ^ k) by (apply Z.pow_le_mono_r; lia). nia.
  - apply Z.leb_le in Hs. apply Z.leb_gt in Hs'.
    assert (1 <= 2 ^ k) by (apply (Z.pow_le_mono_r 2 0 k); lia).
    assert (1 <= 2 ^ (- k')) by (apply (Z.pow_le_mono_r 2 0 (- k')); lia). nia.
  - apply Z.leb_gt in Hs. apply Z.leb_le in Hs'. lia.
  - apply Z.leb_gt in Hs, Hs'.
    assert (2 ^ (- k) <= 2 ^ (- k')) by (apply Z.pow_le_mono_r; lia). nia.
Qed.

Lemma ilog2_lower (n d : Z) :
  0 < n -> 0 < d -> Float64.le_pow2 (Float64.ilog2 n d) n d = true.
Proof.
  intros Hn Hd. unfold Float64.ilog2.
  set (k := Z.log2 n - Z.log2 d).
  destruct (Float64.le_pow2 k n d) eqn:Hk; [done|].
  destruct (Z.log2_spec n Hn) as [Hn1 _]. destruct (Z.log2_spec d Hd) as [_ Hd2].
  pose proof (Z.log2_nonneg n) as Hln. pose proof (Z.log2_nonneg d) as Hld.
  unfold Float64.le_pow2. destruct (0 <=? k - 1) eqn:Hs; apply Z.leb_le.
  - apply Z.leb_le in Hs.
    assert (Hpow : 2 ^ Z.log2 n = 2 ^ (k - 1) * 2 ^ Z.succ (Z.log2 d)).
    { rewrite <- Z.pow_add_r by lia. f_equal. lia. }
    assert (0 < 2 ^ (k - 1)) by (apply Z.pow_pos_nonneg; lia). nia.
  - apply Z.leb_gt in Hs.
    assert (Hpow : 2 ^ Z.succ (Z.log2 d) = 2 ^ Z.log2 n * 2 ^ (- (k - 1))).
    { rewrite <- Z.pow_add_r by lia. f_equal. lia. }
    assert (0 < 2 ^ (- (k - 1))) by (apply Z.pow_pos_nonneg; lia). nia.
Qed.

Lemma rint_frac_bounds (N D : Z) :
  0 < D -> N / D <= Float64.rint_frac N D <= N / D + 1.
Proof.
  intros HD. unfold Float64.rint_frac.
  destruct (2 * (N mod D) ?= D); [destruct (Z.even (N / D))|..]; lia.
Qed.

Lemma rint_frac_pos (N D : Z) : 0 < D -> D <= N -> 0 < Float64.rint_frac N D.
Proof.
  intros HD HN. pose proof (rint_frac_bounds N D HD) as [Hlo _].
  assert (1 <= N / D) by (apply Z.div_le_lower_bound; lia). lia.
Qed.

Lemma scale_pos (m e : Z) : 0 < m -> (0 < Float64.scale m e)%Q.
Proof.
  intros Hm. unfold Float64.scale. destruct (0 <=? e) eqn:He.
  - apply Z.leb_le in He. assert (0 < 2 ^ e) by (apply Z.pow_pos_nonneg; lia).
    unfold Qlt. simpl. nia.
  - unfold Qlt. simpl. lia.
Qed.

Lemma round53_pos (n d : Z) : 0 < n -> 0 < d -> (0 < Float64.round53 n d)%Q.
Proof.
  intros Hn Hd. unfold Float64.round53. rewrite Qred_correct. apply scale_pos.
  pose proof (le_pow2_mono (Float64.ilog2 n d) (Float64.ilog2 n d - 52) n d Hn Hd ltac:(lia)
                (ilog2_lower n d Hn Hd)) as Hle.
  unfold Float64.le_pow2 in Hle.
  destruct (0 <=? Float64.ilog2 n d - 52) eqn:He; apply Z.leb_le in Hle.
  - apply Z.leb_le in He.
    assert (0 < 2 ^ (Float64.ilog2 n d - 52)) by (apply Z.pow_pos_nonneg; lia).
    apply rint_frac_pos; nia.
  - apply rint_frac_pos; lia.
Qed.

Lemma b64_pos (x : Q) : (0 < x)%Q -> (0 < Float64.b64 x)%Q.
Proof.
  intros Hx. unfold Float64.b64. rewrite <- (Qred_correct x) in Hx.
  destruct (Qred x) as [n d]. unfold Qlt in Hx. simpl in *.
  destruct n as [|n|n]; try lia. by apply round53_pos.
Qed.

Lemma b64_zero (x : Q) : (x == 0)%Q -> Float64.b64 x = 0%Q.
Proof.
  intros Hx. unfold Float64.b64. rewrite <- (Qred_correct x) in Hx.
  destruct (Qred x) as [n d]. unfold Qeq in Hx. simpl in *.
  destruct n; try lia. done.
Qed.

Lemma b64_nonneg (x : Q) : (0 <= x)%Q -> (0 <= Float64.b64 x)%Q.
Proof.
  intros Hx. apply Qle_lt_or_eq in Hx as [Hx|Hx].
  - by apply Qlt_le_weak, b64_pos.
  - rewrite b64_zero; [done|by symmetry].
Qed.

Lemma b64_Qeq (x y : Q) : (x == y)%Q -> Float64.b64 x = Float64.b64 y.
Proof. intros H. unfold Float64.b64. by rewrite (Qred_complete x y H). Qed.

Lemma add_nonneg (x y : Q) : (0 <= x)%Q -> (0 <= y)%Q -> (0 <= Float64.add x y)%Q.
Proof.
  intros Hx Hy. apply b64_nonneg.
  replace 0%Q with (0 + 0)%Q by reflexivity. by apply Qplus_le_compat.
Qed.

Lemma add_pos_l (x y : Q) : (0 < x)%Q -> (0 <= y)%Q -> (0 < Float64.add x y)%Q.
Proof.
  intros Hx Hy. apply b64_pos.
  apply Qlt_le_trans with (x + 0)%Q; [by rewrite Qplus_0_r|].
  by apply Qplus_le_compat; [apply Qle_refl|].
Qed.

Lemma add_pos_r (x y : Q) : (0 <= x)%Q -> (0 < y)%Q -> (0 < Float64.add x y)%Q.
Proof.
  intros Hx Hy. apply b64_pos.
  apply Qlt_le_trans with (0 + y)%Q; [by rewrite Qplus_0_l|].
  by apply Qplus_le_compat; [|apply Qle_refl].
Qed.

(** ** numpy's sum *)

Lemma accumulate_nonneg (l : list Q) (a : Q) :
  (0 <= a)%Q -> Forall (fun x => (0 <= x)%Q) l -> (0 <= foldl Float64.add a l)%Q.
Proof.
  intros Ha Hl. revert a Ha. induction Hl as [|x l Hx _ IH]; intros a Ha; simpl; [done|].
  by apply IH, add_nonneg.
Qed.

Lemma accumulate_pos (l : list Q) (a : Q) :
  (0 < a)%Q -> Forall (fun x => (0 <= x)%Q) l -> (0 < foldl Float64.add a l)%Q.
Proof.
  intros Ha Hl. revert a Ha. induction Hl as [|x l Hx _ IH]; intros a Ha; simpl; [done|].
  by apply IH, add_pos_l.
Qed.

Lemma Forall_pos_nonneg (l : list Q) :
  Forall (fun x => (0 < x)%Q) l -> Forall (fun x => (0 <= x)%Q) l.
Proof. intros H. eapply Forall_impl; [exact H|]. intros x. apply Qlt_le_weak. Qed.

Lemma accumulate_pos_list (l : list Q) (a : Q) :
  (0 <= a)%Q -> l <> [] -> Forall (fun x => (0 < x)%Q) l -> (0 < foldl Float64.add a l)%Q.
Proof.
  intros Ha Hne Hl. destruct Hl as [|x l Hx Hl]; [done|]. simpl.
  apply accumulate_pos; [by apply add_pos_r | by apply Forall_pos_nonneg].
Qed.

Section Pairwise.
Context (P : Q -> Prop).
Hypothesis P_add : forall x y, P x -> P y -> P (Float64.add x y).
Hypothesis P_first : forall x, P x -> P (Float64.add 0 x).

Lemma accumulate_P (l : list Q) (a : Q) :
  P a -> Forall P l -> P (foldl Float64.add a l).
Proof.
  intros Ha Hl. revert a Ha. induction Hl as [|x l Hx _ IH]; intros a Ha; simpl; [done|].
  by apply IH, P_add.
Qed.

Lemma add_blocks_P (k : nat) (r l : list Q) :
  length r = 8%nat -> (8 * k <= length l)%nat ->
  Forall P r -> Forall P l ->
  length (Numpy.add_blocks r l k) = 8%nat /\ Forall P (Numpy.add_blocks r l k).
Proof.
  revert r l. induction k as [|k IH]; intros r l Hr Hl HPr HPl; simpl; [done|].
  apply IH.
  - rewrite length_zip_with, length_take. lia.
  - rewrite length_drop. lia.
  - apply (Forall_zip_with_fst _ P P); [done|].
    eapply Forall_impl; [by apply Forall_take|]. intros y Hy x Hx. by apply P_add.
  - by apply Forall_drop.
Qed.

Lemma combine8_P (r : list Q) : length r = 8%nat -> Forall P r -> P (Numpy.combine8 r).
Proof.
  intros Hlen Hr.
  do 8 (destruct r as [|? r]; [done|]). destruct r; [|done].
  repeat match goal with H : Forall P (_ :: _) |- _ => inversion H; clear H; subst end.
  simpl. auto.
Qed.

Lemma block_sum_P (l : list Q) :
  (8 <= length l)%nat -> Forall P l -> P (Numpy.block_sum l).
Proof.
  intros Hlen Hl. unfold Numpy.block_sum.
  set (n := length l) in *.
  assert (Hmod : (n mod 8 < 8)%nat) by (apply Nat.mod_upper_bound; lia).
  assert (Hdiv : (n - n mod 8 = 8 * (n / 8))%nat).
  { pose proof (Nat.div_mod_eq n 8). lia. }
  assert (Hq : (1 <= n / 8)%nat) by (apply Nat.div_le_lower_bound; lia).
  assert (Hfull : ((n - n mod 8) / 8 = n / 8)%nat).
  { rewrite Hdiv, (Nat.mul_comm 8), Nat.div_mul; lia. }
  destruct (add_blocks_P ((n - n mod 8) / 8 - 1) (take 8 l) (drop 8 l)) as [Hr8 HrP].
  - rewrite length_take. lia.
  - rewrite length_drop, Hfull. fold n. lia.
  - by apply Forall_take.
  - by apply Forall_drop.
  - apply accumulate_P; [by apply combine8_P | by apply Forall_drop].
Qed.

Lemma pairwise_sum_S (fuel : nat) (l : list Q) :
  Numpy.pairwise_sum (S fuel) l
  = if (length l <? 8)%nat then foldl Float64.add 0%Q l
    else if (length l <=? 128)%nat then Numpy.block_sum l
    else
      let n2 := (length l / 2)%nat in
      let n2 := (n2 - n2 mod 8)%nat in
      Float64.add (Numpy.pairwise_sum fuel (take n2 l)) (Numpy.pairwise_sum fuel (drop n2 l)).
Proof. reflexivity. Qed.

Lemma pairwise_sum_P (fuel : nat) (l : list Q) :
  (length l <= fuel)%nat -> l <> [] -> Forall P l -> P (Numpy.pairwise_sum fuel l).
Proof.
  revert l. induction fuel as [|fuel IH]; intros l Hfuel Hne Hl.
  - destruct l; [done|simpl in Hfuel; lia].
  - rewrite pairwise_sum_S. destruct (length l <? 8)%nat eqn:H8.
    + destruct Hl as [|x l Hx Hl]; [done|]. simpl.
      apply accumulate_P; [by apply P_first|done].
    + apply Nat.ltb_ge in H8. destruct (length l <=? 128)%nat eqn:H128.
      * by apply block_sum_P.
      * apply Nat.leb_gt in H128. cbv zeta.
        assert (Hhalf : (64 <= length l / 2)%nat) by (apply Nat.div_le_lower_bound; lia).
        assert (Hhalf' : (length l / 2 < length l)%nat) by (apply Nat.div_lt; lia).
        assert (Hmod : ((length l / 2) mod 8 < 8)%nat) by (apply Nat.mod_upper_bound; lia).
        apply P_add; apply IH.
        -- rewrite length_take. lia.
        -- intros Hnil. apply (f_equal length) in Hnil. rewrite length_take in Hnil.
           cbn [length] in Hnil. lia.
        -- by apply Forall_take.
        -- rewrite length_drop. lia.
        -- intros Hnil. apply (f_equal length) in Hnil. rewrite length_drop in Hnil.
           cbn [length] in Hnil. lia.
        -- by apply Forall_drop.
Qed.

Lemma sum_P (l : list Q) : l <> [] -> Forall P l -> P (Numpy.sum l).
Proof. intros Hne Hl. unfold Numpy.sum. by apply P_first, pairwise_sum_P. Qed.

End Pairwise.

Lemma sum_nil : Numpy.sum [] = 0%Q.
Proof. reflexivity. Qed.

Lemma sum_nonneg (l : list Q) : Forall (fun x => (0 <= x)%Q) l -> (0 <= Numpy.sum l)%Q.
Proof.
  intros Hl. destruct l as [|x l]; [by rewrite sum_nil|].
  apply (sum_P (fun x => (0 <= x)%Q)); [apply add_nonneg| |done|done].
  intros y Hy. by apply add_nonneg.
Qed.

Lemma sum_pos (l : list Q) : l <> [] -> Forall (fun x => (0 < x)%Q) l -> (0 < Numpy.sum l)%Q.
Proof.
  intros Hne Hl.
  apply (sum_P (fun x => (0 < x)%Q)); [| |done|done].
  - intros x y Hx Hy. by apply add_pos_l; [|apply Qlt_le_weak].
  - intros y Hy. by apply add_pos_r.
Qed.

(** ** Slices and repetition *)

Lemma length_mul audio n : length (mul audio n) = (Z.to_nat n * length audio)%nat.
Proof.
  unfold mul. induction (Z.to_nat n) as [|k IH]; simpl; [done|].
  rewrite length_app, IH. lia.
Qed.

Lemma len_mul audio n : 0 <= n -> len (mul audio n) = n * len audio.
Proof. intros Hn. unfold len. rewrite length_mul. lia. Qed.

Lemma getslice_prefix audio t :
  0 <= t <= len audio ->
  getslice audio None (Some t) = take (Z.to_nat t) audio.
Proof.
  intros Ht. unfold getslice, py_slice, parse_position, clamp_index; simpl.
  fold (len audio).
  repeat match goal with
  | |- context [?a <? ?b] => destruct (Z.ltb_spec a b); try lia
  | |- context [Z.min ?a ?b] => first [rewrite (Z.min_l a b) by lia | rewrite (Z.min_r a b) by lia]
  end.
  rewrite Z.sub_0_r. reflexivity.
Qed.

Lemma getslice_window audio s e :
  0 <= s -> s <= e -> e <= len audio ->
  getslice audio (Some s) (Some e) = take (Z.to_nat (e - s)) (drop (Z.to_nat s) audio).
Proof.
  intros Hs He Hl. unfold getslice, py_slice, parse_position, clamp_index; simpl.
  fold (len audio).
  repeat match goal with
  | |- context [?a <? ?b] => destruct (Z.ltb_spec a b); try lia
  | |- context [Z.min ?a ?b] => first [rewrite (Z.min_l a b) by lia | rewrite (Z.min_r a b) by lia]
  end.
  reflexivity.
Qed.

Lemma getslice_tail audio r :
  0 < r <= len audio ->
  getslice audio (Some (- r)) None = drop (Z.to_nat (len audio - r)) audio.
Proof.
  intros Hr. unfold getslice, py_slice, parse_position, clamp_index; simpl.
  fold (len audio).
  repeat match goal with
  | |- context [Z.min ?a ?b] => first [rewrite (Z.min_l a b) by lia | rewrite (Z.min_r a b) by lia]
  | |- context [?a <? ?b] => destruct (Z.ltb_spec a b); try lia
  end.
  rewrite Z.abs_neq by lia. rewrite Z.opp_involutive.
  repeat match goal with
  | |- context [Z.min ?a ?b] => first [rewrite (Z.min_l a b) by lia | rewrite (Z.min_r a b) by lia]
  | |- context [?a <? ?b] => destruct (Z.ltb_spec a b); try lia
  end.
  apply take_ge. rewrite length_drop. unfold len in *. lia.
Qed.

(** *** Looping *)

Lemma lookup_concat_replicate {A} (l : list A) (m k : nat) :
  (k < m * length l)%nat ->
  concat (replicate m l) !! k = l !! (k mod length l)%nat.
Proof.
  revert k. induction m as [|m IH]; intros k Hk; simpl in *; [lia|].
  destruct (decide (k < length l)%nat) as [Hlt|Hge].
  - rewrite lookup_app_l by done. by rewrite Nat.mod_small.
  - rewrite lookup_app_r by lia. rewrite IH by lia.
    f_equal.
    assert (Hl : (length l <> 0)%nat) by lia.
    replace k with ((k - length l) + 1 * length l)%nat at 2 by lia.
    by rewrite Nat.Div0.mod_add.
Qed.

(** What the looping of a clip [piece] to [target] milliseconds gives. *)
Lemma loop_length (piece : AudioSegment) (target : Z) :
  0 < len piece -> 0 <= target ->
  len (getslice (mul piece (target / len piece + 1)) None (Some target)) = target.
Proof.
  intros Hp Ht.
  assert (Hq : 0 <= target / len piece) by (apply Z.div_pos; lia).
  assert (Hlen : target <= len (mul piece (target / len piece + 1))).
  { rewrite len_mul by lia.
    pose proof (Z.mod_pos_bound target (len piece) Hp).
    pose proof (Z.div_mod target (len piece)). nia. }
  rewrite getslice_prefix by lia.
  unfold len in *. rewrite length_take. lia.
Qed.

Lemma loop_lookup (piece : AudioSegment) (target : Z) (k : nat) :
  0 < len piece -> (Z.of_nat k < target) ->
  getslice (mul piece (target / len piece + 1)) None (Some target) !! k
  = piece !! (k mod length piece)%nat.
Proof.
  intros Hp Hk.
  assert (Ht : 0 <= target) by lia.
  assert (Hq : 0 <= target / len piece) by (apply Z.div_pos; lia).
  assert (Hlen : target <= len (mul piece (target / len piece + 1))).
  { rewrite len_mul by lia.
    pose proof (Z.mod_pos_bound target (len piece) Hp).
    pose proof (Z.div_mod target (len piece)). nia. }
  rewrite getslice_prefix by lia.
  rewrite lookup_take_lt by lia.
  unfold mul. apply lookup_concat_replicate.
  unfold len in *. rewrite length_mul in Hlen. lia.
Qed.

(** *** Running statements *)

Lemma bind_run {A B} (m : M A) (f : A -> M B) (w : world) :
  (m ≫= f) w = match m w with
               | (Ok a, w') => f a w'
               | (Raise e, w') => (Raise e, w')
               end.
Proof. reflexivity. Qed.

Lemma world_eta (w : world) :
  {| fs := fs w; loaded := loaded w; trace := trace w |} = w.
Proof. by destruct w. Qed.

Lemma alter_as_insert {A} (f : A -> A) (m : gmap string A) (k : string) (x : A) :
  m !! k = Some x -> alter f k m = <[k := f x]> m.
Proof.
  intros Hk. apply map_eq. intros j. destruct (decide (k = j)) as [->|Hne].
  - by rewrite lookup_alter_eq, lookup_insert_eq, Hk.
  - by rewrite lookup_alter_ne, lookup_insert_ne.
Qed.

Lemma write_file_run (p : path) (c : file_data) (w : world) (d : directory) :
  fs w !! fst p = Some d ->
  write_file p c w = (Ok tt, set_fs (insert (fst p) (<[snd p := c]> d)) w).
Proof.
  intros Hd. unfold write_file. rewrite Hd. unfold set_fs.
  by rewrite (alter_as_insert _ _ _ _ Hd).
Qed.

Lemma for_each_export {A} (nm : A -> string) (seg : A -> AudioSegment)
    (folder : string) (xs : list A) (w : world) (d : directory) :
  fs w !! folder = Some d ->
  for_each xs (fun x => Segmentation.export (seg x) (folder, nm x)) w
  = (Ok tt, set_fs (insert folder (exported nm seg d xs)) w).
Proof.
  revert w d. induction xs as [|x xs IH]; intros w d Hd; simpl.
  - unfold mret, M_ret, set_fs. rewrite insert_id by done. by rewrite world_eta.
  - rewrite bind_run. unfold Segmentation.export.
    rewrite (write_file_run _ _ _ d) by done. simpl.
    rewrite (IH _ (<[nm x := Wav (seg x)]> d)) by (simpl; apply lookup_insert_eq).
    unfold set_fs; simpl. by rewrite insert_insert_eq.
Qed.

Lemma exported_lookup_other {A} (nm : A -> string) (seg : A -> AudioSegment) d xs k :
  (forall x, x ∈ xs -> nm x <> k) ->
  exported nm seg d xs !! k = d !! k.
Proof.
  revert d. induction xs as [|x xs IH]; intros d Hk; simpl; [done|].
  rewrite IH by (intros y Hy; apply Hk; by right).
  apply lookup_insert_ne, Hk. by left.
Qed.

Lemma exported_size {A} (nm : A -> string) (seg : A -> AudioSegment) d xs :
  NoDup (nm <$> xs) ->
  (forall x, x ∈ xs -> d !! nm x = None) ->
  size (exported nm seg d xs) = (size d + length xs)%nat.
Proof.
  revert d. induction xs as [|x xs IH]; intros d Hnd Hfresh; simpl; [lia|].
  apply NoDup_cons in Hnd as [Hx Hnd].
  rewrite IH; [| done |].
  - rewrite map_size_insert_None by (apply Hfresh; by left). lia.
  - intros y Hy. rewrite lookup_insert_ne; [apply Hfresh; by right|].
    intros Heq. apply Hx. rewrite Heq. by apply list_elem_of_fmap_2.
Qed.

Lemma exported_Forall {A} (nm : A -> string) (seg : A -> AudioSegment)
    (P : string -> file_data -> Prop) d xs :
  map_Forall P d ->
  (forall x, x ∈ xs -> P (nm x) (Wav (seg x))) ->
  map_Forall P (exported nm seg d xs).
Proof.
  revert d. induction xs as [|x xs IH]; intros d Hd Hxs; simpl; [done|].
  apply IH.
  - apply map_Forall_insert_2; [apply Hxs; by left | done].
  - intros y Hy. apply Hxs. by right.
Qed.

(** *** File names *)

Lemma list_ascii_of_string_app (s1 s2 : string) :
  list_ascii_of_string (s1 +:+ s2) = list_ascii_of_string s1 ++ list_ascii_of_string s2.
Proof. induction s1 as [|c s1 IH]; simpl; [done|]. by rewrite <- IH. Qed.

Lemma append_inj_r (s1 s2 t : string) : s1 +:+ t = s2 +:+ t -> s1 = s2.
Proof.
  intros Heq. apply (f_equal list_ascii_of_string) in Heq.
  rewrite !list_ascii_of_string_app in Heq. apply app_inv_tail in Heq.
  rewrite <- (string_of_list_ascii_of_string s1), <- (string_of_list_ascii_of_string s2).
  by rewrite Heq.
Qed.

Lemma segment_filename_inj (filename : string) :
  Inj (=) (=) (Segmentation.segment_filename filename).
Proof.
  intros k1 k2 Heq. unfold Segmentation.segment_filename in Heq.
  apply String.app_inj, String.app_inj, append_inj_r in Heq.
  by apply (inj pretty) in Heq.
Qed.

(** *** The two helpers of the segmenter *)

Section Segmenter.
Context (E : Env).

Lemma process_short_audio_run audio filename target_ms folder w d :
  0 < len audio ->
  fs w !! folder = Some d ->
  Segmentation.process_short_audio audio filename (len audio) target_ms folder w
  = (Ok tt,
     set_fs (insert folder
       (<[splitext_root filename +:+ ".wav" :=
            Wav (getslice (mul audio (target_ms / len audio + 1)) None (Some target_ms))]> d)) w).
Proof.
  intros Hn Hd. unfold Segmentation.process_short_audio, floordiv.
  destruct (Z.eqb_spec (len audio) 0) as [?|_]; [lia|].
  rewrite bind_run. simpl. unfold Segmentation.export.
  by rewrite (write_file_run _ _ _ d).
Qed.

Lemma process_long_audio_run audio filename segment_ms folder w d :
  0 < segment_ms ->
  fs w !! folder = Some d ->
  Segmentation.process_long_audio audio filename (len audio) segment_ms folder w
  = (Ok tt, set_fs (insert folder (long_folder audio filename segment_ms d)) w).
Proof.
  intros HS Hd. unfold Segmentation.process_long_audio, floordiv, long_folder.
  destruct (Z.eqb_spec segment_ms 0) as [?|_]; [lia|].
  rewrite bind_run. simpl. rewrite bind_run.
  rewrite (for_each_export (fun i => Segmentation.segment_filename filename (i + 1))
             (full_segment audio segment_ms) folder _ w d Hd).
  pose proof (Z.mod_pos_bound (len audio) segment_ms HS) as Hr.
  destruct (Z.ltb_spec 0 (len audio `mod` segment_ms)) as [Hpos|Hzero]; [|done].
  destruct (Z.eqb_spec (len audio `mod` segment_ms) 0) as [?|_]; [lia|].
  rewrite bind_run. simpl. unfold Segmentation.export.
  rewrite (write_file_run _ _ _ _ (lookup_insert_eq _ _ _)).
  unfold set_fs; simpl. by rewrite insert_insert_eq.
Qed.

Lemma len_full_segment audio segment_ms i :
  0 < segment_ms -> 0 <= i < len audio / segment_ms ->
  len (full_segment audio segment_ms i) = segment_ms.
Proof.
  intros HS Hi. unfold full_segment.
  pose proof (Z.mod_pos_bound (len audio) segment_ms HS).
  pose proof (Z.div_mod (len audio) segment_ms).
  rewrite getslice_window by nia.
  unfold len in *. rewrite length_take, length_drop. nia.
Qed.

Lemma len_padded_remainder audio segment_ms :
  0 < segment_ms -> segment_ms <= len audio -> 0 < len audio `mod` segment_ms ->
  len (padded_remainder audio segment_ms) = segment_ms.
Proof.
  intros HS Hn Hr. unfold padded_remainder.
  pose proof (Z.mod_pos_bound (len audio) segment_ms HS).
  set (r := len audio `mod` segment_ms) in *.
  rewrite getslice_tail by lia.
  assert (Hl : len (drop (Z.to_nat (len audio - r)) audio) = r).
  { unfold len in *. rewrite length_drop. lia. }
  rewrite <- Hl at 2. apply loop_length; lia.
Qed.

End Segmenter.

(** *** Decoding *)

Section Decoding.
Context (E : Env).

Lemma clean_folder_run (folder : string) (w : world) :
  Segmentation.clean_folder folder w = (Ok tt, set_fs (insert folder ∅) w).
Proof.
  unfold Segmentation.clean_folder, exists_dir, gets, rmtree, makedirs.
  rewrite bind_run. simpl. rewrite bind_run.
  destruct (fs w !! folder) as [d|] eqn:Hd.
  - rewrite bool_decide_true by eauto. rewrite Hd. simpl.
    rewrite lookup_delete_eq. unfold set_fs; simpl. by rewrite insert_delete_eq.
  - rewrite bool_decide_false by (intros [? ?]; congruence). simpl. by rewrite Hd.
Qed.

Lemma lookup_file_insert_ne (f : filesystem) (d : string) (files : directory) (p : path) :
  fst p <> d -> lookup_file (<[d := files]> f) p = lookup_file f p.
Proof. intros Hne. unfold lookup_file. by rewrite lookup_insert_ne. Qed.

Lemma lookup_file_dir (f : filesystem) (p : path) (c : file_data) :
  lookup_file f p = Some c -> exists d, f !! fst p = Some d /\ d !! snd p = Some c.
Proof.
  unfold lookup_file. destruct (f !! fst p) as [d|]; simpl; [eauto | done].
Qed.

Lemma from_file_run (p : path) (w : world) :
  Segmentation.from_file E p w
  = (match lookup_file (fs w) p with
     | None => Raise FileNotFoundError
     | Some (Wav audio) => Ok audio
     | Some (Bytes raw) => decode E raw
     end, log_event (FromFile p) w).
Proof.
  unfold Segmentation.from_file. rewrite bind_run. simpl. rewrite bind_run. simpl.
  destruct (lookup_file (fs w) p) as [[a|raw]|]; reflexivity.
Qed.

Lemma from_file_decodes (p : path) (w : world) (c : file_data) (audio : AudioSegment) :
  lookup_file (fs w) p = Some c -> decodes_directly E c audio ->
  Segmentation.from_file E p w = (Ok audio, log_event (FromFile p) w).
Proof.
  intros Hc Hd. rewrite from_file_run, Hc. destruct c; simpl in Hd; by rewrite Hd.
Qed.

Lemma run_ffmpeg_run (src dst : path) (w : world) :
  Segmentation.run_ffmpeg E src dst w
  = match lookup_file (fs w) src with
    | None => (Raise CalledProcessError, log_event (Ffmpeg src dst) w)
    | Some c =>
        match ffmpeg E c with
        | Ok out => write_file dst out (log_event (Ffmpeg src dst) w)
        | Raise e => (Raise e, log_event (Ffmpeg src dst) w)
        end
    end.
Proof.
  unfold Segmentation.run_ffmpeg. rewrite bind_run. simpl. rewrite bind_run. simpl.
  destruct (lookup_file (fs w) src) as [c|]; [|reflexivity].
  rewrite bind_run. unfold lift. by destruct (ffmpeg E c).
Qed.

Lemma reencode_audio_run (file_path : path) (w : world) :
  Segmentation.reencode_audio E file_path w
  = match Segmentation.run_ffmpeg E file_path (reencoded_path file_path) w with
    | (Ok _, w') => (Ok (Some (reencoded_path file_path)), w')
    | (Raise e, w') =>
        if is_CalledProcessError e then (Ok None, w') else (Raise e, w')
    end.
Proof.
  unfold Segmentation.reencode_audio, try_except. rewrite bind_run.
  fold (reencoded_path file_path).
  by destruct (Segmentation.run_ffmpeg E file_path (reencoded_path file_path) w) as [[[]|e] w'].
Qed.

Lemma load_audio_decodes (p : path) (w : world) (c : file_data) (audio : AudioSegment) :
  lookup_file (fs w) p = Some c -> decodes E c audio ->
  exists w', Segmentation.load_audio E p w = (Ok (Some audio), w') /\
             forall d, d <> fst p -> fs w' !! d = fs w !! d.
Proof.
  intros Hc [Hd|(raw & out & -> & Hraw & Hff & Hout)]; unfold Segmentation.load_audio, try_except.
  - rewrite bind_run, (from_file_decodes _ _ _ _ Hc Hd). simpl. eauto.
  - rewrite bind_run, from_file_run, Hc, Hraw. simpl.
    destruct (lookup_file_dir _ _ _ Hc) as (dd & Hdd & _).
    rewrite bind_run, reencode_audio_run, run_ffmpeg_run.
    change (fs (log_event (FromFile p) w)) with (fs w). rewrite Hc, Hff.
    rewrite (write_file_run _ _ _ dd) by done.
    rewrite bind_run.
    erewrite from_file_decodes; [| | exact Hout].
    + simpl. eexists; split; [reflexivity|].
      intros d Hne. simpl. by rewrite lookup_insert_ne.
    + unfold lookup_file. simpl. rewrite lookup_insert_eq. simpl. by rewrite lookup_insert_eq.
Qed.

End Decoding.

(** *** The folder written for one recording *)

Section Folder.
Context (E : Env).

Lemma long_folder_size audio filename segment_ms :
  0 < segment_ms ->
  Z.of_nat (size (long_folder audio filename segment_ms ∅))
  = len audio / segment_ms + (if 0 <? len audio `mod` segment_ms then 1 else 0).
Proof.
  intros HS. unfold long_folder.
  assert (Hq : 0 <= len audio / segment_ms) by (apply Z.div_pos; unfold len; lia).
  set (nm := fun i => Segmentation.segment_filename filename (i + 1)).
  assert (Hsize : size (exported nm (full_segment audio segment_ms) ∅
                          (seqZ 0 (len audio / segment_ms)))
                  = Z.to_nat (len audio / segment_ms)).
  { rewrite exported_size, map_size_empty, length_seqZ; [lia| |by intros].
    apply (NoDup_fmap_2_strong nm); [|apply NoDup_seqZ].
    intros i j _ _ Heq. apply segment_filename_inj in Heq. lia. }
  destruct (Z.ltb_spec 0 (len audio `mod` segment_ms)); [|lia].
  rewrite map_size_insert_None; [lia|].
  rewrite exported_lookup_other; [done|].
  intros i Hi Heq. apply elem_of_seqZ in Hi.
  apply segment_filename_inj in Heq. lia.
Qed.

Lemma long_folder_holds audio filename segment_ms :
  0 < segment_ms -> segment_ms <= len audio ->
  map_Forall (fun _ => holds_ms segment_ms) (long_folder audio filename segment_ms ∅).
Proof.
  intros HS Hn. unfold long_folder.
  assert (Hfull : map_Forall (fun _ => holds_ms segment_ms)
            (exported (fun i => Segmentation.segment_filename filename (i + 1))
               (full_segment audio segment_ms) ∅ (seqZ 0 (len audio / segment_ms)))).
  { apply exported_Forall; [apply map_Forall_empty|].
    intros i Hi. apply elem_of_seqZ in Hi.
    eexists; split; [reflexivity|]. apply len_full_segment; lia. }
  destruct (Z.ltb_spec 0 (len audio `mod` segment_ms)); [|done].
  apply map_Forall_insert_2; [|done].
  eexists; split; [reflexivity|]. by apply len_padded_remainder.
Qed.

Lemma split_audio_run audio file_path folder w :
  0 < len audio ->
  fs w !! folder = Some ∅ ->
  exists dir,
    Segmentation.split_audio audio file_path folder w
      = (Ok tt, set_fs (insert folder dir) w) /\
    map_Forall (fun _ => holds_ms 20000) dir /\
    (len audio < 20000 -> size dir = 1%nat) /\
    (20000 <= len audio -> len audio `mod` 20000 = 0 ->
       Z.of_nat (size dir) = len audio / 20000) /\
    (20000 <= len audio -> len audio `mod` 20000 <> 0 ->
       Z.of_nat (size dir) = len audio / 20000 + 1).
Proof.
  intros Hn Hd. unfold Segmentation.split_audio.
  change (20 * 1000) with 20000.
  destruct (Z.ltb_spec (len audio) 20000) as [Hshort|Hlong].
  - rewrite (process_short_audio_run _ _ _ _ _ ∅) by done.
    eexists; split; [reflexivity|]. split; [|split; [|split]]; try lia.
    + apply map_Forall_insert_2; [|apply map_Forall_empty].
      eexists; split; [reflexivity|]. apply loop_length; lia.
    + intros _. by rewrite map_size_insert_None, map_size_empty.
  - rewrite (process_long_audio_run _ _ _ _ _ ∅) by done.
    eexists; split; [reflexivity|].
    pose proof (long_folder_size audio (basename file_path) 20000 ltac:(lia)) as Hsize.
    pose proof (Z.mod_pos_bound (len audio) 20000 ltac:(lia)).
    split; [|split; [|split]]; try lia.
    + apply long_folder_holds; lia.
    + intros _ Hr. rewrite Hr in Hsize. simpl in Hsize. lia.
    + intros _ Hr. destruct (Z.ltb_spec 0 (len audio `mod` 20000)); lia.
Qed.

End Folder.

(** *** From the upload to the folder *)

Section Recording.
Context (E : Env).

Lemma isfile_run (p : path) (w : world) :
  isfile p w = (Ok (bool_decide (is_Some (lookup_file (fs w) p))), w).
Proof. reflexivity. Qed.

(** Once the upload has been decoded the folder is empty and the audio is
    split. *)
Lemma process_single_audio_file_decoded file_path folder w c audio :
  fst file_path <> folder ->
  lookup_file (fs w) file_path = Some c ->
  decodes E c audio ->
  exists w2,
    Segmentation.process_single_audio_file E file_path folder w
      = Segmentation.split_audio audio file_path folder w2 /\
    fs w2 !! folder = Some ∅.
Proof.
  intros Hne Hc Hdec. unfold Segmentation.process_single_audio_file.
  rewrite bind_run, isfile_run, bool_decide_true by eauto. simpl.
  rewrite bind_run, clean_folder_run, bind_run.
  destruct (load_audio_decodes E file_path (set_fs (insert folder ∅) w) c audio)
    as (w2 & Hrun & Hfs); [|done|].
  { simpl. by rewrite lookup_file_insert_ne. }
  rewrite Hrun. exists w2; split; [done|].
  rewrite Hfs by done. simpl. apply lookup_insert_eq.
Qed.

Lemma process_single_audio_file_server_decoded file_path folder w c audio :
  fst file_path <> folder ->
  lookup_file (fs w) file_path = Some c ->
  decodes E c audio ->
  exists w2,
    Segmentation.process_single_audio_file_server E file_path folder w
      = Segmentation.split_audio audio file_path folder w2 /\
    fs w2 !! folder = Some ∅.
Proof.
  intros Hne Hc Hdec. unfold Segmentation.process_single_audio_file_server.
  rewrite bind_run, clean_folder_run, bind_run, isfile_run.
  assert (Hc' : lookup_file (fs (set_fs (insert folder ∅) w)) file_path = Some c).
  { simpl. by rewrite lookup_file_insert_ne. }
  rewrite bool_decide_true by eauto. simpl. rewrite bind_run.
  destruct (load_audio_decodes E file_path (set_fs (insert folder ∅) w) c audio)
    as (w2 & Hrun & Hfs); [done..|].
  rewrite Hrun. exists w2; split; [done|].
  rewrite Hfs by done. simpl. apply lookup_insert_eq.
Qed.

Lemma split_audio_long audio file_path folder w :
  20000 <= len audio ->
  fs w !! folder = Some ∅ ->
  Segmentation.split_audio audio file_path folder w
  = (Ok tt, set_fs (insert folder (long_folder audio (basename file_path) 20000 ∅)) w).
Proof.
  intros Hn Hd. unfold Segmentation.split_audio. change (20 * 1000) with 20000.
  destruct (Z.ltb_spec (len audio) 20000); [lia|].
  by rewrite (process_long_audio_run _ _ _ _ _ ∅).
Qed.

Lemma padded_remainder_lookup audio segment_ms (k : nat) :
  0 < segment_ms -> segment_ms <= len audio -> 0 < len audio `mod` segment_ms ->
  Z.of_nat k < segment_ms ->
  padded_remainder audio segment_ms !! k
  = audio !! Z.to_nat (len audio - len audio `mod` segment_ms
                       + Z.of_nat k `mod` (len audio `mod` segment_ms)).
Proof.
  intros HS Hn Hr Hk. unfold padded_remainder.
  pose proof (Z.mod_pos_bound (len audio) segment_ms HS).
  set (r := len audio `mod` segment_ms) in *.
  rewrite getslice_tail by lia.
  set (piece := drop (Z.to_nat (len audio - r)) audio).
  assert (Hl : len piece = r).
  { unfold piece, len in *. rewrite length_drop. lia. }
  replace (segment_ms / r + 1) with (segment_ms / len piece + 1) by (by rewrite Hl).
  rewrite loop_lookup by lia.
  assert (Hlen : length piece = Z.to_nat r) by (unfold len in Hl; lia).
  rewrite Hlen. subst piece. rewrite lookup_drop. f_equal.
  pose proof (Z.mod_pos_bound (Z.of_nat k) r Hr).
  rewrite Z2Nat.inj_add by lia. f_equal.
  rewrite <- (Nat2Z.id (k mod Z.to_nat r)). f_equal.
  rewrite Nat2Z.inj_mod. f_equal. lia.
Qed.

End Recording.
(** ** Segmentation: a recording of no audio *)

(** A recording of 0 ms decodes, it is shorter than 20 s, and the
    segmenter raises ZeroDivisionError on [target_ms // duration_ms],
    leaving the folder empty. *)
Lemma empty_recording_yields_no_segment :
  decodes Sample.env (Wav []) [] /\
  len [] < 20000 /\
  exists w',
    Segmentation.process_single_audio_file Sample.env Sample.recording
      Backend.PROCESSED_DIR (Sample.upload (Wav [])) = (Raise ZeroDivisionError, w') /\
    fs w' !! Backend.PROCESSED_DIR = Some ∅.
Proof.
  split; [by left|]. split; [done|].
  eexists. split; vm_compute; reflexivity.
Qed.

(** ** Segmentation frame by frame *)

Lemma len_duration (audio : Frames.AudioSegment) :
  Frames.len audio
  = duration_ms (Frames.frame_rate audio) (Z.of_nat (length (Frames.data audio))).
Proof. reflexivity. Qed.

Lemma parse_position_index (audio : Frames.AudioSegment) (val : Z) :
  Frames.parse_position audio val
  = frame_index (Frames.frame_rate audio)
      (if val <? 0 then Frames.len audio - Z.abs val else val).
Proof. reflexivity. Qed.

Lemma frame_index_0 (rate : Z) : frame_index rate 0 = 0.
Proof.
  unfold frame_index, Float64.mul.
  rewrite (b64_zero (_ * _)); [done|]. by rewrite (b64_zero (inject_Z 0)), Qmult_0_l.
Qed.

Lemma concat_replicate_singleton {A} (k : nat) (x : A) :
  concat (replicate k [x]) = replicate k x.
Proof. induction k as [|k IH]; simpl; [done|]. by rewrite IH. Qed.

Lemma length_frames_mul (audio : Frames.AudioSegment) (k : Z) :
  0 <= k ->
  Z.of_nat (length (Frames.data (Frames.mul audio k)))
  = k * Z.of_nat (length (Frames.data audio)).
Proof.
  intros Hk. unfold Frames.mul. simpl.
  rewrite <- (Z2Nat.id k) at 2 by done.
  induction (Z.to_nat k) as [|n IH]; simpl; [done|].
  rewrite length_app. lia.
Qed.

Lemma py_slice_window {A} (l : list A) (s e : Z) :
  0 <= s <= e -> e <= Z.of_nat (length l) ->
  py_slice l s e = take (Z.to_nat (e - s)) (drop (Z.to_nat s) l)
  /\ Z.of_nat (length (py_slice l s e)) = e - s.
Proof.
  intros Hs He. unfold py_slice, clamp_index.
  destruct (Z.ltb_spec s 0), (Z.ltb_spec e 0); try lia.
  rewrite !Z.min_l by lia. split; [done|].
  rewrite length_take, length_drop. lia.
Qed.

Lemma py_slice_all {A} (l : list A) (e : Z) :
  Z.of_nat (length l) <= e -> py_slice l 0 e = l.
Proof.
  intros He. unfold py_slice, clamp_index.
  destruct (Z.ltb_spec 0 0), (Z.ltb_spec e 0); try lia.
  rewrite (Z.min_l 0), (Z.min_r e) by lia. simpl. rewrite Z.sub_0_r, Nat2Z.id.
  by apply take_ge.
Qed.

(** [audio[s:t]] when the frames asked for are all there. *)
Lemma getslice_whole_frames (audio : Frames.AudioSegment) (start stop : option Z)
    (s e : Z) :
  Frames.parse_position audio (Z.min (default 0 start) (Frames.len audio)) = s ->
  Frames.parse_position audio
    (Z.min (default (Frames.len audio) stop) (Frames.len audio)) = e ->
  0 <= s <= e -> e <= Z.of_nat (length (Frames.data audio)) ->
  Frames.getslice audio start stop
  = Ok {| Frames.frame_rate := Frames.frame_rate audio;
          Frames.data := take (Z.to_nat (e - s)) (drop (Z.to_nat s) (Frames.data audio)) |}.
Proof.
  intros Hs He Hse Hn. unfold Frames.getslice. cbv zeta. rewrite Hs, He.
  destruct (py_slice_window (Frames.data audio) s e Hse Hn) as [Heq Hlen].
  rewrite Hlen, Z.sub_diag, Heq. done.
Qed.

(** [audio[:t]] when [t] lies a few frames after the last one: the
    missing frames are handed out as silence. *)
Lemma getslice_silence (audio : Frames.AudioSegment) (stop : option Z) (e : Z) :
  0 <= Frames.len audio ->
  Frames.parse_position audio
    (Z.min (default (Frames.len audio) stop) (Frames.len audio)) = e ->
  0 < Z.of_nat (length (Frames.data audio)) < e ->
  Qle_bool (inject_Z (e - Z.of_nat (length (Frames.data audio))))
    (Frames.frame_count audio (Some 2)) = true ->
  Frames.getslice audio None stop
  = Ok {| Frames.frame_rate := Frames.frame_rate audio;
          Frames.data :=
            Frames.data audio
            ++ replicate (Z.to_nat (e - Z.of_nat (length (Frames.data audio)))) 0 |}.
Proof.
  intros HL He Hn Hfew. unfold Frames.getslice. cbv zeta. simpl (default 0 None).
  rewrite (Z.min_l 0) by done. rewrite He.
  rewrite parse_position_index. simpl (0 <? 0). cbv iota. rewrite frame_index_0.
  rewrite py_slice_all by lia. rewrite Z.sub_0_r.
  destruct (Z.eqb_spec (e - Z.of_nat (length (Frames.data audio))) 0) as [|_]; [lia|].
  rewrite Hfew. simpl negb. cbv iota.
  destruct (Frames.data audio) as [|x l] eqn:Hd; [simpl in Hn; lia|].
  simpl (map _ _). by rewrite concat_replicate_singleton.
Qed.

Lemma floordiv_run (a b : Z) : b <> 0 -> Frames.floordiv a b = Ok (a / b).
Proof. intros Hb. unfold Frames.floordiv. by destruct (Z.eqb_spec b 0). Qed.

(** ** Segmentation: the length of the padded segments *)

(** C1 at a clip of 110 frames at 16 kHz (6.875 ms, which [len] reports
    as 7 ms): the segmenter writes one file, as the claim says, but the
    file does not hold 20 s.  The clip is repeated [20000 // 7 + 1 = 2858]
    times, which makes 314380 frames or 19648.75 ms, fewer than the 20 s
    the slice [[:20000]] asks for; the slice returns them all with 4
    silent frames: 19649 ms. *)
Theorem short_clip_is_not_padded_to_twenty_seconds (frames : list Z) (filename : string) :
  length frames = 110%nat ->
  Frames.len {| Frames.frame_rate := 16000; Frames.data := frames |} = 7 /\
  exists segment,
    Frames.split_audio {| Frames.frame_rate := 16000; Frames.data := frames |} filename
    = Ok [(splitext_root filename +:+ ".wav", segment)] /\
    Frames.data segment = concat (replicate 2858 frames) ++ replicate 4 0 /\
    Frames.len segment = 19649 /\
    Frames.len segment <> 20 * 1000.
Proof.
  intros Hn. set (audio := {| Frames.frame_rate := 16000; Frames.data := frames |}).
  assert (Hlen : Frames.len audio = 7).
  { rewrite len_duration. unfold audio. cbn [Frames.frame_rate Frames.data].
    rewrite Hn. by vm_compute. }
  split; [done|].
  unfold Frames.split_audio. cbv zeta. rewrite Hlen.
  change (7 <? 20 * 1000) with true. cbv iota.
  unfold Frames.process_short_audio. rewrite floordiv_run by done.
  change (20 * 1000 / 7 + 1) with 2858.
  set (big := Frames.mul audio 2858).
  assert (Hbig : Z.of_nat (length (Frames.data big)) = 314380).
  { unfold big. rewrite length_frames_mul by done. unfold audio.
    cbn [Frames.frame_rate Frames.data]. by rewrite Hn. }
  assert (Hrate : Frames.frame_rate big = 16000) by done.
  assert (HL : Frames.len big = 19649).
  { rewrite len_duration, Hbig, Hrate. by vm_compute. }
  rewrite (getslice_silence big (Some (20 * 1000)) 314384).
  - eexists. split; [reflexivity|]. cbn [Frames.data]. rewrite Hbig.
    split; [done|].
    assert (Hseg : Frames.len
              {| Frames.frame_rate := Frames.frame_rate big;
                 Frames.data := Frames.data big ++ replicate (Z.to_nat (314384 - 314380)) 0 |}
            = 19649).
    { rewrite len_duration. cbn [Frames.frame_rate Frames.data].
      rewrite length_app, length_replicate, Nat2Z.inj_add, Hbig, Hrate. by vm_compute. }
    by rewrite Hseg.
  - by rewrite HL.
  - rewrite HL, parse_position_index, Hrate. by vm_compute.
  - rewrite Hbig. lia.
  - rewrite Hbig. unfold Frames.frame_count. rewrite Hrate. by vm_compute.
Qed.

Lemma short_clip_is_not_padded_to_twenty_seconds_witness :
  Frames.len {| Frames.frame_rate := 16000; Frames.data := replicate 110 1 |} = 7 /\
  exists segment,
    Frames.split_audio {| Frames.frame_rate := 16000; Frames.data := replicate 110 1 |}
      "recording.wav"
    = Ok [(splitext_root "recording.wav" +:+ ".wav", segment)] /\
    Frames.data segment = concat (replicate 2858 (replicate 110 1)) ++ replicate 4 0 /\
    Frames.len segment = 19649 /\
    Frames.len segment <> 20 * 1000.
Proof.
  apply (short_clip_is_not_padded_to_twenty_seconds (replicate 110 1) "recording.wav").
  reflexivity.
Defined.

(** A recording of no frame at all decodes to 0 ms, and [20000 // 0]
    raises. *)
Example empty_clip_raises (rate : Z) (filename : string) :
  Frames.split_audio {| Frames.frame_rate := rate; Frames.data := [] |} filename
  = Raise ZeroDivisionError.
Proof.
  unfold Frames.split_audio. cbv zeta.
  assert (Hlen : Frames.len {| Frames.frame_rate := rate; Frames.data := [] |} = 0).
  { rewrite len_duration. unfold duration_ms, Float64.div.
    rewrite (b64_zero (_ / _)); [by vm_compute|]. by vm_compute. }
  by rewrite Hlen.
Qed.

(** ** Segmentation: the padded last segment *)

(** C9 at a recording of 882309 frames at 44.1 kHz (20.007 s): the first
    file holds the first 20 s, and the second is built from a slice of
    the end alone, which is then repeated, as the claim says; but the 7 ms
    asked for come out as 308 frames (6.98 ms), [20000 // 7 + 1 = 2858]
    copies of them make 19960.6 ms, and the slice [[:20000]] returns
    them with 16 silent frames: 19961 ms, not 20 s. *)
Theorem last_segment_falls_short_of_twenty_seconds (frames : list Z) (filename : string) :
  Z.of_nat (length frames) = 882309 ->
  Frames.len {| Frames.frame_rate := 44100; Frames.data := frames |} = 20007 /\
  exists first last_segment,
    Frames.split_audio {| Frames.frame_rate := 44100; Frames.data := frames |} filename
    = Ok [(Segmentation.segment_filename filename 1, first);
          (Segmentation.segment_filename filename 2, last_segment)] /\
    Frames.data first = take (Z.to_nat 882000) frames /\
    Frames.len first = 20 * 1000 /\
    Frames.data last_segment
    = concat (replicate 2858 (take 308 (drop (Z.to_nat 882000) frames))) ++ replicate 16 0 /\
    Frames.len last_segment = 19961 /\
    Frames.len last_segment <> 20 * 1000.
Proof.
  intros Hn. set (audio := {| Frames.frame_rate := 44100; Frames.data := frames |}).
  assert (Hlen : Frames.len audio = 20007).
  { rewrite len_duration. unfold audio. cbn [Frames.frame_rate Frames.data].
    rewrite Hn. by vm_compute. }
  split; [done|].
  unfold Frames.split_audio. cbv zeta. rewrite Hlen.
  change (20007 <? 20 * 1000) with false. cbv iota.
  unfold Frames.process_long_audio. rewrite floordiv_run by done.
  change (20007 / (20 * 1000)) with 1. change (seqZ 0 1) with [0].
  cbn [Frames.export_segments].
  rewrite (getslice_whole_frames audio (Some (0 * (20 * 1000)))
             (Some (0 * (20 * 1000) + 20 * 1000)) 0 882000);
    [| by rewrite Hlen, parse_position_index; vm_compute
     | by rewrite Hlen, parse_position_index; vm_compute
     | lia
     | unfold audio; cbn [Frames.data]; lia ].
  cbv zeta. change (20007 `mod` (20 * 1000)) with 7.
  change (0 <? 7) with true. cbv iota.
  change (Z.opp 7) with (Zneg 7).
  rewrite (getslice_whole_frames audio (Some (Zneg 7)) None 882000 882308);
    [| by rewrite Hlen, parse_position_index, Hlen; vm_compute
     | by rewrite Hlen, parse_position_index; vm_compute
     | lia
     | unfold audio; cbn [Frames.data]; lia ].
  rewrite floordiv_run by done. change (20 * 1000 / 7 + 1) with 2858.
  change (Z.to_nat (882308 - 882000)) with 308%nat.
  change (Z.to_nat (882000 - 0)) with (Z.to_nat 882000).
  cbn [Frames.frame_rate Frames.data audio].
  set (tail := {| Frames.frame_rate := 44100;
                  Frames.data := take 308 (drop (Z.to_nat 882000) frames) |}).
  set (big := Frames.mul tail 2858).
  assert (Hbig : Z.of_nat (length (Frames.data big)) = 880264).
  { unfold big. rewrite length_frames_mul by done. unfold tail.
    cbn [Frames.frame_rate Frames.data]. rewrite length_take, length_drop. lia. }
  assert (Hrate : Frames.frame_rate big = 44100) by done.
  assert (HL : Frames.len big = 19961).
  { rewrite len_duration, Hbig, Hrate. by vm_compute. }
  rewrite (getslice_silence big (Some (20 * 1000)) 880280).
  - eexists _, _. split; [reflexivity|]. cbn [Frames.data Frames.frame_rate].
    rewrite Hbig.
    assert (Hseg : Frames.len
              {| Frames.frame_rate := Frames.frame_rate big;
                 Frames.data :=
                   Frames.data big ++ replicate (Z.to_nat (880280 - 880264)) 0 |}
            = 19961).
    { rewrite len_duration. cbn [Frames.frame_rate Frames.data].
      rewrite length_app, length_replicate, Nat2Z.inj_add, Hbig, Hrate. by vm_compute. }
    rewrite Hseg. split; [done|]. split; [|done].
    rewrite len_duration. cbn [Frames.frame_rate Frames.data].
    rewrite length_take, length_drop.
    replace (Z.of_nat (Z.to_nat 882000 `min` (length frames - Z.to_nat 0))) with 882000 by lia.
    by vm_compute.
  - by rewrite HL.
  - rewrite HL, parse_position_index, Hrate. by vm_compute.
  - rewrite Hbig. lia.
  - rewrite Hbig. unfold Frames.frame_count. rewrite Hrate. by vm_compute.
Qed.

Lemma last_segment_falls_short_of_twenty_seconds_witness :
  Frames.len {| Frames.frame_rate := 44100;
                Frames.data := replicate (Z.to_nat 882309) 1 |} = 20007 /\
  exists first last_segment,
    Frames.split_audio
      {| Frames.frame_rate := 44100; Frames.data := replicate (Z.to_nat 882309) 1 |}
      "recording.wav"
    = Ok [(Segmentation.segment_filename "recording.wav" 1, first);
          (Segmentation.segment_filename "recording.wav" 2, last_segment)] /\
    Frames.data first = take (Z.to_nat 882000) (replicate (Z.to_nat 882309) 1) /\
    Frames.len first = 20 * 1000 /\
    Frames.data last_segment
    = concat (replicate 2858
                (take 308 (drop (Z.to_nat 882000) (replicate (Z.to_nat 882309) 1))))
      ++ replicate 16 0 /\
    Frames.len last_segment = 19961 /\
    Frames.len last_segment <> 20 * 1000.
Proof.
  apply (last_segment_falls_short_of_twenty_seconds
           (replicate (Z.to_nat 882309) 1) "recording.wav").
  rewrite length_replicate. lia.
Defined.

(** ** The aggregator *)

Lemma positive_confidences_spec (df : list ScoredSegment) :
  map Probability (filter (fun r => Prediction r = 1) df) = positive_confidences df.
Proof.
  induction df as [|s df IH]; simpl; [done|].
  rewrite filter_cons. destruct (decide (Prediction s = 1)) as [Heq|Hne].
  - rewrite Heq. simpl. by rewrite IH.
  - by destruct (Z.eqb_spec (Prediction s) 1).
Qed.

Lemma negative_confidences_spec (df : list ScoredSegment) :
  map (fun p => Float64.sub 1 p) (map Probability (filter (fun r => Prediction r = 0) df))
  = negative_confidences df.
Proof.
  induction df as [|s df IH]; simpl; [done|].
  rewrite filter_cons. destruct (decide (Prediction s = 0)) as [Heq|Hne].
  - rewrite Heq. simpl. by rewrite IH.
  - by destruct (Z.eqb_spec (Prediction s) 0).
Qed.

Lemma Qgt_bool_iff (a b : Q) : Qgt_bool a b = true <-> (b < a)%Q.
Proof.
  unfold Qgt_bool. rewrite negb_true_iff, <- not_true_iff_false, Qle_bool_iff.
  split; [apply Qnot_le_lt | apply Qlt_not_le].
Qed.

(** The vote as a comparison of the two float64 sums. *)
Lemma vote_decision (df : list ScoredSegment) :
  Prediction.weighted_majority_voting df
  = if Qgt_bool (float_positive_sum df) (float_negative_sum df) then 1 else 0.
Proof.
  unfold Prediction.weighted_majority_voting, float_positive_sum, float_negative_sum.
  by rewrite positive_confidences_spec, negative_confidences_spec.
Qed.

(** C2, as the code has it: the aggregator answers 1 exactly when the
    float64 sum of the probabilities of the segments that voted 1 is
    strictly greater than the float64 sum of the differences [1.0 - p] of
    the segments that voted 0, and 0 otherwise, in particular when the two
    float64 sums are equal. *)
Theorem weighted_vote_is_strict (df : list ScoredSegment) :
  (Prediction.weighted_majority_voting df = 1
   <-> (float_negative_sum df < float_positive_sum df)%Q) /\
  (Prediction.weighted_majority_voting df = 0
   <-> (float_positive_sum df <= float_negative_sum df)%Q) /\
  ((float_positive_sum df == float_negative_sum df)%Q ->
     label_of (Prediction.weighted_majority_voting df) = "HC").
Proof.
  rewrite vote_decision.
  destruct (Qgt_bool _ _) eqn:Hgt.
  - apply Qgt_bool_iff in Hgt as Hlt.
    split; [done|]. split.
    + split; [done|]. intros Hle. by apply Qlt_not_le in Hlt.
    + intros Heq. rewrite Heq in Hlt. by apply Qlt_irrefl in Hlt.
  - assert (Hle : (float_positive_sum df <= float_negative_sum df)%Q).
    { apply Qnot_lt_le. intros Hlt. apply Qgt_bool_iff in Hlt. congruence. }
    split; [|done]. split; [done|]. intros Hlt. by apply Qlt_not_le in Hlt.
Qed.

(** C2 as the specification words it, with the sums of the probabilities
    themselves, fails: the doubles 0.3, 0.2 and 0.1 add up to more than
    the double [1.0 - 0.4], yet [(0.3 + 0.2) + 0.1] rounds to that very
    double, the comparison is not strict, and the vote is 0. *)
Lemma rounded_sums_can_tie :
  (negative_sum three_against_one < positive_sum three_against_one)%Q /\
  float_positive_sum three_against_one = float_negative_sum three_against_one /\
  Prediction.weighted_majority_voting three_against_one = 0 /\
  ~ (Prediction.weighted_majority_voting three_against_one = 1
     <-> (negative_sum three_against_one < positive_sum three_against_one)%Q).
Proof.
  assert (Hlt : (negative_sum three_against_one < positive_sum three_against_one)%Q)
    by by vm_compute.
  split; [exact Hlt|]. split; [by vm_compute|]. split; [by vm_compute|].
  intros [_ H]. specialize (H Hlt). revert H. by vm_compute.
Qed.

(** X31: the order of the rows matters.  The four rows of
    [three_against_one] the other way round, three segments that voted 1
    with 0.1, 0.2 and 0.3 before one that voted 0 with 0.4, get the
    verdict 1, as [(0.1 + 0.2) + 0.3] is a double above [1.0 - 0.4];
    in the first order the verdict is 0. *)
Theorem vote_depends_on_row_order :
  Prediction.weighted_majority_voting
    [ {| file_name := "a_segment1.wav"; Prediction := 1; Probability := f64 0.1 |};
      {| file_name := "a_segment2.wav"; Prediction := 1; Probability := f64 0.2 |};
      {| file_name := "a_segment3.wav"; Prediction := 1; Probability := f64 0.3 |};
      {| file_name := "a_segment4.wav"; Prediction := 0; Probability := f64 0.4 |} ] = 1 /\
  Prediction.weighted_majority_voting
    [ {| file_name := "a_segment3.wav"; Prediction := 1; Probability := f64 0.3 |};
      {| file_name := "a_segment2.wav"; Prediction := 1; Probability := f64 0.2 |};
      {| file_name := "a_segment1.wav"; Prediction := 1; Probability := f64 0.1 |};
      {| file_name := "a_segment4.wav"; Prediction := 0; Probability := f64 0.4 |} ] = 0.
Proof. split; by vm_compute. Qed.

(** The two examples of the specification. *)
Example vote_confident_minority :
  Prediction.weighted_majority_voting
    [ {| file_name := "a_segment1.wav"; Prediction := 1; Probability := f64 0.9 |};
      {| file_name := "a_segment2.wav"; Prediction := 0; Probability := f64 0.6 |};
      {| file_name := "a_segment3.wav"; Prediction := 0; Probability := f64 0.6 |} ] = 1.
Proof. by vm_compute. Qed.

Example vote_tie :
  Prediction.weighted_majority_voting
    [ {| file_name := "a_segment1.wav"; Prediction := 1; Probability := 0.5 |};
      {| file_name := "a_segment2.wav"; Prediction := 0; Probability := 0.5 |} ] = 0.
Proof. by vm_compute. Qed.

(** C10: on no segment at all the aggregator returns a value: both sums
    are 0, the strict comparison fails and the answer is 0, the label HC. *)
Theorem empty_vote_is_negative :
  Numpy.sum (map Probability (filter (fun r => Prediction r = 1) [])) = 0%Q /\
  Numpy.sum (map (fun p => Float64.sub 1 p)
               (map Probability (filter (fun r => Prediction r = 0) []))) = 0%Q /\
  Qgt_bool 0 0 = false /\
  Prediction.weighted_majority_voting [] = 0 /\
  label_of (Prediction.weighted_majority_voting []) = "HC".
Proof. repeat split. Qed.

(** ** The threshold of the orchestrator *)

Lemma bind_Ok {A B} (m : M A) (f : A -> M B) (w : world) (b : B) (w' : world) :
  (m ≫= f) w = (Ok b, w') ->
  exists a w1, m w = (Ok a, w1) /\ f a w1 = (Ok b, w').
Proof.
  rewrite bind_run. destruct (m w) as [[a|e] w1]; [eauto | discriminate].
Qed.

Lemma collect_Forall {A B} (P : B -> Prop) (body : A -> M B) :
  (forall x w r w', body x w = (Ok r, w') -> P r) ->
  forall xs w rs w', collect xs body w = (Ok rs, w') -> Forall P rs.
Proof.
  intros Hbody xs. induction xs as [|x xs IH]; intros w rs w' Hrun; simpl in Hrun.
  - inversion Hrun. constructor.
  - apply bind_Ok in Hrun as (r & w1 & Hr & Hrun).
    apply bind_Ok in Hrun as (rs' & w2 & Hrs & Hrun).
    inversion Hrun; subst. constructor; eauto.
Qed.

Lemma thresholded_label (name : string) (p : Q) :
  thresholded {| file_name := name;
                 Prediction := if Qle_bool threshold p then 1 else 0;
                 Probability := p |}.
Proof.
  unfold thresholded, threshold. simpl.
  destruct (Qle_bool 0.28 p) eqn:Hle.
  - apply Qle_bool_iff in Hle. repeat split; try done.
    intros Hlt. by apply Qlt_not_le in Hlt.
  - assert (Hlt : (p < 0.28)%Q).
    { apply Qnot_le_lt. intros H. apply Qle_bool_iff in H. congruence. }
    repeat split; try done.
    + intros Hle'. by apply Qlt_not_le in Hlt.
    + intros Heq. rewrite Heq in Hlt. by apply Qlt_irrefl in Hlt.
Qed.

Lemma backend_score_segment_thresholded E scaler lang tok p w r w' :
  Backend.score_segment E scaler lang tok p w = (Ok r, w') -> thresholded r.
Proof.
  unfold Backend.score_segment. intros H.
  apply bind_Ok in H as (a & w1 & _ & H).
  apply bind_Ok in H as (t & w2 & _ & H).
  apply bind_Ok in H as (l & w3 & _ & H).
  apply bind_Ok in H as ([preds probs] & w4 & _ & H).
  apply bind_Ok in H as (prob & w5 & _ & H).
  inversion H; subst. apply thresholded_label.
Qed.

Lemma server_score_segment_thresholded E scaler lang tok p w r w' :
  Server.score_segment E scaler lang tok p w = (Ok r, w') -> thresholded r.
Proof.
  unfold Server.score_segment. intros H.
  apply bind_Ok in H as (a & w1 & _ & H).
  apply bind_Ok in H as (t & w2 & _ & H).
  apply bind_Ok in H as (l & w3 & _ & H).
  apply bind_Ok in H as ([preds probs] & w4 & _ & H).
  apply bind_Ok in H as (prob & w5 & _ & H).
  inversion H; subst. apply thresholded_label.
Qed.

Lemma backend_score_segment_spec E scaler lang tok p w r w' :
  Backend.score_segment E scaler lang tok p w = (Ok r, w')
  <-> labelled_score E scaler (backend_features E lang tok) p w r w'.
Proof.
  unfold labelled_score, Backend.score_segment, backend_features. split.
  - intros H.
    apply bind_Ok in H as (a & w1 & Ha & H).
    apply bind_Ok in H as (t & w2 & Ht & H).
    apply bind_Ok in H as (l & w3 & Hl & H).
    apply bind_Ok in H as ([preds probs] & w4 & Hp & H).
    destruct probs as [|prob probs]; [discriminate|].
    inversion H; subst.
    exists (concat_axis1 (DataFrame_of_row a) l), w3, preds, prob, probs.
    split; [|done]. rewrite !bind_run, Ha. rewrite !bind_run, Ht. by rewrite !bind_run, Hl.
  - intros (X & w1 & preds & prob & probs & HX & Hp & ->).
    apply bind_Ok in HX as (a & wa & Ha & HX).
    apply bind_Ok in HX as (t & wt & Ht & HX).
    apply bind_Ok in HX as (l & wl & Hl & HX).
    inversion HX; subst.
    rewrite !bind_run, Ha. rewrite !bind_run, Ht. rewrite !bind_run, Hl.
    by rewrite !bind_run, Hp.
Qed.

Lemma server_score_segment_spec E scaler lang tok p w r w' :
  Server.score_segment E scaler lang tok p w = (Ok r, w')
  <-> labelled_score E scaler (server_features E lang tok) p w r w'.
Proof.
  unfold labelled_score, Server.score_segment, server_features. split.
  - intros H.
    apply bind_Ok in H as (a & w1 & Ha & H).
    apply bind_Ok in H as (t & w2 & Ht & H).
    apply bind_Ok in H as (l & w3 & Hl & H).
    apply bind_Ok in H as ([preds probs] & w4 & Hp & H).
    destruct probs as [|prob probs]; [discriminate|].
    inversion H; subst.
    exists (concat_axis1 (DataFrame_of_row a) (DataFrame_of_row l)), w3, preds, prob, probs.
    split; [|done]. rewrite !bind_run, Ha. rewrite !bind_run, Ht. by rewrite !bind_run, Hl.
  - intros (X & w1 & preds & prob & probs & HX & Hp & ->).
    apply bind_Ok in HX as (a & wa & Ha & HX).
    apply bind_Ok in HX as (t & wt & Ht & HX).
    apply bind_Ok in HX as (l & wl & Hl & HX).
    inversion HX; subst.
    rewrite !bind_run, Ha. rewrite !bind_run, Ht. rewrite !bind_run, Hl.
    by rewrite !bind_run, Hp.
Qed.

(** The rows that a loop returns, one per item, each from the run of the
    body on its item. *)
Lemma collect_runs {A B} (body : A -> M B) (xs : list A) (w : world) (rs : list B)
    (w' : world) :
  collect xs body w = (Ok rs, w') ->
  Forall2 (fun x r => exists w0 w1, body x w0 = (Ok r, w1)) xs rs.
Proof.
  revert w rs. induction xs as [|x xs IH]; intros w rs Hrun; simpl in Hrun.
  - inversion Hrun. constructor.
  - apply bind_Ok in Hrun as (r & w1 & Hr & Hrun).
    apply bind_Ok in Hrun as (rs' & w2 & Hrs & Hrun).
    inversion Hrun; subst. constructor; eauto.
Qed.

(** C3: in either orchestrator the loop body returns a row for a segment
    exactly when the features of the segment were put together and
    [predict] returned for them, and the row then holds the first
    probability that [predict] returned together with the label 1 if
    this probability is at least 0.28 and the label 0 if it is below;
    nothing happens between the return of [predict] and the row.  So
    every row of the loop is such a row of its segment, in the order of
    the segments, and carries the label 1 exactly when its probability is
    at least 0.28 (a probability equal to 0.28 is labelled 1).  The
    threshold is the constant [threshold], which depends on no input. *)
Theorem labels_follow_threshold (E : Env) (scaler : StandardScaler)
    (lang : string) (tokenizer_model : option string) :
  threshold = 0.28%Q /\
  (forall p w r w',
     Backend.score_segment E scaler lang tokenizer_model p w = (Ok r, w')
     <-> labelled_score E scaler (backend_features E lang tokenizer_model) p w r w') /\
  (forall p w r w',
     Server.score_segment E scaler lang tokenizer_model p w = (Ok r, w')
     <-> labelled_score E scaler (server_features E lang tokenizer_model) p w r w') /\
  (forall files w rows w',
     collect files (Backend.score_segment E scaler lang tokenizer_model) w = (Ok rows, w') ->
     Forall2 (fun p r => exists w0 w1,
                labelled_score E scaler (backend_features E lang tokenizer_model) p w0 r w1)
       files rows /\
     Forall thresholded rows) /\
  (forall files w rows w',
     collect files (Server.score_segment E scaler lang tokenizer_model) w = (Ok rows, w') ->
     Forall2 (fun p r => exists w0 w1,
                labelled_score E scaler (server_features E lang tokenizer_model) p w0 r w1)
       files rows /\
     Forall thresholded rows).
Proof.
  split; [done|].
  split; [intros; apply backend_score_segment_spec|].
  split; [intros; apply server_score_segment_spec|].
  split; intros files w rows w' Hrun.
  - split.
    + eapply Forall2_impl; [exact (collect_runs _ _ _ _ _ Hrun)|].
      intros p r (w0 & w1 & H). exists w0, w1. by apply backend_score_segment_spec.
    + revert Hrun. apply collect_Forall. apply backend_score_segment_thresholded.
  - split.
    + eapply Forall2_impl; [exact (collect_runs _ _ _ _ _ Hrun)|].
      intros p r (w0 & w1 & H). exists w0, w1. by apply server_score_segment_spec.
    + revert Hrun. apply collect_Forall. apply server_score_segment_thresholded.
Qed.

Lemma labels_follow_threshold_witness :
  Forall2 (fun p r => exists w0 w1,
             labelled_score Sample.env (Some [])
               (backend_features Sample.env "en" (Some "facebook/wav2vec2-large-960h"))
               p w0 r w1)
    [(Backend.PROCESSED_DIR, "recording.wav")]
    [ {| file_name := "recording.wav"; Prediction := 1; Probability := 28 # 100 |} ] /\
  Forall thresholded
    [ {| file_name := "recording.wav"; Prediction := 1; Probability := 28 # 100 |} ].
Proof.
  apply (proj1 (proj2 (proj2 (proj2 (labels_follow_threshold Sample.env (Some []) "en"
                  (Some "facebook/wav2vec2-large-960h")))))
           [(Backend.PROCESSED_DIR, "recording.wav")]
           (Sample.one_segment [28; 30])
           _
           (log_event
              (ScalerTransform [("zcr", [Num (28 # 100)]); ("t_word", [Num 3]); ("t_sent", [Num 1])])
              (Sample.one_segment [28; 30]))).
  vm_compute. reflexivity.
Defined.

(** ** The cleanup of the orchestrator *)

Lemma delete_directory_run (d : string) (w : world) :
  Backend.delete_directory d w = (Ok tt, set_fs (delete d) w).
Proof.
  unfold Backend.delete_directory, exists_dir, gets, try_except, rmtree.
  rewrite bind_run. simpl.
  destruct (fs w !! d) as [files|] eqn:Hd.
  - rewrite bool_decide_true by eauto. by rewrite Hd.
  - rewrite bool_decide_false by (intros [? ?]; congruence).
    unfold mret, M_ret, set_fs. rewrite delete_id by done. by rewrite world_eta.
Qed.

Lemma server_delete_directory_run (d : string) (w : world) :
  Server.delete_directory d w = (Ok tt, set_fs (delete d) w).
Proof. apply delete_directory_run. Qed.

Lemma lookup_file_None_alter (f : filesystem) (p : path) :
  lookup_file f p = None -> alter (delete (snd p)) (fst p) f = f.
Proof.
  unfold lookup_file. intros Hp. apply map_eq. intros d.
  destruct (decide (fst p = d)) as [<-|Hne]; [|by rewrite lookup_alter_ne].
  rewrite lookup_alter_eq. destruct (f !! fst p) as [files|]; simpl in *; [|done].
  by rewrite delete_id.
Qed.

Lemma safe_delete_file_run (p : path) (w : world) :
  Backend.safe_delete_file p w = (Ok tt, set_fs (alter (delete (snd p)) (fst p)) w).
Proof.
  unfold Backend.safe_delete_file, exists_file, try_except, os_remove.
  rewrite bind_run, isfile_run.
  destruct (lookup_file (fs w) p) as [c|] eqn:Hp.
  - rewrite bool_decide_true by eauto. by rewrite Hp.
  - rewrite bool_decide_false by (intros [? ?]; congruence).
    unfold mret, M_ret, set_fs. rewrite lookup_file_None_alter by done. by rewrite world_eta.
Qed.

Lemma lookup_file_alter_delete (f : filesystem) (p : path) :
  lookup_file (alter (delete (snd p)) (fst p) f) p = None.
Proof.
  unfold lookup_file. rewrite lookup_alter_eq.
  destruct (f !! fst p) as [files|]; simpl; [apply lookup_delete_eq | done].
Qed.

Lemma lookup_file_alter_delete_ne (f : filesystem) (p q : path) :
  lookup_file f q = None ->
  lookup_file (alter (delete (snd p)) (fst p) f) q = None.
Proof.
  unfold lookup_file. intros Hq.
  destruct (decide (fst p = fst q)) as [Heq|Hne]; [|by rewrite lookup_alter_ne].
  rewrite <- Heq in *. rewrite lookup_alter_eq.
  destruct (f !! fst p) as [files|]; simpl in *; [|done].
  by apply lookup_delete_None; right.
Qed.

(** What holds of the files once the backend's [finally] block has run. *)
Lemma backend_finalize_run (w : world) :
  exists w',
    Backend.finalize w = (Ok tt, w') /\
    fs w' !! Backend.PROCESSED_DIR = None /\
    lookup_file (fs w') (Backend.UPLOAD_DIR, "recording.wav") = None /\
    lookup_file (fs w') (Backend.UPLOAD_DIR, "test_connection.wav") = None /\
    trace w' = trace w.
Proof.
  unfold Backend.finalize.
  rewrite bind_run, delete_directory_run, bind_run, safe_delete_file_run, safe_delete_file_run.
  eexists; split; [reflexivity|]. simpl. split; [|split; [|split]].
  - rewrite !lookup_alter_ne by discriminate. apply lookup_delete_eq.
  - apply (lookup_file_alter_delete_ne _ (_, _) (_, _)),
          (lookup_file_alter_delete _ (_, _)).
  - apply (lookup_file_alter_delete _ (_, _)).
  - done.
Qed.

Lemma os_remove_keeps_other (p : path) (d : string) (w : world) :
  d <> fst p -> fs (snd (os_remove p w)) !! d = fs w !! d.
Proof.
  intros Hne. unfold os_remove.
  destruct (lookup_file (fs w) p); simpl; [by rewrite lookup_alter_ne | done].
Qed.

Lemma server_finalize_run (w : world) :
  fs (snd (Server.finalize w)) !! Server.processed_folder = None.
Proof.
  unfold Server.finalize.
  rewrite bind_run, server_delete_directory_run, bind_run.
  set (w1 := set_fs (delete Server.processed_folder) w).
  assert (H1 : fs w1 !! Server.processed_folder = None) by apply lookup_delete_eq.
  pose proof (os_remove_keeps_other (Server.uploads, "recording.wav")
                Server.processed_folder w1 ltac:(discriminate)) as H2.
  destruct (os_remove (Server.uploads, "recording.wav") w1) as [[[]|e] w2]; simpl in *;
    [|congruence].
  pose proof (os_remove_keeps_other (Server.uploads, "test_connection.wav")
                Server.processed_folder w2 ltac:(discriminate)) as H3.
  congruence.
Qed.

Lemma try_finally_run {A} (body : M A) (fin : M unit) (w : world) :
  snd (try_finally body fin w) = snd (fin (snd (body w))).
Proof.
  unfold try_finally. destruct (body w) as [r w1]. simpl.
  by destruct (fin w1) as [[[]|e] w2].
Qed.


(** ** The scaler that was never fit *)

Lemma predict_unfitted (E : Env) (X : DataFrame) (w : world) :
  Prediction.predict E None X w = (Raise NotFittedError, log_event (ScalerTransform X) w).
Proof. reflexivity. Qed.

Lemma load_model_and_scaler_run (saved : StandardScaler) (w : world) :
  is_Some (lookup_file (fs w) ApiPrediction.MODEL_PATH) ->
  is_Some (lookup_file (fs w) ApiPrediction.SCALER_PATH) ->
  ApiPrediction.load_model_and_scaler saved w = (Ok saved, w).
Proof.
  intros Hm Hs. unfold ApiPrediction.load_model_and_scaler, exists_file.
  rewrite bind_run, isfile_run, bool_decide_true by done. simpl.
  by rewrite bind_run, isfile_run, bool_decide_true.
Qed.

(** With a scaler that was never fit no segment gets a row, so the
    pipeline of either orchestrator returns no label. *)
Lemma backend_score_segment_unfitted E lang tok p w r w' :
  Backend.score_segment E None lang tok p w <> (Ok r, w').
Proof.
  intros H. apply backend_score_segment_spec in H as (X & w1 & ? & ? & ? & _ & Hp & _).
  by rewrite predict_unfitted in Hp.
Qed.

Lemma server_score_segment_unfitted E lang tok p w r w' :
  Server.score_segment E None lang tok p w <> (Ok r, w').
Proof.
  intros H. apply server_score_segment_spec in H as (X & w1 & ? & ? & ? & _ & Hp & _).
  by rewrite predict_unfitted in Hp.
Qed.

Lemma backend_pipeline_unfitted E p lang w label :
  fst (Backend.pipeline E None p lang w) <> Ok label.
Proof.
  destruct (Backend.pipeline E None p lang w) as [r w'] eqn:Hrun. simpl. intros ->.
  unfold Backend.pipeline in Hrun.
  apply bind_Ok in Hrun as ([] & w1 & _ & Hrun).
  apply bind_Ok in Hrun as (names & w2 & _ & Hrun).
  destruct (wav_files Backend.PROCESSED_DIR names) as [|q qs]; [discriminate|].
  apply bind_Ok in Hrun as ([] & w3 & _ & Hrun).
  apply bind_Ok in Hrun as (tok & w4 & _ & Hrun).
  apply bind_Ok in Hrun as (rows & w5 & Hrows & _).
  simpl in Hrows. apply bind_Ok in Hrows as (r & w6 & Hr & _).
  by apply backend_score_segment_unfitted in Hr.
Qed.

Lemma server_pipeline_unfitted E p lang w label :
  fst (Server.pipeline E None p lang w) <> Ok label.
Proof.
  destruct (Server.pipeline E None p lang w) as [r w'] eqn:Hrun. simpl. intros ->.
  unfold Server.pipeline in Hrun.
  apply bind_Ok in Hrun as ([] & w0 & _ & Hrun).
  apply bind_Ok in Hrun as ([] & w1 & _ & Hrun).
  apply bind_Ok in Hrun as (names & w2 & _ & Hrun).
  destruct (wav_files Server.processed_folder names) as [|q qs]; [discriminate|].
  apply bind_Ok in Hrun as ([] & w3 & _ & Hrun).
  apply bind_Ok in Hrun as (tok & w4 & _ & Hrun).
  apply bind_Ok in Hrun as (rows & w5 & Hrows & _).
  simpl in Hrows. apply bind_Ok in Hrows as (r & w6 & Hr & _).
  by apply server_score_segment_unfitted in Hr.
Qed.

(** What a request that found no label can return: the error string,
    unless an exception is on its way out. *)
Lemma request_without_label (pipeline : M string) (fin : M unit) (w : world) :
  (forall label, fst (pipeline w) <> Ok label) ->
  (exists w', try_finally (try_except pipeline is_Exception (fun _ => mret ERROR_LABEL)) fin w
              = (Ok ERROR_LABEL, w')) \/
  (exists e w', try_finally (try_except pipeline is_Exception (fun _ => mret ERROR_LABEL)) fin w
                = (Raise e, w') /\
                (is_Exception e = false \/ exists w1, fin w1 = (Raise e, w'))).
Proof.
  intros Hno. unfold try_finally, try_except.
  destruct (pipeline w) as [[label|e] w1] eqn:Hrun; [by destruct (Hno label)|].
  destruct (is_Exception e) eqn:He.
  - unfold mret, M_ret. destruct (fin w1) as [[[]|e'] w2] eqn:Hfin; [left; eauto|].
    right. exists e', w2. split; [done|]. right. eauto.
  - destruct (fin w1) as [[[]|e'] w2] eqn:Hfin; right.
    + exists e, w2. split; [done|]. by left.
    + exists e', w2. split; [done|]. right. eauto.
Qed.

(** C4, as amended: with a scaler that was never fit, [predict] of the
    segment pipeline raises NotFittedError and fits nothing, so that
    neither orchestrator returns a label: the backend's returns the error
    string unless an exception that is not an Exception escapes, and the
    only string that the server's can return is the error string.
    [predict_final_classification] of backend/api/prediction.py instead
    catches the error, fits the scaler on the features of the very
    recording it is classifying and returns the label computed from
    them. *)
Theorem unfitted_scaler_two_paths (E : Env) :
  (forall X w,
     Prediction.predict E None X w
     = (Raise NotFittedError, log_event (ScalerTransform X) w)) /\
  (forall audio_file_path lang w,
     fst (Backend.predict_final_classification E None audio_file_path lang w)
     = Ok ERROR_LABEL \/
     exists e,
       fst (Backend.predict_final_classification E None audio_file_path lang w) = Raise e /\
       is_Exception e = false) /\
  (forall audio_file_path lang w label,
     fst (Server.predict_final_classification E None audio_file_path lang w) = Ok label ->
     label = ERROR_LABEL) /\
  (forall audio_path language_code w X w1 params Y proba m,
     is_Some (lookup_file (fs w) ApiPrediction.MODEL_PATH) ->
     is_Some (lookup_file (fs w) ApiPrediction.SCALER_PATH) ->
     ApiPrediction.prepare_features E audio_path language_code w = (Ok X, w1) ->
     scaler_fit E X = Ok params ->
     scaler_apply E params X = Ok Y ->
     model_predict_proba E (Prediction.with_columns (map fst X) Y) = Ok proba ->
     ApiPrediction.mean (map snd proba) = Ok m ->
     ApiPrediction.predict_final_classification E None audio_path language_code w
     = (Ok (if ApiPrediction.np_round m =? 1
            then "Alzheimer's Detected" else "Healthy Control"),
        log_event (ScalerFitTransform X) (log_event (ScalerTransform X) w1))).
Proof.
  split; [intros; apply predict_unfitted|]. split; [|split].
  - intros p lang w. unfold Backend.predict_final_classification.
    destruct (request_without_label (Backend.pipeline E None p lang)
                Backend.finalize w (backend_pipeline_unfitted E p lang w))
      as [(w' & ->)|(e & w' & -> & [He|(w1 & Hfin)])]; [by left | right; eauto |].
    destruct (backend_finalize_run w1) as (w2 & Hok & _). by rewrite Hok in Hfin.
  - intros p lang w label. unfold Server.predict_final_classification.
    destruct (request_without_label (Server.pipeline E None p lang)
                Server.finalize w (server_pipeline_unfitted E p lang w))
      as [(w' & ->)|(e & w' & -> & _)]; simpl; [by intros [= <-] | done].
  - intros audio_path language_code w X w1 params Y proba m
      Hm Hs Hprep Hfit Happly Hproba Hmean.
    unfold ApiPrediction.predict_final_classification, try_except.
    rewrite bind_run, load_model_and_scaler_run by done.
    rewrite bind_run, Hprep, bind_run.
    unfold Prediction.scaler_transform at 1. rewrite bind_run. simpl.
    unfold Prediction.scaler_fit_transform. rewrite !bind_run. simpl.
    unfold lift. rewrite Hfit. simpl. rewrite Happly. simpl.
    rewrite !bind_run, Hproba. simpl. rewrite bind_run, Hmean. reflexivity.
Qed.

Lemma unfitted_scaler_two_paths_witness :
  (fst (Backend.predict_final_classification Sample.env None Sample.recording "en"
          (Sample.upload (Wav [90; 90; 90])))
   = Ok ERROR_LABEL \/
   exists e,
     fst (Backend.predict_final_classification Sample.env None Sample.recording "en"
            (Sample.upload (Wav [90; 90; 90]))) = Raise e /\
     is_Exception e = false) /\
  ApiPrediction.predict_final_classification Sample.env None Sample.recording "en"
    (Sample.deployed (Wav [90]))
  = (Ok (if ApiPrediction.np_round (Float64.div (Numpy.sum [90 # 100]) (inject_Z 1)) =? 1
         then "Alzheimer's Detected" else "Healthy Control"),
     log_event
       (ScalerFitTransform [("zcr", [Num (90 # 100)]); ("t_word", [Num 3]); ("t_sent", [Num 1])])
       (log_event
          (ScalerTransform [("zcr", [Num (90 # 100)]); ("t_word", [Num 3]); ("t_sent", [Num 1])])
          (Sample.deployed (Wav [90])))).
Proof.
  split.
  - apply (proj1 (proj2 (unfitted_scaler_two_paths Sample.env))).
  - apply (proj2 (proj2 (proj2 (unfitted_scaler_two_paths Sample.env))) Sample.recording "en"
             (Sample.deployed (Wav [90]))
             [("zcr", [Num (90 # 100)]); ("t_word", [Num 3]); ("t_sent", [Num 1])]
             (Sample.deployed (Wav [90]))
             [(0, 1)%Q; (0, 1)%Q; (0, 1)%Q]
             [[Num (90 # 100)]; [Num 3]; [Num 1]]
             [((1 - (90 # 100))%Q, 90 # 100)]).
    + vm_compute. eauto.
    + vm_compute. eauto.
    + vm_compute. reflexivity.
    + vm_compute. reflexivity.
    + vm_compute. reflexivity.
    + vm_compute. reflexivity.
    + vm_compute. reflexivity.
Defined.

(** C4 as stated fails: on a deployment whose saved scaler was never fit,
    backend/api/prediction.py returns a label, after fitting the scaler on
    the features of the recording being classified. *)
Lemma unfitted_scaler_is_fit_on_inference_data :
  exists X w',
    ApiPrediction.predict_final_classification Sample.env None Sample.recording "en"
      (Sample.deployed (Wav [90])) = (Ok "Alzheimer's Detected", w') /\
    trace w' = [ScalerTransform X; ScalerFitTransform X].
Proof. eexists _, _. split; vm_compute; reflexivity. Qed.

(** X30: whatever the pipeline did (a label, the error outcome after an
    exception of any stage, or an exception that is not an Exception and
    escapes), the [finally] block has run when
    [predict_final_classification] is left: the processed folder does not
    exist any more, and in the backend version neither do the two fixed
    upload paths. *)
Theorem cleanup_runs_on_every_exit (E : Env) (scaler : StandardScaler)
    (audio_file_path : path) (lang : string) (w : world) :
  (let w' := snd (Backend.predict_final_classification E scaler audio_file_path lang w) in
   fs w' !! Backend.PROCESSED_DIR = None /\
   lookup_file (fs w') (Backend.UPLOAD_DIR, "recording.wav") = None /\
   lookup_file (fs w') (Backend.UPLOAD_DIR, "test_connection.wav") = None) /\
  (let w' := snd (Server.predict_final_classification E scaler audio_file_path lang w) in
   fs w' !! Server.processed_folder = None).
Proof.
  split.
  - unfold Backend.predict_final_classification. rewrite try_finally_run.
    destruct (backend_finalize_run
                (snd (try_except (Backend.pipeline E scaler audio_file_path lang)
                        is_Exception (fun _ => mret ERROR_LABEL) w)))
      as (w' & -> & H1 & H2 & H3 & _).
    done.
  - unfold Server.predict_final_classification. rewrite try_finally_run.
    apply server_finalize_run.
Qed.

(** The three ways out of [predict_final_classification]: a label, the
    error outcome, and an exception that [except Exception] does not
    catch.  The folder is gone in each. *)
Example three_exits :
  (exists w', Backend.predict_final_classification Sample.env (Some []) Sample.recording "en"
                (Sample.upload (Wav [90; 90; 90])) = (Ok "AD", w') /\
              fs w' !! Backend.PROCESSED_DIR = None) /\
  (exists w', Backend.predict_final_classification Sample.env None Sample.recording "en"
                (Sample.upload (Wav [90; 90; 90])) = (Ok ERROR_LABEL, w') /\
              fs w' !! Backend.PROCESSED_DIR = None) /\
  (exists w', Backend.predict_final_classification Sample.interrupted (Some [])
                Sample.recording "en"
                (Sample.upload (Wav [90; 90; 90])) = (Raise KeyboardInterrupt, w') /\
              fs w' !! Backend.PROCESSED_DIR = None).
Proof. repeat split; eexists; split; vm_compute; reflexivity. Qed.

(** A cancellation: the /cancel handlers do not go through the
    [finally] block.  The server's handler removes the
    processed folder and leaves the upload; the backend's handler empties
    and re-creates its own folder, which is not the one the pipeline
    writes to, and leaves the upload as well. *)
Lemma cancel_skips_the_cleanup :
  (exists w',
     Http.cancel_process_server Sample.in_flight_server = (Ok ("success", 200), w') /\
     fs w' !! Server.processed_folder = None /\
     lookup_file (fs w') (Server.uploads, "recording.wav") = Some (Wav [5; 5])) /\
  (exists w',
     Http.cancel_process_backend Sample.in_flight_backend = (Ok ("success", 200), w') /\
     fs w' !! Http.API_PROCESSED_FOLDER = Some ∅ /\
     fs w' !! Backend.PROCESSED_DIR = Some {[ "recording_segment1.wav" := Wav [5] ]} /\
     lookup_file (fs w') (Http.API_UPLOAD_FOLDER, "recording_20240101_120000.wav")
     = Some (Wav [5; 5])).
Proof. split; eexists; repeat split; vm_compute; reflexivity. Qed.

(** ** An upload that cannot be decoded *)

Section Undecodable.
Context (E : Env).

Lemma load_audio_undecodable (p : path) (w : world) (raw : string) :
  lookup_file (fs w) p = Some (Bytes raw) ->
  decode E raw = Raise CouldntDecodeError ->
  retry_fails E (Bytes raw) ->
  exists w',
    Segmentation.load_audio E p w = (Ok None, w') /\
    (forall d, d <> fst p -> fs w' !! d = fs w !! d) /\
    trace w' = trace w ++ FromFile p :: Ffmpeg p (reencoded_path p) ::
                 match ffmpeg E (Bytes raw) with
                 | Ok _ => [FromFile (reencoded_path p)]
                 | Raise _ => []
                 end.
Proof.
  intros Hc Hraw Hretry. unfold Segmentation.load_audio, try_except.
  rewrite bind_run, from_file_run, Hc, Hraw. simpl.
  rewrite bind_run, reencode_audio_run, run_ffmpeg_run.
  change (fs (log_event (FromFile p) w)) with (fs w). rewrite Hc.
  destruct Hretry as [Hff|(raw' & Hff & Hraw')]; rewrite Hff.
  - simpl. eexists; split; [reflexivity|]. split; [done|].
    simpl. by rewrite <- app_assoc.
  - destruct (lookup_file_dir _ _ _ Hc) as (dd & Hdd & _).
    rewrite (write_file_run _ _ _ dd) by done.
    rewrite bind_run, from_file_run.
    assert (Hlook : lookup_file
              (fs (set_fs (insert (fst (reencoded_path p))
                             (<[snd (reencoded_path p) := Bytes raw']> dd))
                     (log_event (Ffmpeg p (reencoded_path p)) (log_event (FromFile p) w))))
              (reencoded_path p) = Some (Bytes raw')).
    { unfold lookup_file. simpl. rewrite lookup_insert_eq. simpl. by rewrite lookup_insert_eq. }
    rewrite Hlook, Hraw'. simpl.
    eexists; split; [reflexivity|]. split.
    + intros d Hne. simpl. by rewrite lookup_insert_ne.
    + simpl. by rewrite <- !app_assoc.
Qed.

Lemma process_single_audio_file_undecodable (file_path : path) (folder : string)
    (w : world) (raw : string) :
  fst file_path <> folder ->
  lookup_file (fs w) file_path = Some (Bytes raw) ->
  decode E raw = Raise CouldntDecodeError ->
  retry_fails E (Bytes raw) ->
  exists w',
    Segmentation.process_single_audio_file E file_path folder w = (Ok tt, w') /\
    fs w' !! folder = Some ∅ /\
    trace w' = trace w ++ FromFile file_path :: Ffmpeg file_path (reencoded_path file_path) ::
                 match ffmpeg E (Bytes raw) with
                 | Ok _ => [FromFile (reencoded_path file_path)]
                 | Raise _ => []
                 end.
Proof.
  intros Hne Hc Hraw Hretry. unfold Segmentation.process_single_audio_file.
  rewrite bind_run, isfile_run, bool_decide_true by eauto. simpl.
  rewrite bind_run, clean_folder_run, bind_run.
  destruct (load_audio_undecodable file_path (set_fs (insert folder ∅) w) raw)
    as (w' & -> & Hfs & Htrace); [|done..|].
  { simpl. by rewrite lookup_file_insert_ne. }
  exists w'. split; [done|]. split; [|done].
  rewrite Hfs by done. simpl. apply lookup_insert_eq.
Qed.

Lemma listdir_empty (d : string) (w : world) :
  fs w !! d = Some ∅ -> listdir d w = (Ok [], w).
Proof. intros Hd. unfold listdir. rewrite Hd. by rewrite map_to_list_empty. Qed.

End Undecodable.

(** C5, as amended: when the upload does not decode, ffmpeg is run once
    and, if it produced a file, that file is decoded once; when this
    fails too, the segmenter returns normally with an empty folder (it
    raises nothing), and it is the orchestrator that, finding no segment,
    ends the request with the error outcome. *)
Theorem undecodable_upload_returns_no_segment (E : Env) (scaler : StandardScaler)
    (file_path : path) (lang : string) (w : world) (raw : string) :
  fst file_path <> Backend.PROCESSED_DIR ->
  lookup_file (fs w) file_path = Some (Bytes raw) ->
  decode E raw = Raise CouldntDecodeError ->
  retry_fails E (Bytes raw) ->
  (exists w',
     Segmentation.process_single_audio_file E file_path Backend.PROCESSED_DIR w = (Ok tt, w') /\
     fs w' !! Backend.PROCESSED_DIR = Some ∅ /\
     trace w' = trace w ++ FromFile file_path :: Ffmpeg file_path (reencoded_path file_path) ::
                  match ffmpeg E (Bytes raw) with
                  | Ok _ => [FromFile (reencoded_path file_path)]
                  | Raise _ => []
                  end) /\
  fst (Backend.predict_final_classification E scaler file_path lang w) = Ok ERROR_LABEL.
Proof.
  intros Hne Hc Hraw Hretry.
  destruct (process_single_audio_file_undecodable E file_path Backend.PROCESSED_DIR w raw
              Hne Hc Hraw Hretry) as (w' & Hrun & Hempty & Htrace).
  split; [eauto|].
  unfold Backend.predict_final_classification, try_finally, try_except, Backend.pipeline.
  rewrite bind_run, Hrun, bind_run, (listdir_empty _ _ Hempty). simpl.
  destruct (backend_finalize_run w') as (w'' & -> & _). reflexivity.
Qed.

Lemma undecodable_upload_returns_no_segment_witness :
  (exists w',
     Segmentation.process_single_audio_file Sample.env Sample.recording Backend.PROCESSED_DIR
       (Sample.upload (Bytes "truncated")) = (Ok tt, w') /\
     fs w' !! Backend.PROCESSED_DIR = Some ∅ /\
     trace w' = trace (Sample.upload (Bytes "truncated"))
                ++ FromFile Sample.recording
                :: Ffmpeg Sample.recording (reencoded_path Sample.recording)
                :: match ffmpeg Sample.env (Bytes "truncated") with
                   | Ok _ => [FromFile (reencoded_path Sample.recording)]
                   | Raise _ => []
                   end) /\
  fst (Backend.predict_final_classification Sample.env (Some []) Sample.recording "en"
         (Sample.upload (Bytes "truncated"))) = Ok ERROR_LABEL.
Proof.
  apply (undecodable_upload_returns_no_segment Sample.env (Some []) Sample.recording "en"
           (Sample.upload (Bytes "truncated")) "truncated").
  - discriminate.
  - reflexivity.
  - reflexivity.
  - right. exists "garbled". split; reflexivity.
Defined.

(** C5 as stated fails: the segmenter does not raise when the fallback
    fails, whether ffmpeg itself failed or its output did not decode; it
    returns normally and has written no segment. *)
Lemma failed_fallback_returns_normally :
  (exists w',
     Segmentation.process_single_audio_file Sample.env Sample.recording Backend.PROCESSED_DIR
       (Sample.upload (Bytes "garbled")) = (Ok tt, w') /\
     fs w' !! Backend.PROCESSED_DIR = Some ∅ /\
     trace w' = [FromFile Sample.recording;
                 Ffmpeg Sample.recording (reencoded_path Sample.recording)]) /\
  (exists w',
     Segmentation.process_single_audio_file Sample.env Sample.recording Backend.PROCESSED_DIR
       (Sample.upload (Bytes "truncated")) = (Ok tt, w') /\
     fs w' !! Backend.PROCESSED_DIR = Some ∅ /\
     trace w' = [FromFile Sample.recording;
                 Ffmpeg Sample.recording (reencoded_path Sample.recording);
                 FromFile (reencoded_path Sample.recording)]).
Proof. split; eexists; repeat split; vm_compute; reflexivity. Qed.

(** ** A transcription that fails *)

Lemma transcribe_audio_failure (E : Env) (p : path) (name : string) (c : file_data)
    (w : world) (e : exn) :
  lookup_file (fs w) p = Some c ->
  wav2vec2 E name c = Raise e ->
  is_Exception e = true ->
  Transcription.transcribe_audio E p (Some name) w = (Ok None, w).
Proof.
  intros Hc Hasr He. unfold Transcription.transcribe_audio, try_except.
  rewrite bind_run. simpl. rewrite Hc, bind_run. unfold lift. rewrite Hasr. simpl.
  by rewrite He.
Qed.

Lemma transcribe_audio_unloaded (E : Env) (p : path) (w : world) :
  Transcription.transcribe_audio E p None w = (Ok None, w).
Proof.
  unfold Transcription.transcribe_audio, try_except. rewrite bind_run. simpl.
  by destruct (lookup_file (fs w) p).
Qed.

Lemma extract_linguistic_features_None (E : Env) (lang : string) (w : world) :
  Linguistic.extract_linguistic_features E None lang w = (Raise AttributeError, w).
Proof. reflexivity. Qed.

(** Texts of whitespace only: the empty text, spaces, the separator
    U+001C with a tab, a no-break space, the ideographic space; the
    zero-width space U+200B and a letter are not whitespace. *)
Example is_blank_examples :
  Linguistic.is_blank "" = true /\
  Linguistic.is_blank "  " = true /\
  Linguistic.is_blank (String "028" (String "009" " ")) = true /\
  Linguistic.is_blank (String "194" (String "160" " ")) = true /\
  Linguistic.is_blank (String "227" (String "128" (String "128" ""))) = true /\
  Linguistic.is_blank (String "226" (String "128" (String "139" ""))) = false /\
  Linguistic.is_blank " a " = false.
Proof. repeat split. Qed.

(** An empty text is what gets the NaN-filled row, with every expected key. *)
Lemma extract_linguistic_features_blank (E : Env) (text lang : string) (w : world) :
  Linguistic.is_blank text = true ->
  Linguistic.extract_linguistic_features E (Some text) lang w
  = (Ok (DataFrame_of_row (Linguistic.nan_features E)), w) /\
  map fst (Linguistic.nan_features E) = all_features E /\
  Forall (fun kv => snd kv = NaN) (Linguistic.nan_features E).
Proof.
  intros Hblank. unfold Linguistic.extract_linguistic_features. rewrite Hblank.
  split; [done|]. unfold Linguistic.nan_features. split.
  - rewrite map_map. simpl. apply map_id.
  - induction (all_features E); simpl; by constructor.
Qed.

(** In the segment loop a failed transcription raises, in both versions. *)
Lemma backend_score_segment_failed_transcription (E : Env) (scaler : StandardScaler)
    (lang name : string) (p : path) (c : file_data) (w : world) (a : Row) (e : exn) :
  lookup_file (fs w) p = Some c ->
  acoustic E c = Ok a ->
  wav2vec2 E name c = Raise e ->
  is_Exception e = true ->
  Backend.score_segment E scaler lang (Some name) p w = (Raise AttributeError, w).
Proof.
  intros Hc Ha Hasr He. unfold Backend.score_segment, Backend.extract_all_features.
  rewrite !bind_run. simpl. rewrite Hc. unfold lift at 1. rewrite Ha.
  rewrite bind_run, (transcribe_audio_failure E p name c w e) by done.
  reflexivity.
Qed.

Lemma server_score_segment_failed_transcription (E : Env) (scaler : StandardScaler)
    (lang name : string) (p : path) (c : file_data) (w : world) (a : Row) (e : exn) :
  lookup_file (fs w) p = Some c ->
  acoustic E c = Ok a ->
  wav2vec2 E name c = Raise e ->
  is_Exception e = true ->
  Server.score_segment E scaler lang (Some name) p w = (Raise ValueError, w).
Proof.
  intros Hc Ha Hasr He. unfold Server.score_segment, Backend.extract_all_features.
  rewrite !bind_run. simpl. rewrite Hc. unfold lift at 1. rewrite Ha.
  rewrite bind_run, (transcribe_audio_failure E p name c w e) by done.
  reflexivity.
Qed.

(** C6, evaluated where it fails: a recording of two segments, of which
    the second makes the ASR call raise.  The first segment is scored;
    the second one is transcribed to [None], the linguistic extractor
    raises on it, and the whole request ends with the error outcome in
    both orchestrators: no row is saved and no vote is taken, although
    the first segment alone gets a verdict. *)
Theorem failed_transcription_aborts_request :
  (exists w',
     Backend.predict_final_classification Sample.env (Some []) Sample.recording "en"
       (Sample.upload (Wav (Sample.tone 90 20 ++ Sample.tone 0 20)))
     = (Ok ERROR_LABEL, w') /\
     trace w' = [FromFile Sample.recording;
                 ScalerTransform [("zcr", [Num (90 # 100)]); ("t_word", [Num 3]);
                                  ("t_sent", [Num 1])]]) /\
  (exists w',
     Server.predict_final_classification Sample.env (Some []) Sample.server_recording "en"
       (Sample.server_upload (Wav (Sample.tone 90 20 ++ Sample.tone 0 20)))
     = (Ok ERROR_LABEL, w') /\
     trace w' = [FromFile Sample.server_recording;
                 ScalerTransform [("zcr", [Num (90 # 100)]); ("t_word", [Num 3]);
                                  ("t_sent", [Num 1])]]) /\
  fst (Backend.predict_final_classification Sample.env (Some []) Sample.recording "en"
         (Sample.upload (Wav (Sample.tone 90 20)))) = Ok "AD" /\
  fst (Server.predict_final_classification Sample.env (Some []) Sample.server_recording "en"
         (Sample.server_upload (Wav (Sample.tone 90 20)))) = Ok "AD".
Proof.
  split; [eexists; split; vm_compute; reflexivity|].
  split; [eexists; split; vm_compute; reflexivity|].
  split; vm_compute; reflexivity.
Qed.

(** ** Missing values on the way to the scaler *)

Lemma predict_trace (E : Env) (scaler : StandardScaler) (X : DataFrame) (w : world) :
  trace (snd (Prediction.predict E scaler X w)) = trace w ++ [ScalerTransform X].
Proof.
  unfold Prediction.predict, Prediction.scaler_transform, lift.
  rewrite !bind_run. simpl.
  destruct scaler as [params|]; simpl; [|done].
  destruct (scaler_apply E params X) as [Y|e]; simpl; [|done].
  rewrite !bind_run.
  destruct (Prediction.select_columns _ _) as [sel|e]; simpl; [|done].
  rewrite !bind_run.
  destruct (model_predict E sel) as [preds|e]; simpl; [|done].
  rewrite !bind_run.
  by destruct (model_predict_proba E sel) as [proba|e].
Qed.

Lemma length_present (col : list value) :
  length (ApiPrediction.present col)
  = length (omap (fun v => match v with Num q => Some q | NaN => None end) col).
Proof.
  unfold ApiPrediction.present. apply Permutation_length, merge_sort_Permutation.
Qed.

Lemma median_of_numbers (col : list value) :
  (exists q, Num q ∈ col) -> exists m, ApiPrediction.median col = Num m.
Proof.
  intros [q Hq]. unfold ApiPrediction.median.
  assert (Hpos : (0 < length (ApiPrediction.present col))%nat).
  { rewrite length_present.
    assert (Hin : q ∈ omap (fun v => match v with Num q => Some q | NaN => None end) col).
    { apply list_elem_of_omap. exists (Num q). done. }
    destruct (omap _ col); [by apply not_elem_of_nil in Hin | simpl; lia]. }
  destruct (length (ApiPrediction.present col)) as [|n] eqn:Hlen; [lia|].
  assert (Hhalf : (S n / 2 < S n)%nat) by (apply Nat.div_lt; lia).
  destruct (lookup_lt_is_Some_2 (ApiPrediction.present col) (S n / 2)) as [b Hb]; [lia|].
  destruct (lookup_lt_is_Some_2 (ApiPrediction.present col) (S n / 2 - 1)) as [a Ha]; [lia|].
  rewrite Hb, Ha. destruct (Nat.odd (S n)); eauto.
Qed.

Lemma lookup_map {A B} (f : A -> B) (l : list A) (i : nat) :
  map f l !! i = f <$> l !! i.
Proof. revert i. induction l as [|x l IH]; intros [|i]; simpl; auto. Qed.

Lemma fillna_median_column (df : DataFrame) (i : nat) (name : string) (cells : list value) :
  df !! i = Some (name, cells) ->
  (exists q, Num q ∈ cells) ->
  exists cells',
    ApiPrediction.fillna_median df !! i = Some (name, cells') /\
    Forall (fun v => is_nan v = false) cells'.
Proof.
  intros Hi Hnum. destruct (median_of_numbers cells Hnum) as [m Hm].
  unfold ApiPrediction.fillna_median.
  rewrite lookup_map, Hi. simpl.
  eexists; split; [reflexivity|]. rewrite Hm.
  induction cells as [|v cells IH]; simpl; constructor.
  - by destruct v.
  - clear IH Hm Hnum Hi. induction cells as [|v' cells IH]; simpl; constructor;
      [by destruct v' | done].
Qed.

Lemma backend_score_segment_trace (E : Env) (scaler : StandardScaler) (lang : string)
    (tokenizer_model : option string) (p : path) (w : world)
    (a : Row) (t : option string) (L : DataFrame) :
  Backend.extract_all_features E p w = (Ok a, w) ->
  Transcription.transcribe_audio E p tokenizer_model w = (Ok t, w) ->
  Linguistic.extract_linguistic_features E t lang w = (Ok L, w) ->
  trace (snd (Backend.score_segment E scaler lang tokenizer_model p w))
  = trace w ++ [ScalerTransform (concat_axis1 (DataFrame_of_row a) L)].
Proof.
  intros Ha Ht HL. unfold Backend.score_segment.
  rewrite bind_run, Ha, bind_run, Ht, bind_run, HL, bind_run.
  pose proof (predict_trace E scaler (concat_axis1 (DataFrame_of_row a) L) w) as Htr.
  destruct (Prediction.predict E scaler (concat_axis1 (DataFrame_of_row a) L) w)
    as [[[preds probs]|e] w1]; simpl in *; [|done].
  rewrite bind_run. destruct probs as [|prob probs]; simpl; done.
Qed.

Lemma server_score_segment_trace (E : Env) (scaler : StandardScaler) (lang : string)
    (tokenizer_model : option string) (p : path) (w : world)
    (a : Row) (t : option string) (l : Row) :
  Backend.extract_all_features E p w = (Ok a, w) ->
  Transcription.transcribe_audio E p tokenizer_model w = (Ok t, w) ->
  Linguistic.extract_linguistic_features_server E t lang w = (Ok l, w) ->
  trace (snd (Server.score_segment E scaler lang tokenizer_model p w))
  = trace w ++ [ScalerTransform (concat_axis1 (DataFrame_of_row a) (DataFrame_of_row l))].
Proof.
  intros Ha Ht HL. unfold Server.score_segment.
  rewrite bind_run, Ha, bind_run, Ht, bind_run, HL, bind_run.
  pose proof (predict_trace E scaler
                (concat_axis1 (DataFrame_of_row a) (DataFrame_of_row l)) w) as Htr.
  destruct (Prediction.predict E scaler
              (concat_axis1 (DataFrame_of_row a) (DataFrame_of_row l)) w)
    as [[[preds probs]|e] w1]; simpl in *; [|done].
  rewrite bind_run. destruct probs as [|prob probs]; simpl; done.
Qed.

Lemma prepare_features_imputes (E : Env) (audio_path : path) (language_code : string)
    (w : world) (X : DataFrame) (w' : world) :
  ApiPrediction.prepare_features E audio_path language_code w = (Ok X, w') ->
  exists acoustic_df linguistic_df,
    X = ApiPrediction.fillna_median (concat_axis1 acoustic_df linguistic_df).
Proof.
  unfold ApiPrediction.prepare_features. intros H.
  apply bind_Ok in H as (A & w1 & _ & H).
  apply bind_Ok in H as (L & w2 & _ & H).
  inversion H. eauto.
Qed.

(** Where imputation happens: the segment loop of either orchestrator
    hands the concatenation of the acoustic and the linguistic features
    to [scaler.transform] exactly as extracted; [prepare_features] of
    backend/api/prediction.py applies [fillna] with the medians, which
    replaces every missing value of a column that holds a number. *)
Lemma imputation_only_in_prepare_features (E : Env) :
  (forall scaler lang tokenizer_model p w a t L,
     Backend.extract_all_features E p w = (Ok a, w) ->
     Transcription.transcribe_audio E p tokenizer_model w = (Ok t, w) ->
     Linguistic.extract_linguistic_features E t lang w = (Ok L, w) ->
     trace (snd (Backend.score_segment E scaler lang tokenizer_model p w))
     = trace w ++ [ScalerTransform (concat_axis1 (DataFrame_of_row a) L)]) /\
  (forall scaler lang tokenizer_model p w a t l,
     Backend.extract_all_features E p w = (Ok a, w) ->
     Transcription.transcribe_audio E p tokenizer_model w = (Ok t, w) ->
     Linguistic.extract_linguistic_features_server E t lang w = (Ok l, w) ->
     trace (snd (Server.score_segment E scaler lang tokenizer_model p w))
     = trace w ++ [ScalerTransform (concat_axis1 (DataFrame_of_row a) (DataFrame_of_row l))]) /\
  (forall audio_path language_code w X w',
     ApiPrediction.prepare_features E audio_path language_code w = (Ok X, w') ->
     exists acoustic_df linguistic_df,
       X = ApiPrediction.fillna_median (concat_axis1 acoustic_df linguistic_df)) /\
  (forall df i name cells,
     df !! i = Some (name, cells) ->
     (exists q, Num q ∈ cells) ->
     exists cells',
       ApiPrediction.fillna_median df !! i = Some (name, cells') /\
       Forall (fun v => is_nan v = false) cells').
Proof.
  split; [|split; [|split]].
  - intros. by apply backend_score_segment_trace with (t := t).
  - intros. by apply server_score_segment_trace with (t := t).
  - apply prepare_features_imputes.
  - apply fillna_median_column.
Qed.

(** On a frame of one row the medians cannot help: a missing cell is the
    whole column. *)
Example fillna_median_one_row :
  ApiPrediction.fillna_median [("zcr", [Num 1]); ("t_word", [NaN])]
  = [("zcr", [Num 1]); ("t_word", [NaN])].
Proof. reflexivity. Qed.

(** C7, evaluated where it fails: a segment in which the ASR model hears
    nothing gets NaN linguistic features, and the frame that reaches
    [scaler.transform], in the segment loop of either orchestrator, still
    holds them: no imputation has been applied to it. *)
Theorem missing_values_reach_the_scaler :
  (exists r w' X,
     Backend.score_segment Sample.env (Some []) "en" (Some "facebook/wav2vec2-large-960h")
       (Backend.PROCESSED_DIR, "recording.wav") (Sample.one_segment [1; 1]) = (r, w') /\
     trace w' = [ScalerTransform X] /\
     has_nan X = true) /\
  (exists w' X rest,
     Backend.predict_final_classification Sample.env (Some []) Sample.recording "en"
       (Sample.upload (Wav [1; 1])) = (Ok ERROR_LABEL, w') /\
     trace w' = FromFile Sample.recording :: ScalerTransform X :: rest /\
     has_nan X = true).
Proof.
  split.
  - eexists _, _, _. repeat split; vm_compute; reflexivity.
  - eexists _, _, _. repeat split; vm_compute; reflexivity.
Qed.

(** * Further properties of the code *)

(** ** The folder of segments *)

Lemma split_audio_folder (audio : AudioSegment) (file_path : path) (folder : string)
    (w : world) :
  0 < len audio ->
  fs w !! folder = Some ∅ ->
  Segmentation.split_audio audio file_path folder w
  = (Ok tt, set_fs (insert folder (segment_folder audio (basename file_path))) w).
Proof.
  intros Hpos Hd. unfold segment_folder.
  destruct (Z.ltb_spec (len audio) 20000) as [Hshort|Hlong].
  - unfold Segmentation.split_audio. change (20 * 1000) with 20000.
    destruct (Z.ltb_spec (len audio) 20000); [|lia].
    by rewrite (process_short_audio_run _ _ _ _ _ ∅).
  - by apply split_audio_long.
Qed.


Lemma rindex_dot_spec (s : list ascii) (i : nat) (last : option nat) (d : nat) :
  rindex_dot s i last = Some d ->
  last = Some d \/ ((i <= d)%nat /\ s !! (d - i)%nat = Some "."%char).
Proof.
  revert i last. induction s as [|c s IH]; intros i last H; simpl in H; [by left|].
  apply IH in H as [H|[Hle Hd]].
  - destruct (Ascii.eqb_spec c "."%char) as [->|_]; [|by left].
    inversion H; subst. right. split; [lia|]. by rewrite Nat.sub_diag.
  - right. split; [lia|]. by replace (d - i)%nat with (S (d - S i)) by lia.
Qed.

Lemma length_list_ascii_app (s t : string) :
  length (list_ascii_of_string (s +:+ t))
  = (length (list_ascii_of_string s) + length (list_ascii_of_string t))%nat.
Proof. by rewrite list_ascii_of_string_app, length_app. Qed.

(** The re-encoded copy never has the name of the upload. *)
Lemma reencoded_name_differs (name : string) :
  splitext_root name +:+ "_reencoded.wav" <> name.
Proof.
  intros Heq. apply (f_equal list_ascii_of_string) in Heq.
  rewrite list_ascii_of_string_app in Heq. unfold splitext_root in Heq.
  destruct (rindex_dot (list_ascii_of_string name) 0 None) as [d|] eqn:Hdot.
  - apply rindex_dot_spec in Hdot as [?|[_ Hd]]; [done|].
    rewrite Nat.sub_0_r in Hd.
    destruct (forallb _ (take d (list_ascii_of_string name))).
    + apply (f_equal length) in Heq. rewrite length_app in Heq. simpl in Heq. lia.
    + rewrite list_ascii_of_string_of_list_ascii in Heq.
      pose proof (lookup_lt_Some _ _ _ Hd) as Hlt.
      rewrite <- Heq in Hd. rewrite lookup_app_r in Hd by (rewrite length_take; lia).
      rewrite length_take, Nat.min_l, Nat.sub_diag in Hd by lia. discriminate.
  - apply (f_equal length) in Heq. rewrite length_app in Heq. simpl in Heq. lia.
Qed.

Lemma load_audio_keeps_upload (E : Env) (p : path) (w : world) (c : file_data)
    (audio : AudioSegment) :
  lookup_file (fs w) p = Some c -> decodes E c audio ->
  exists w', Segmentation.load_audio E p w = (Ok (Some audio), w') /\
             (forall d, d <> fst p -> fs w' !! d = fs w !! d) /\
             lookup_file (fs w') p = Some c.
Proof.
  intros Hc [Hd|(raw & out & -> & Hraw & Hff & Hout)]; unfold Segmentation.load_audio, try_except.
  - rewrite bind_run, (from_file_decodes _ _ _ _ _ Hc Hd). simpl. eauto.
  - rewrite bind_run, from_file_run, Hc, Hraw. simpl.
    destruct (lookup_file_dir _ _ _ Hc) as (dd & Hdd & Hfile).
    rewrite bind_run, reencode_audio_run, run_ffmpeg_run.
    change (fs (log_event (FromFile p) w)) with (fs w). rewrite Hc, Hff.
    rewrite (write_file_run _ _ _ dd) by done.
    rewrite bind_run.
    erewrite from_file_decodes; [| | exact Hout].
    + simpl. eexists; split; [reflexivity|]. split.
      * intros d Hne. simpl. by rewrite lookup_insert_ne.
      * unfold lookup_file. simpl. rewrite lookup_insert_eq. simpl.
        rewrite lookup_insert_ne; [done|]. apply reencoded_name_differs.
    + unfold lookup_file. simpl. rewrite lookup_insert_eq. simpl. by rewrite lookup_insert_eq.
Qed.

Lemma process_single_audio_file_keeps_upload (E : Env) (file_path : path) (folder : string)
    (w : world) (c : file_data) (audio : AudioSegment) :
  fst file_path <> folder ->
  lookup_file (fs w) file_path = Some c ->
  decodes E c audio ->
  0 < len audio ->
  exists w',
    Segmentation.process_single_audio_file E file_path folder w = (Ok tt, w') /\
    fs w' !! folder = Some (segment_folder audio (basename file_path)) /\
    lookup_file (fs w') file_path = Some c.
Proof.
  intros Hne Hc Hdec Hpos. unfold Segmentation.process_single_audio_file.
  rewrite bind_run, isfile_run, bool_decide_true by eauto. simpl.
  rewrite bind_run, clean_folder_run, bind_run.
  destruct (load_audio_keeps_upload E file_path (set_fs (insert folder ∅) w) c audio)
    as (w2 & -> & Hfs & Hkept); [|done|].
  { simpl. by rewrite lookup_file_insert_ne. }
  rewrite split_audio_folder; [|done|].
  - eexists; split; [reflexivity|]. simpl. split; [apply lookup_insert_eq|].
    by rewrite lookup_file_insert_ne.
  - rewrite Hfs by done. simpl. apply lookup_insert_eq.
Qed.

(** X1: whatever the output folder held before (or whether it existed),
    after the segmenter has run on a recording of at least 1 ms the folder
    is the one determined by the audio and the name of the upload alone:
    no file of an earlier request is left in it. *)
Theorem folder_depends_on_the_recording_only (E : Env) (file_path : path) (folder : string)
    (w : world) (c : file_data) (audio : AudioSegment) :
  fst file_path <> folder ->
  lookup_file (fs w) file_path = Some c ->
  decodes E c audio ->
  0 < len audio ->
  exists w',
    Segmentation.process_single_audio_file E file_path folder w = (Ok tt, w') /\
    fs w' !! folder = Some (segment_folder audio (basename file_path)).
Proof.
  intros Hne Hc Hdec Hpos.
  destruct (process_single_audio_file_keeps_upload E file_path folder w c audio
              Hne Hc Hdec Hpos) as (w' & Hrun & Hdir & _).
  eauto.
Qed.

Lemma folder_depends_on_the_recording_only_witness :
  exists w',
    Segmentation.process_single_audio_file Sample.env (Backend.UPLOAD_DIR, "recording.wav")
      Backend.PROCESSED_DIR
      {| fs := {[ Backend.UPLOAD_DIR := {[ "recording.wav" := Wav [7; 8; 9] ]};
                  Backend.PROCESSED_DIR := {[ "earlier_segment1.wav" := Wav [1] ]} ]};
         loaded := ∅; trace := [] |} = (Ok tt, w') /\
    fs w' !! Backend.PROCESSED_DIR
    = Some (segment_folder [7; 8; 9] (basename (Backend.UPLOAD_DIR, "recording.wav"))).
Proof.
  apply (folder_depends_on_the_recording_only Sample.env
           (Backend.UPLOAD_DIR, "recording.wav") Backend.PROCESSED_DIR _
           (Wav [7; 8; 9]) [7; 8; 9]).
  - discriminate.
  - reflexivity.
  - left. reflexivity.
  - reflexivity.
Defined.
(** X2: segmenting is repeatable.  After a first run the upload is still
    in place, and a second run on the resulting world succeeds and leaves
    the same folder of segments. *)
Theorem segmenting_twice_gives_the_same_folder (E : Env) (file_path : path)
    (folder : string) (w : world) (c : file_data) (audio : AudioSegment) :
  fst file_path <> folder ->
  lookup_file (fs w) file_path = Some c ->
  decodes E c audio ->
  0 < len audio ->
  let w1 := snd (Segmentation.process_single_audio_file E file_path folder w) in
  let w2 := snd (Segmentation.process_single_audio_file E file_path folder w1) in
  lookup_file (fs w1) file_path = Some c /\
  fst (Segmentation.process_single_audio_file E file_path folder w1) = Ok tt /\
  fs w2 !! folder = fs w1 !! folder.
Proof.
  intros Hne Hc Hdec Hpos.
  destruct (process_single_audio_file_keeps_upload E file_path folder w c audio
              Hne Hc Hdec Hpos) as (w1 & Hrun1 & Hdir1 & Hkept).
  rewrite Hrun1. simpl.
  destruct (process_single_audio_file_keeps_upload E file_path folder w1 c audio
              Hne Hkept Hdec Hpos) as (w2 & Hrun2 & Hdir2 & _).
  rewrite Hrun2. simpl. split; [done|]. split; [done|]. by rewrite Hdir1, Hdir2.
Qed.

Lemma segmenting_twice_gives_the_same_folder_witness :
  let w1 := snd (Segmentation.process_single_audio_file Sample.env Sample.recording
                   Backend.PROCESSED_DIR (Sample.upload (Wav [7; 8; 9]))) in
  let w2 := snd (Segmentation.process_single_audio_file Sample.env Sample.recording
                   Backend.PROCESSED_DIR w1) in
  lookup_file (fs w1) Sample.recording = Some (Wav [7; 8; 9]) /\
  fst (Segmentation.process_single_audio_file Sample.env Sample.recording
         Backend.PROCESSED_DIR w1) = Ok tt /\
  fs w2 !! Backend.PROCESSED_DIR = fs w1 !! Backend.PROCESSED_DIR.
Proof.
  apply (segmenting_twice_gives_the_same_folder Sample.env Sample.recording
           Backend.PROCESSED_DIR (Sample.upload (Wav [7; 8; 9])) (Wav [7; 8; 9]) [7; 8; 9]).
  - discriminate.
  - reflexivity.
  - left. reflexivity.
  - reflexivity.
Defined.

Lemma exported_lookup_in {A} `{EqDecision A} (nm : A -> string) (seg : A -> AudioSegment)
    (d : directory) (xs : list A) (x : A) :
  Inj (=) (=) nm -> x ∈ xs ->
  exported nm seg d xs !! nm x = Some (Wav (seg x)).
Proof.
  intros Hinj. revert d. induction xs as [|y ys IH]; intros d Hx; simpl.
  - by apply not_elem_of_nil in Hx.
  - destruct (decide (x ∈ ys)) as [Hin|Hnotin]; [by apply IH|].
    apply elem_of_cons in Hx as [->|?]; [|done].
    rewrite exported_lookup_other; [apply lookup_insert_eq|].
    intros z Hz Heq. apply Hinj in Heq. by subst.
Qed.

Lemma exported_lookup_Some {A} (nm : A -> string) (seg : A -> AudioSegment)
    (d : directory) (xs : list A) (k : string) :
  is_Some (exported nm seg d xs !! k) -> is_Some (d !! k) \/ exists x, x ∈ xs /\ k = nm x.
Proof.
  revert d. induction xs as [|y ys IH]; intros d Hk; simpl in *; [by left|].
  apply IH in Hk as [Hk|(x & Hx & ->)].
  - destruct (decide (nm y = k)) as [<-|Hne].
    + right. exists y. split; [by left|done].
    + left. by rewrite lookup_insert_ne in Hk.
  - right. exists x. split; [by right|done].
Qed.

Lemma full_segment_lookup (audio : AudioSegment) (segment_ms i : Z) (k : nat) :
  0 < segment_ms -> 0 <= i < len audio / segment_ms -> Z.of_nat k < segment_ms ->
  full_segment audio segment_ms i !! k = audio !! Z.to_nat (i * segment_ms + Z.of_nat k).
Proof.
  intros HS Hi Hk. unfold full_segment.
  pose proof (Z.mod_pos_bound (len audio) segment_ms HS).
  pose proof (Z.div_mod (len audio) segment_ms).
  rewrite getslice_window by nia.
  rewrite lookup_take_lt by lia. rewrite lookup_drop. f_equal. nia.
Qed.

(** X3: the files of a recording of at least 20 s are named
    [<stem>_segment<i>.wav] for exactly the numbers [i] from 1 to the
    number of segments, and the file of a shorter recording is
    [<stem>.wav]. *)
Theorem segment_file_names (E : Env) (file_path : path) (folder : string)
    (w : world) (c : file_data) (audio : AudioSegment) (name : string) :
  fst file_path <> folder ->
  lookup_file (fs w) file_path = Some c ->
  decodes E c audio ->
  0 < len audio ->
  let w' := snd (Segmentation.process_single_audio_file E file_path folder w) in
  is_Some (lookup_file (fs w') (folder, name)) <->
  if len audio <? 20000 then name = splitext_root (basename file_path) +:+ ".wav"
  else exists i,
         1 <= i <= len audio / 20000 + (if len audio `mod` 20000 =? 0 then 0 else 1) /\
         name = Segmentation.segment_filename (basename file_path) i.
Proof.
  intros Hne Hc Hdec Hpos.
  destruct (process_single_audio_file_keeps_upload E file_path folder w c audio
              Hne Hc Hdec Hpos) as (w' & -> & Hdir & _).
  simpl. unfold lookup_file. simpl. rewrite Hdir. simpl. unfold segment_folder.
  pose proof (Z.mod_pos_bound (len audio) 20000 ltac:(lia)) as Hr.
  destruct (Z.ltb_spec (len audio) 20000) as [Hshort|Hlong].
  - rewrite lookup_singleton_is_Some. split; by intros ->.
  - assert (Hq : 1 <= len audio / 20000) by (apply Z.div_le_lower_bound; lia).
    unfold long_folder.
    set (nm := fun i => Segmentation.segment_filename (basename file_path) (i + 1)).
    assert (Hfull : forall k,
      is_Some (exported nm (full_segment audio 20000) ∅
                 (seqZ 0 (len audio / 20000)) !! k)
      <-> exists i, 1 <= i <= len audio / 20000 /\
                    k = Segmentation.segment_filename (basename file_path) i).
    { intros k. split.
      - intros Hk. apply exported_lookup_Some in Hk as [Hk|(x & Hx & ->)].
        + rewrite lookup_empty in Hk. by destruct Hk.
        + apply elem_of_seqZ in Hx. exists (x + 1). split; [lia|done].
      - intros (i & Hi & ->).
        replace i with ((i - 1) + 1) by lia.
        change (Segmentation.segment_filename (basename file_path) (i - 1 + 1))
          with (nm (i - 1)).
        rewrite (exported_lookup_in nm); [eauto| |].
        + intros a b Hab. apply segment_filename_inj in Hab. lia.
        + apply elem_of_seqZ. lia. }
    destruct (Z.ltb_spec 0 (len audio `mod` 20000)) as [Hrem|Hnorem];
      destruct (Z.eqb_spec (len audio `mod` 20000) 0) as [Hz|Hnz]; try lia.
    + rewrite lookup_insert_is_Some', Hfull. split.
      * intros [<-|(i & Hi & ->)]; eexists; (split; [|reflexivity]); lia.
      * intros (i & Hi & ->).
        destruct (decide (i = len audio / 20000 + 1)) as [->|Hi']; [by left|].
        right. exists i. split; [lia|done].
    + rewrite Hfull. split; intros (i & Hi & ->); exists i; (split; [lia|done]).
Qed.

Lemma segment_file_names_witness :
  let w' := snd (Segmentation.process_single_audio_file Sample.env Sample.recording
                   Backend.PROCESSED_DIR (Sample.upload (Wav [7; 8; 9]))) in
  is_Some (lookup_file (fs w') (Backend.PROCESSED_DIR, "recording.wav")) <->
  if len [7; 8; 9] <? 20000
  then "recording.wav" = splitext_root (basename Sample.recording) +:+ ".wav"
  else exists i,
         1 <= i <= len [7; 8; 9] / 20000 + (if len [7; 8; 9] `mod` 20000 =? 0 then 0 else 1) /\
         "recording.wav" = Segmentation.segment_filename (basename Sample.recording) i.
Proof.
  apply (segment_file_names Sample.env Sample.recording Backend.PROCESSED_DIR
           (Sample.upload (Wav [7; 8; 9])) (Wav [7; 8; 9]) [7; 8; 9] "recording.wav").
  - discriminate.
  - reflexivity.
  - left. reflexivity.
  - reflexivity.
Defined.

(** X4: the [i]-th file of a recording of at least 20 s holds the [i]-th
    window of 20 s of the recording, millisecond for millisecond: the
    full segments are consecutive and in time order. *)
Theorem full_segments_are_consecutive_windows (E : Env) (file_path : path)
    (folder : string) (w : world) (c : file_data) (audio : AudioSegment) (i : Z) :
  fst file_path <> folder ->
  lookup_file (fs w) file_path = Some c ->
  decodes E c audio ->
  20000 <= len audio ->
  1 <= i <= len audio / 20000 ->
  exists w' segment,
    Segmentation.process_single_audio_file E file_path folder w = (Ok tt, w') /\
    lookup_file (fs w') (folder, Segmentation.segment_filename (basename file_path) i)
    = Some (Wav segment) /\
    len segment = 20000 /\
    forall k : nat, Z.of_nat k < 20000 ->
      segment !! k = audio !! Z.to_nat ((i - 1) * 20000 + Z.of_nat k).
Proof.
  intros Hne Hc Hdec Hlong Hi.
  destruct (process_single_audio_file_keeps_upload E file_path folder w c audio
              Hne Hc Hdec ltac:(lia)) as (w' & -> & Hdir & _).
  exists w', (full_segment audio 20000 (i - 1)). split; [done|].
  split; [|split].
  - unfold lookup_file. simpl. rewrite Hdir. simpl. unfold segment_folder.
    destruct (Z.ltb_spec (len audio) 20000); [lia|]. unfold long_folder.
    pose proof (exported_lookup_in
                  (fun j => Segmentation.segment_filename (basename file_path) (j + 1))
                  (full_segment audio 20000) ∅ (seqZ 0 (len audio / 20000)) (i - 1)) as Hlook.
    cbv beta in Hlook. replace (i - 1 + 1) with i in Hlook by lia.
    rewrite <- Hlook.
    2:{ intros a b Hab. apply segment_filename_inj in Hab. lia. }
    2:{ apply elem_of_seqZ. lia. }
    destruct (0 <? len audio `mod` 20000); [|done].
    rewrite lookup_insert_ne; [done|].
    intros Heq. apply segment_filename_inj in Heq. lia.
  - apply len_full_segment; lia.
  - intros k Hk. apply full_segment_lookup; lia.
Qed.

Lemma full_segments_are_consecutive_windows_witness :
  exists w' segment,
    Segmentation.process_single_audio_file Sample.env Sample.recording
      Backend.PROCESSED_DIR
      (Sample.upload (Wav (Sample.tone 5 20 ++ Sample.tone 9 25))) = (Ok tt, w') /\
    lookup_file (fs w')
      (Backend.PROCESSED_DIR, Segmentation.segment_filename (basename Sample.recording) 2)
    = Some (Wav segment) /\
    len segment = 20000 /\
    forall k : nat, Z.of_nat k < 20000 ->
      segment !! k
      = (Sample.tone 5 20 ++ Sample.tone 9 25) !! Z.to_nat ((2 - 1) * 20000 + Z.of_nat k).
Proof.
  apply (full_segments_are_consecutive_windows Sample.env Sample.recording
           Backend.PROCESSED_DIR
           (Sample.upload (Wav (Sample.tone 5 20 ++ Sample.tone 9 25)))
           (Wav (Sample.tone 5 20 ++ Sample.tone 9 25))).
  - discriminate.
  - reflexivity.
  - left. reflexivity.
  - vm_compute. discriminate.
  - vm_compute. split; discriminate.
Defined.

(** ** The vote *)

Lemma Qgt_bool_proper (a a' b b' : Q) :
  (a == a')%Q -> (b == b')%Q -> Qgt_bool a b = Qgt_bool a' b'.
Proof.
  intros Ha Hb.
  destruct (Qgt_bool a b) eqn:H1, (Qgt_bool a' b') eqn:H2; try done.
  - apply Qgt_bool_iff in H1. rewrite Ha, Hb in H1. apply Qgt_bool_iff in H1. congruence.
  - apply Qgt_bool_iff in H2. rewrite <- Ha, <- Hb in H2. apply Qgt_bool_iff in H2. congruence.
Qed.

Lemma float_positive_sum_unanimous_0 (df : list ScoredSegment) :
  Forall (fun r => Prediction r = 0) df -> float_positive_sum df = 0%Q.
Proof.
  intros Hall. unfold float_positive_sum.
  replace (positive_confidences df) with (@nil Q); [done|].
  induction Hall as [|r df Hr _ IH]; simpl; [done|]. by rewrite Hr.
Qed.

Lemma float_negative_sum_unanimous_1 (df : list ScoredSegment) :
  Forall (fun r => Prediction r = 1) df -> float_negative_sum df = 0%Q.
Proof.
  intros Hall. unfold float_negative_sum.
  replace (negative_confidences df) with (@nil Q); [done|].
  induction Hall as [|r df Hr _ IH]; simpl; [done|]. by rewrite Hr.
Qed.

Lemma float_negative_sum_nonneg (df : list ScoredSegment) :
  Forall (fun r => (Probability r <= 1)%Q) df -> (0 <= float_negative_sum df)%Q.
Proof.
  intros Hall. apply sum_nonneg.
  induction Hall as [|r df Hr _ IH]; simpl; [done|].
  destruct (Prediction r =? 0); [|done].
  constructor; [|done]. apply b64_nonneg.
  unfold Qminus. by rewrite <- Qle_minus_iff.
Qed.

Lemma float_positive_sum_pos (df : list ScoredSegment) :
  df <> [] ->
  Forall (fun r => Prediction r = 1 /\ (0 < Probability r)%Q) df ->
  (0 < float_positive_sum df)%Q.
Proof.
  intros Hne Hall. apply sum_pos.
  - destruct Hall as [|r df [Hr _] _]; [done|]. simpl. by rewrite Hr.
  - clear Hne. induction Hall as [|r df [Hr Hp] _ IH]; simpl; [done|].
    rewrite Hr. simpl. by constructor.
Qed.

(** X7: unanimous segments decide the verdict.  If every segment was
    labelled 0 (with probabilities that do not exceed 1) the vote is 0,
    also on no segment at all; if there is at least one segment and every
    segment was labelled 1 with a positive probability, the vote is 1. *)
Theorem unanimous_segments_decide (df : list ScoredSegment) :
  (Forall (fun r => Prediction r = 0 /\ (Probability r <= 1)%Q) df ->
   Prediction.weighted_majority_voting df = 0) /\
  (df <> [] ->
   Forall (fun r => Prediction r = 1 /\ (0 < Probability r)%Q) df ->
   Prediction.weighted_majority_voting df = 1).
Proof.
  split.
  - intros Hall. rewrite vote_decision.
    destruct (Qgt_bool _ _) eqn:Hgt; [|done].
    apply Qgt_bool_iff in Hgt.
    rewrite float_positive_sum_unanimous_0 in Hgt
      by (eapply Forall_impl; [exact Hall | by intros ? [? _]]).
    apply Qlt_not_le in Hgt. destruct Hgt. apply float_negative_sum_nonneg.
    eapply Forall_impl; [exact Hall | by intros ? [_ ?]].
  - intros Hne Hall. rewrite vote_decision.
    destruct (Qgt_bool _ _) eqn:Hgt; [done|].
    assert (Hlt : (float_negative_sum df < float_positive_sum df)%Q).
    { rewrite float_negative_sum_unanimous_1
        by (eapply Forall_impl; [exact Hall | by intros ? [? _]]).
      by apply float_positive_sum_pos. }
    apply Qgt_bool_iff in Hlt. congruence.
Qed.

Lemma unanimous_segments_decide_witness :
  Prediction.weighted_majority_voting
    [ {| file_name := "a_segment1.wav"; Prediction := 1; Probability := 0.3 |};
      {| file_name := "a_segment2.wav"; Prediction := 1; Probability := 0.9 |} ] = 1.
Proof.
  apply (proj2 (unanimous_segments_decide
                  [ {| file_name := "a_segment1.wav"; Prediction := 1; Probability := 0.3 |};
                    {| file_name := "a_segment2.wav"; Prediction := 1; Probability := 0.9 |} ])).
  - discriminate.
  - repeat constructor.
Defined.

(** X8: a row whose label is neither 0 nor 1 adds to neither sum: removing
    all such rows leaves the vote unchanged. *)
Theorem vote_ignores_other_labels (df : list ScoredSegment) :
  Prediction.weighted_majority_voting
    (filter (fun r => Prediction r = 0 \/ Prediction r = 1) df)
  = Prediction.weighted_majority_voting df.
Proof.
  rewrite !vote_decision. unfold float_positive_sum, float_negative_sum.
  replace (positive_confidences (filter (fun r => Prediction r = 0 \/ Prediction r = 1) df))
    with (positive_confidences df).
  replace (negative_confidences (filter (fun r => Prediction r = 0 \/ Prediction r = 1) df))
    with (negative_confidences df); [done|].
  - induction df as [|r df IH]; simpl; [done|].
    rewrite filter_cons. destruct (decide (Prediction r = 0 \/ Prediction r = 1)) as [H|H].
    + simpl. by rewrite IH.
    + rewrite IH. destruct (Z.eqb_spec (Prediction r) 0); [tauto|done].
  - induction df as [|r df IH]; simpl; [done|].
    rewrite filter_cons. destruct (decide (Prediction r = 0 \/ Prediction r = 1)) as [H|H].
    + simpl. by rewrite IH.
    + rewrite IH. destruct (Z.eqb_spec (Prediction r) 1); [tauto|done].
Qed.

(** ** A request that succeeds *)

Lemma append_cons (c : ascii) (s t : string) : String c s +:+ t = String c (s +:+ t).
Proof. reflexivity. Qed.

Lemma append_assoc (s1 s2 s3 : string) : (s1 +:+ s2) +:+ s3 = s1 +:+ (s2 +:+ s3).
Proof. induction s1 as [|c s1 IH]; [done|]. by rewrite !append_cons, IH. Qed.

Lemma prefix_append (s x : string) : String.prefix s (s +:+ x) = true.
Proof.
  induction s as [|c s IH]; [by destruct x|].
  rewrite append_cons. simpl. destruct (ascii_dec c c); [done|congruence].
Qed.

Lemma rev_app_append (s acc : string) : String.rev_app s acc = String.rev s +:+ acc.
Proof.
  unfold String.rev. revert acc. induction s as [|c s IH]; intros acc; simpl; [done|].
  rewrite IH, (IH (String c "")), append_assoc. done.
Qed.

Lemma rev_app_of_append (s t acc : string) :
  String.rev_app (s +:+ t) acc = String.rev_app t (String.rev_app s acc).
Proof.
  revert acc. induction s as [|c s IH]; intros acc; [done|].
  rewrite append_cons. simpl. apply IH.
Qed.

Lemma endswith_append (s t : string) : endswith (s +:+ t) t = true.
Proof.
  unfold endswith. unfold String.rev at 2. rewrite rev_app_of_append, rev_app_append.
  apply prefix_append.
Qed.

Lemma segment_filename_wav (filename : string) (k : Z) :
  endswith (Segmentation.segment_filename filename k) ".wav" = true.
Proof.
  unfold Segmentation.segment_filename. rewrite <- !append_assoc. apply endswith_append.
Qed.

Lemma segment_folder_wav (audio : AudioSegment) (filename : string) :
  map_Forall (fun k _ => endswith k ".wav" = true) (segment_folder audio filename).
Proof.
  unfold segment_folder. destruct (len audio <? 20000).
  - apply map_Forall_singleton, endswith_append.
  - unfold long_folder.
    assert (Hfull : map_Forall (fun k (_ : file_data) => endswith k ".wav" = true)
              (exported (fun i => Segmentation.segment_filename filename (i + 1))
                 (full_segment audio 20000) ∅ (seqZ 0 (len audio / 20000)))).
    { apply exported_Forall; [apply map_Forall_empty|].
      intros i _. apply segment_filename_wav. }
    destruct (0 <? len audio `mod` 20000); [|done].
    apply map_Forall_insert_2; [apply segment_filename_wav | done].
Qed.

Lemma segment_folder_size (audio : AudioSegment) (filename : string) :
  0 < len audio ->
  Z.of_nat (size (segment_folder audio filename))
  = if len audio <? 20000 then 1
    else len audio / 20000 + (if len audio `mod` 20000 =? 0 then 0 else 1).
Proof.
  intros Hpos. unfold segment_folder.
  destruct (Z.ltb_spec (len audio) 20000) as [Hshort|Hlong].
  - by rewrite map_size_singleton.
  - rewrite long_folder_size by lia.
    pose proof (Z.mod_pos_bound (len audio) 20000 ltac:(lia)).
    destruct (Z.ltb_spec 0 (len audio `mod` 20000));
      destruct (Z.eqb_spec (len audio `mod` 20000) 0); lia.
Qed.

Lemma filter_all (f : string -> bool) (l : list string) :
  Forall (fun x => f x = true) l -> List.filter f l = l.
Proof. induction 1 as [|x l Hx _ IH]; simpl; [done|]. by rewrite Hx, IH. Qed.

(** The paths the orchestrator iterates over are the files of the folder. *)
Lemma wav_files_of_folder (folder : string) (dir : directory) :
  map_Forall (fun k _ => endswith k ".wav" = true) dir ->
  length (wav_files folder (map fst (map_to_list dir))) = size dir /\
  Forall (fun p => fst p = folder /\ is_Some (dir !! snd p))
    (wav_files folder (map fst (map_to_list dir))).
Proof.
  intros Hwav. unfold wav_files.
  assert (Hkeys : Forall (fun k => endswith k ".wav" = true /\ is_Some (dir !! k))
                    (map fst (map_to_list dir))).
  { apply Forall_forall. intros k Hk. apply list_elem_of_In, in_map_iff in Hk as ([k' v] & <- & Hin).
    apply list_elem_of_In, elem_of_map_to_list in Hin. simpl. split; [by eapply Hwav | eauto]. }
  rewrite filter_all by (eapply Forall_impl; [exact Hkeys | by intros ? [? _]]).
  unfold sorted. split.
  - rewrite length_map, (Permutation_length (merge_sort_Permutation _ _)),
      length_map. apply length_map_to_list.
  - apply Forall_forall. intros p Hp.
    apply list_elem_of_In, in_map_iff in Hp as (k & <- & Hin). simpl. split; [done|].
    apply list_elem_of_In in Hin. rewrite merge_sort_Permutation in Hin.
    rewrite Forall_forall in Hkeys. by apply Hkeys.
Qed.

Lemma collect_Forall2 {A B} (P : A -> B -> Prop) (body : A -> M B) :
  (forall x w r w', body x w = (Ok r, w') -> P x r) ->
  forall xs w rs w', collect xs body w = (Ok rs, w') -> Forall2 P xs rs.
Proof.
  intros Hbody xs. induction xs as [|x xs IH]; intros w rs w' Hrun; simpl in Hrun.
  - inversion Hrun. constructor.
  - apply bind_Ok in Hrun as (r & w1 & Hr & Hrun).
    apply bind_Ok in Hrun as (rs' & w2 & Hrs & Hrun).
    inversion Hrun; subst. constructor; eauto.
Qed.

Lemma backend_score_segment_file_name E scaler lang tok p w r w' :
  Backend.score_segment E scaler lang tok p w = (Ok r, w') -> file_name r = basename p.
Proof.
  unfold Backend.score_segment. intros H.
  apply bind_Ok in H as (a & w1 & _ & H).
  apply bind_Ok in H as (t & w2 & _ & H).
  apply bind_Ok in H as (l & w3 & _ & H).
  apply bind_Ok in H as ([preds probs] & w4 & _ & H).
  apply bind_Ok in H as (prob & w5 & _ & H).
  by inversion H.
Qed.

(** [save_predictions] always returns: it makes sure of the folder,
    writes the file and reports it. *)
Lemma save_predictions_run (E : Env) (output_dir : string) (rows : list ScoredSegment)
    (w : world) :
  exists w',
    Prediction.save_predictions E output_dir rows w
    = (Ok (output_dir, "predictions.csv"), w') /\
    trace w' = trace w ++ [SavePredictions rows] /\
    loaded w' = loaded w /\
    lookup_file (fs w') (output_dir, "predictions.csv") = Some (Bytes (to_csv E rows)).
Proof.
  unfold Prediction.save_predictions, makedirs, write_file.
  rewrite bind_run. destruct (fs w !! output_dir) as [files|] eqn:Hd.
  - rewrite bind_run. simpl. rewrite Hd. eexists. split; [reflexivity|].
    repeat split. unfold lookup_file. simpl.
    rewrite lookup_alter_eq, Hd. simpl. apply lookup_insert_eq.
  - rewrite bind_run. simpl. rewrite lookup_insert_eq. eexists. split; [reflexivity|].
    repeat split. unfold lookup_file. simpl.
    rewrite lookup_alter_eq, lookup_insert_eq. simpl. apply lookup_insert_eq.
Qed.


(** What a successful run of the backend pipeline has saved. *)
Lemma backend_pipeline_rows (E : Env) (scaler : StandardScaler) (file_path : path)
    (lang : string) (w : world) (c : file_data) (audio : AudioSegment)
    (label : string) :
  fst file_path <> Backend.PROCESSED_DIR ->
  lookup_file (fs w) file_path = Some c ->
  decodes E c audio ->
  0 < len audio ->
  fst (Backend.pipeline E scaler file_path lang w) = Ok label ->
  exists rows,
    last (trace (snd (Backend.pipeline E scaler file_path lang w)))
    = Some (SavePredictions rows) /\
    Z.of_nat (length rows)
    = (if len audio <? 20000 then 1
       else len audio / 20000 + (if len audio `mod` 20000 =? 0 then 0 else 1)) /\
    Forall thresholded rows /\
    Forall (fun r => is_Some (segment_folder audio (basename file_path) !! file_name r)) rows /\
    label = label_of (Prediction.weighted_majority_voting rows).
Proof.
  intros Hne Hc Hdec Hpos Hfst.
  destruct (Backend.pipeline E scaler file_path lang w) as [r w'] eqn:Hrun.
  simpl in Hfst. subst r. simpl. unfold Backend.pipeline in Hrun.
  destruct (process_single_audio_file_keeps_upload E file_path Backend.PROCESSED_DIR w c
              audio Hne Hc Hdec Hpos) as (w1 & Hseg & Hdir & _).
  rewrite bind_run, Hseg, bind_run in Hrun. unfold listdir at 1 in Hrun.
  rewrite Hdir in Hrun.
  destruct (wav_files_of_folder Backend.PROCESSED_DIR
              (segment_folder audio (basename file_path))
              (segment_folder_wav _ _)) as [Hlen Hfiles].
  pose proof (segment_folder_size audio (basename file_path) Hpos) as Hsize.
  destruct (wav_files Backend.PROCESSED_DIR
              (map fst (map_to_list (segment_folder audio (basename file_path)))))
    as [|p ps] eqn:Hwav; [discriminate|].
  apply bind_Ok in Hrun as ([] & w2 & _ & Hrun).
  apply bind_Ok in Hrun as (tok & w3 & _ & Hrun).
  apply bind_Ok in Hrun as (rows & w4 & Hrows & Hrun).
  apply bind_Ok in Hrun as (saved & w5 & Hsave & Hrun).
  inversion Hrun; subst.
  destruct (save_predictions_run E Backend.OUTPUTS_DIR rows w4) as (w5 & Hrun5 & Htrace & _).
  rewrite Hrun5 in Hsave. inversion Hsave; subst.
  exists rows. split; [rewrite Htrace; apply last_snoc|].
  pose proof (collect_Forall2 (fun p r => file_name r = basename p) _
                (backend_score_segment_file_name E scaler lang tok) _ _ _ _ Hrows) as Hnames.
  split; [|split; [|split]].
  - rewrite <- (Forall2_length _ _ _ Hnames), Hlen. done.
  - by eapply collect_Forall; [apply backend_score_segment_thresholded | exact Hrows].
  - clear -Hnames Hfiles. induction Hnames as [|q r qs rs Hq _ IH]; [constructor|].
    apply Forall_cons in Hfiles as [[_ Hfile] Hfiles].
    constructor; [by rewrite Hq | by apply IH].
  - done.
Qed.

(** X9: when the backend pipeline returns a label for a recording of at
    least 1 ms, the last thing it did was to save the audit rows; there
    is one row per segment of the recording, each row names a file of the
    folder of segments and carries the thresholded label, and the label
    returned is the weighted vote over exactly these rows. *)
Theorem successful_request_audit (E : Env) (scaler : StandardScaler) (file_path : path)
    (lang : string) (w : world) (c : file_data) (audio : AudioSegment)
    (label : string) :
  fst file_path <> Backend.PROCESSED_DIR ->
  lookup_file (fs w) file_path = Some c ->
  decodes E c audio ->
  0 < len audio ->
  fst (Backend.pipeline E scaler file_path lang w) = Ok label ->
  exists rows,
    last (trace (snd (Backend.pipeline E scaler file_path lang w)))
    = Some (SavePredictions rows) /\
    Z.of_nat (length rows)
    = (if len audio <? 20000 then 1
       else len audio / 20000 + (if len audio `mod` 20000 =? 0 then 0 else 1)) /\
    Forall thresholded rows /\
    Forall (fun r => is_Some (segment_folder audio (basename file_path) !! file_name r)) rows /\
    label = label_of (Prediction.weighted_majority_voting rows).
Proof. apply backend_pipeline_rows. Qed.

Lemma successful_request_audit_witness :
  exists rows,
    last (trace (snd (Backend.pipeline Sample.env (Some []) Sample.recording "en"
                        (Sample.upload (Wav [90; 90; 90])))))
    = Some (SavePredictions rows) /\
    Z.of_nat (length rows)
    = (if len [90; 90; 90] <? 20000 then 1
       else len [90; 90; 90] / 20000 + (if len [90; 90; 90] `mod` 20000 =? 0 then 0 else 1)) /\
    Forall thresholded rows /\
    Forall (fun r => is_Some (segment_folder [90; 90; 90] (basename Sample.recording)
                                !! file_name r)) rows /\
    "AD" = label_of (Prediction.weighted_majority_voting rows).
Proof.
  apply (successful_request_audit Sample.env (Some []) Sample.recording "en"
           (Sample.upload (Wav [90; 90; 90])) (Wav [90; 90; 90]) [90; 90; 90] "AD").
  - discriminate.
  - reflexivity.
  - left. reflexivity.
  - reflexivity.
  - vm_compute. reflexivity.
Defined.

(** ** Languages and ASR models *)

(** A pipeline that raised never ends in a label. *)
Lemma raised_pipeline_gives_no_label (body : M string) (fin : M unit) (w : world) (e : exn)
    (label : string) :
  fst (body w) = Raise e ->
  fst (try_finally (try_except body is_Exception (fun _ => mret ERROR_LABEL)) fin w) = Ok label ->
  label = ERROR_LABEL.
Proof.
  unfold try_finally, try_except. destruct (body w) as [r w1]. simpl. intros ->.
  destruct (is_Exception e); simpl.
  - destruct (fin w1) as [[[]|e'] w2]; simpl; intros H; by inversion H.
  - destruct (fin w1) as [[[]|e'] w2]; simpl; intros H; by inversion H.
Qed.

(** With a [finally] block that cannot fail, a pipeline that raised ends
    in the error outcome, unless what it raised is no Exception. *)
Lemma raised_pipeline_gives_error (body : M string) (fin : M unit) (w : world) (e : exn) :
  (forall w1, exists w2, fin w1 = (Ok tt, w2)) ->
  fst (body w) = Raise e ->
  match fst (try_finally (try_except body is_Exception (fun _ => mret ERROR_LABEL)) fin w) with
  | Ok label => label = ERROR_LABEL
  | Raise e' => is_Exception e' = false
  end.
Proof.
  intros Hfin. unfold try_finally, try_except. destruct (body w) as [r w1]. simpl. intros ->.
  destruct (is_Exception e) eqn:He; simpl.
  - destruct (Hfin w1) as [w2 ->]. done.
  - destruct (Hfin w1) as [w2 ->]. done.
Qed.

Lemma backend_finalize_returns (w1 : world) : exists w2, Backend.finalize w1 = (Ok tt, w2).
Proof. destruct (backend_finalize_run w1) as (w2 & H & _). eauto. Qed.

Lemma load_language_model_unsupported (E : Env) (lang : string) (w : world) :
  Transcription.model_name_of lang = None ->
  Transcription.load_language_model E lang w = (Raise ValueError, w).
Proof. intros H. unfold Transcription.load_language_model. by rewrite H. Qed.

Lemma backend_pipeline_unsupported (E : Env) (scaler : StandardScaler) (file_path : path)
    (lang : string) (w : world) :
  Transcription.model_name_of lang = None ->
  exists e, fst (Backend.pipeline E scaler file_path lang w) = Raise e.
Proof.
  intros Hlang. unfold Backend.pipeline. rewrite bind_run.
  destruct (Segmentation.process_single_audio_file E file_path Backend.PROCESSED_DIR w)
    as [[[]|e] w1]; [|eauto].
  rewrite bind_run. destruct (listdir Backend.PROCESSED_DIR w1) as [[names|e] w2]; [|eauto].
  destruct (wav_files Backend.PROCESSED_DIR names) as [|p ps]; [eauto|].
  rewrite bind_run, load_language_model_unsupported by done. eauto.
Qed.

Lemma server_pipeline_unsupported (E : Env) (scaler : StandardScaler) (file_path : path)
    (lang : string) (w : world) :
  Transcription.model_name_of lang = None ->
  exists e, fst (Server.pipeline E scaler file_path lang w) = Raise e.
Proof.
  intros Hlang. unfold Server.pipeline. rewrite bind_run.
  destruct (makedirs Server.processed_folder true w) as [[[]|e] w0]; [|eauto].
  rewrite bind_run.
  destruct (Segmentation.process_single_audio_file_server E file_path
              Server.processed_folder w0) as [[[]|e] w1]; [|eauto].
  rewrite bind_run. destruct (listdir Server.processed_folder w1) as [[names|e] w2]; [|eauto].
  destruct (wav_files Server.processed_folder names) as [|p ps]; [eauto|].
  rewrite bind_run, load_language_model_unsupported by done. eauto.
Qed.

(** X10: a language code outside the six codes of [language_models]
    never gets a verdict.  The backend orchestrator returns the error
    outcome for it (or lets an exception that is no Exception through);
    the only string the server orchestrator can return for it is the
    error outcome too. *)
Theorem unsupported_language_gets_no_verdict (E : Env) (scaler : StandardScaler)
    (file_path : path) (lang : string) (w : world) :
  Transcription.model_name_of lang = None ->
  match fst (Backend.predict_final_classification E scaler file_path lang w) with
  | Ok label => label = ERROR_LABEL
  | Raise e => is_Exception e = false
  end /\
  (forall label,
     fst (Server.predict_final_classification E scaler file_path lang w) = Ok label ->
     label = ERROR_LABEL).
Proof.
  intros Hlang. split.
  - destruct (backend_pipeline_unsupported E scaler file_path lang w Hlang) as [e He].
    by apply raised_pipeline_gives_error with (e := e); [apply backend_finalize_returns|].
  - intros label.
    destruct (server_pipeline_unsupported E scaler file_path lang w Hlang) as [e He].
    by apply raised_pipeline_gives_no_label with (e := e).
Qed.

Lemma unsupported_language_gets_no_verdict_witness :
  match fst (Backend.predict_final_classification Sample.env (Some []) Sample.recording "fr"
               (Sample.upload (Wav [90; 90; 90]))) with
  | Ok label => label = ERROR_LABEL
  | Raise e => is_Exception e = false
  end /\
  (forall label,
     fst (Server.predict_final_classification Sample.env (Some []) Sample.server_recording "fr"
            (Sample.server_upload (Wav [90; 90; 90]))) = Ok label ->
     label = ERROR_LABEL).
Proof.
  split.
  - apply (proj1 (unsupported_language_gets_no_verdict Sample.env (Some []) Sample.recording
                    "fr" (Sample.upload (Wav [90; 90; 90])) eq_refl)).
  - apply (proj2 (unsupported_language_gets_no_verdict Sample.env (Some [])
                    Sample.server_recording "fr" (Sample.server_upload (Wav [90; 90; 90]))
                    eq_refl)).
Defined.

Lemma load_language_model_failed (E : Env) (lang name : string) (w : world) (e : exn) :
  Transcription.model_name_of lang = Some name ->
  from_pretrained E name = Raise e ->
  is_Exception e = true ->
  Transcription.load_language_model E lang w
  = (Ok tt, set_loaded (insert lang None) w).
Proof.
  intros Hname Hload He. unfold Transcription.load_language_model, try_except.
  rewrite Hname, bind_run. unfold lift. rewrite Hload. simpl. by rewrite He.
Qed.

Lemma backend_score_segment_unloaded (E : Env) (scaler : StandardScaler) (lang : string)
    (p : path) (w : world) :
  exists e, fst (Backend.score_segment E scaler lang None p w) = Raise e.
Proof.
  unfold Backend.score_segment. rewrite bind_run.
  destruct (Backend.extract_all_features E p w) as [[a|e] w1]; [|eauto].
  rewrite bind_run, transcribe_audio_unloaded. eauto.
Qed.

Lemma server_score_segment_unloaded (E : Env) (scaler : StandardScaler) (lang : string)
    (p : path) (w : world) :
  exists e, fst (Server.score_segment E scaler lang None p w) = Raise e.
Proof.
  unfold Server.score_segment. rewrite bind_run.
  destruct (Backend.extract_all_features E p w) as [[a|e] w1]; [|eauto].
  rewrite bind_run, transcribe_audio_unloaded. eauto.
Qed.

Lemma collect_first_raises {A B} (body : A -> M B) (x : A) (xs : list A) (w : world) :
  (exists e, fst (body x w) = Raise e) ->
  exists e, fst (collect (x :: xs) body w) = Raise e.
Proof.
  intros [e He]. simpl. rewrite bind_run.
  destruct (body x w) as [r w1]. simpl in He. subst r. eauto.
Qed.

Lemma backend_pipeline_failed_load (E : Env) (scaler : StandardScaler) (file_path : path)
    (lang name : string) (w : world) (e : exn) :
  Transcription.model_name_of lang = Some name ->
  from_pretrained E name = Raise e ->
  is_Exception e = true ->
  exists e', fst (Backend.pipeline E scaler file_path lang w) = Raise e'.
Proof.
  intros Hname Hload He. unfold Backend.pipeline. rewrite bind_run.
  destruct (Segmentation.process_single_audio_file E file_path Backend.PROCESSED_DIR w)
    as [[[]|e1] w1]; [|eauto].
  rewrite bind_run. destruct (listdir Backend.PROCESSED_DIR w1) as [[names|e1] w2]; [|eauto].
  destruct (wav_files Backend.PROCESSED_DIR names) as [|p ps]; [eauto|].
  rewrite bind_run, (load_language_model_failed E lang name w2 e) by done.
  rewrite bind_run. unfold Transcription.get_language_model at 1.
  rewrite bind_run. simpl. rewrite lookup_insert_eq. simpl. rewrite bind_run.
  destruct (collect_first_raises (Backend.score_segment E scaler lang None) p ps
              (set_loaded (insert lang None) w2)
              (backend_score_segment_unloaded E scaler lang p _)) as [e' He'].
  simpl in He'.
  match type of He' with fst ?run = _ => destruct run as [r w3] end.
  simpl in He'. subst r. simpl. eauto.
Qed.

Lemma server_pipeline_failed_load (E : Env) (scaler : StandardScaler) (file_path : path)
    (lang name : string) (w : world) (e : exn) :
  Transcription.model_name_of lang = Some name ->
  from_pretrained E name = Raise e ->
  is_Exception e = true ->
  exists e', fst (Server.pipeline E scaler file_path lang w) = Raise e'.
Proof.
  intros Hname Hload He. unfold Server.pipeline. rewrite bind_run.
  destruct (makedirs Server.processed_folder true w) as [[[]|e0] w0]; [|eauto].
  rewrite bind_run.
  destruct (Segmentation.process_single_audio_file_server E file_path
              Server.processed_folder w0) as [[[]|e1] w1]; [|eauto].
  rewrite bind_run. destruct (listdir Server.processed_folder w1) as [[names|e1] w2]; [|eauto].
  destruct (wav_files Server.processed_folder names) as [|p ps]; [eauto|].
  rewrite bind_run, (load_language_model_failed E lang name w2 e) by done.
  rewrite bind_run. unfold Transcription.get_language_model at 1.
  rewrite bind_run. simpl. rewrite lookup_insert_eq. simpl. rewrite bind_run.
  destruct (collect_first_raises (Server.score_segment E scaler lang None) p ps
              (set_loaded (insert lang None) w2)
              (server_score_segment_unloaded E scaler lang p _)) as [e' He'].
  simpl in He'.
  match type of He' with fst ?run = _ => destruct run as [r w3] end.
  simpl in He'. subst r. simpl. eauto.
Qed.

(** X11: [load_language_model] swallows a failure to load the ASR model
    and stores [None] for the tokenizer and the model; no request for
    that language can then return a verdict, since the first segment
    already fails to be transcribed: the backend orchestrator returns
    the error outcome (or lets an exception that is no Exception
    through), and the server orchestrator can return no other string. *)
Theorem failed_model_load_gets_no_verdict (E : Env) (scaler : StandardScaler)
    (file_path : path) (lang name : string) (w : world) (e : exn) :
  Transcription.model_name_of lang = Some name ->
  from_pretrained E name = Raise e ->
  is_Exception e = true ->
  Transcription.load_language_model E lang w = (Ok tt, set_loaded (insert lang None) w) /\
  match fst (Backend.predict_final_classification E scaler file_path lang w) with
  | Ok label => label = ERROR_LABEL
  | Raise e' => is_Exception e' = false
  end /\
  (forall label,
     fst (Server.predict_final_classification E scaler file_path lang w) = Ok label ->
     label = ERROR_LABEL).
Proof.
  intros Hname Hload He. split; [by apply load_language_model_failed with (name := name) (e := e)|].
  split.
  - destruct (backend_pipeline_failed_load E scaler file_path lang name w e Hname Hload He)
      as [e' He'].
    by apply raised_pipeline_gives_error with (e := e'); [apply backend_finalize_returns|].
  - intros label.
    destruct (server_pipeline_failed_load E scaler file_path lang name w e Hname Hload He)
      as [e' He'].
    by apply raised_pipeline_gives_no_label with (e := e').
Qed.

Lemma failed_model_load_gets_no_verdict_witness :
  Transcription.load_language_model Offline.env "en" (Sample.upload (Wav [90; 90; 90]))
  = (Ok tt, set_loaded (insert "en" None) (Sample.upload (Wav [90; 90; 90]))) /\
  match fst (Backend.predict_final_classification Offline.env (Some []) Sample.recording "en"
               (Sample.upload (Wav [90; 90; 90]))) with
  | Ok label => label = ERROR_LABEL
  | Raise e' => is_Exception e' = false
  end /\
  (forall label,
     fst (Server.predict_final_classification Offline.env (Some []) Sample.recording "en"
            (Sample.upload (Wav [90; 90; 90]))) = Ok label ->
     label = ERROR_LABEL).
Proof.
  apply (failed_model_load_gets_no_verdict Offline.env (Some []) Sample.recording "en"
           "facebook/wav2vec2-large-960h" (Sample.upload (Wav [90; 90; 90])) OtherException).
  - reflexivity.
  - reflexivity.
  - reflexivity.
Defined.

(** ** What a request leaves alone *)

Section KeepsFile.
Context (q : path).

Lemma keeps_ret {A} (a : A) : keeps_file q (mret a : M A).
Proof. by intros w. Qed.

Lemma keeps_raise {A} (e : exn) : keeps_file q (raise e : M A).
Proof. by intros w. Qed.

Lemma keeps_lift {A} (r : result A) : keeps_file q (lift r).
Proof. by intros w. Qed.

Lemma keeps_gets {A} (f : world -> A) : keeps_file q (gets f).
Proof. by intros w. Qed.

Lemma keeps_log (e : event) : keeps_file q (modify (log_event e)).
Proof. by intros w. Qed.

Lemma keeps_set_loaded f : keeps_file q (modify (set_loaded f)).
Proof. by intros w. Qed.

Lemma keeps_bind {A B} (m : M A) (f : A -> M B) :
  keeps_file q m -> (forall a, keeps_file q (f a)) -> keeps_file q (m ≫= f).
Proof.
  intros Hm Hf w. rewrite bind_run. specialize (Hm w).
  destruct (m w) as [[a|e] w1]; simpl in *; [|done].
  by rewrite (Hf a w1).
Qed.

Lemma keeps_try_except {A} (body : M A) (catches : exn -> bool) (handler : exn -> M A) :
  keeps_file q body -> (forall e, keeps_file q (handler e)) ->
  keeps_file q (try_except body catches handler).
Proof.
  intros Hb Hh w. unfold try_except. specialize (Hb w).
  destruct (body w) as [[a|e] w1]; simpl in *; [done|].
  destruct (catches e); [|done]. by rewrite (Hh e w1).
Qed.

Lemma keeps_for_each {A} (xs : list A) (body : A -> M unit) :
  (forall x, keeps_file q (body x)) -> keeps_file q (for_each xs body).
Proof.
  intros Hb. induction xs as [|x xs IH]; simpl; [apply keeps_ret|].
  apply keeps_bind; [apply Hb | by intros _].
Qed.

Lemma keeps_collect {A B} (xs : list A) (body : A -> M B) :
  (forall x, keeps_file q (body x)) -> keeps_file q (collect xs body).
Proof.
  intros Hb. induction xs as [|x xs IH]; simpl; [apply keeps_ret|].
  apply keeps_bind; [apply Hb|]. intros r.
  apply keeps_bind; [apply IH|]. intros rs. apply keeps_ret.
Qed.

Lemma keeps_write_file (p : path) (c : file_data) : p <> q -> keeps_file q (write_file p c).
Proof.
  intros Hne w. unfold write_file.
  destruct (fs w !! fst p) as [d|] eqn:Hd; simpl; [|done].
  unfold lookup_file. destruct (decide (fst p = fst q)) as [Heq|Hdir].
  - rewrite <- Heq, lookup_alter_eq, Hd. simpl.
    rewrite lookup_insert_ne; [done|].
    intros Hname. apply Hne. destruct p, q; simpl in *; congruence.
  - by rewrite lookup_alter_ne.
Qed.

Lemma keeps_os_remove (p : path) : p <> q -> keeps_file q (os_remove p).
Proof.
  intros Hne w. unfold os_remove.
  destruct (lookup_file (fs w) p) as [c|] eqn:Hp; simpl; [|done].
  unfold lookup_file. destruct (decide (fst p = fst q)) as [Heq|Hdir].
  - rewrite <- Heq, lookup_alter_eq. destruct (fs w !! fst p) as [d|]; simpl; [|done].
    rewrite lookup_delete_ne; [done|].
    intros Hname. apply Hne. destruct p, q; simpl in *; congruence.
  - by rewrite lookup_alter_ne.
Qed.

Lemma keeps_rmtree (d : string) : d <> fst q -> keeps_file q (rmtree d).
Proof.
  intros Hne w. unfold rmtree. destruct (fs w !! d); simpl; [|done].
  unfold lookup_file. by rewrite lookup_delete_ne.
Qed.

Lemma keeps_makedirs (d : string) (exist_ok : bool) : keeps_file q (makedirs d exist_ok).
Proof.
  intros w. unfold makedirs. destruct (fs w !! d) as [files|] eqn:Hd; simpl.
  - by destruct exist_ok.
  - unfold lookup_file. destruct (decide (d = fst q)) as [<-|Hne].
    + by rewrite lookup_insert_eq, Hd.
    + by rewrite lookup_insert_ne.
Qed.

Section Pipeline.
Context (E : Env) (scaler : StandardScaler).

Lemma keeps_from_file (p : path) : keeps_file q (Segmentation.from_file E p).
Proof.
  unfold Segmentation.from_file. apply keeps_bind; [apply keeps_log|]. intros _.
  apply keeps_bind; [apply keeps_gets|]. intros [[a|raw]|];
    [apply keeps_ret | apply keeps_lift | apply keeps_raise].
Qed.

Lemma keeps_load_audio (p : path) :
  reencoded_path p <> q -> keeps_file q (Segmentation.load_audio E p).
Proof.
  intros Hne. unfold Segmentation.load_audio.
  apply keeps_try_except.
  { apply keeps_bind; [apply keeps_from_file|]. intros a. apply keeps_ret. }
  intros _. apply keeps_bind.
  - unfold Segmentation.reencode_audio. apply keeps_try_except; [|intros _; apply keeps_ret].
    apply keeps_bind; [|intros _; apply keeps_ret].
    unfold Segmentation.run_ffmpeg. apply keeps_bind; [apply keeps_log|]. intros _.
    apply keeps_bind; [apply keeps_gets|]. intros [c|]; [|apply keeps_raise].
    apply keeps_bind; [apply keeps_lift|]. intros out. by apply keeps_write_file.
  - intros [rp|]; [|apply keeps_ret].
    apply keeps_try_except; [|intros _; apply keeps_ret].
    apply keeps_bind; [apply keeps_from_file|]. intros a. apply keeps_ret.
Qed.

Lemma keeps_export (audio : AudioSegment) (folder name : string) :
  folder <> fst q -> keeps_file q (Segmentation.export audio (folder, name)).
Proof.
  intros Hne. apply keeps_write_file. intros Heq. apply Hne. by rewrite <- Heq.
Qed.

Lemma keeps_split_audio (audio : AudioSegment) (p : path) (folder : string) :
  folder <> fst q -> keeps_file q (Segmentation.split_audio audio p folder).
Proof.
  intros Hne. unfold Segmentation.split_audio.
  destruct (len audio <? 20 * 1000).
  - unfold Segmentation.process_short_audio, floordiv.
    apply keeps_bind; [destruct (len audio =? 0); [apply keeps_raise | apply keeps_ret]|].
    intros n. by apply keeps_export.
  - unfold Segmentation.process_long_audio, floordiv.
    apply keeps_bind; [destruct (20 * 1000 =? 0); [apply keeps_raise | apply keeps_ret]|].
    intros n. apply keeps_bind.
    + apply keeps_for_each. intros i. by apply keeps_export.
    + intros _. destruct (0 <? len audio `mod` (20 * 1000)); [|apply keeps_ret].
      apply keeps_bind;
        [destruct (len audio `mod` (20 * 1000) =? 0); [apply keeps_raise | apply keeps_ret]|].
      intros m. by apply keeps_export.
Qed.

Lemma keeps_clean_folder (folder : string) :
  folder <> fst q -> keeps_file q (Segmentation.clean_folder folder).
Proof.
  intros Hne. unfold Segmentation.clean_folder.
  apply keeps_bind; [apply keeps_gets|]. intros ex.
  apply keeps_bind; [|intros _; apply keeps_makedirs].
  destruct ex; [by apply keeps_rmtree | apply keeps_ret].
Qed.

Lemma keeps_process_single_audio_file (p : path) (folder : string) :
  folder <> fst q -> reencoded_path p <> q ->
  keeps_file q (Segmentation.process_single_audio_file E p folder).
Proof.
  intros Hne Hre. unfold Segmentation.process_single_audio_file.
  apply keeps_bind; [apply keeps_gets|]. intros ok.
  destruct (negb ok); [apply keeps_ret|].
  apply keeps_bind; [by apply keeps_clean_folder|]. intros _.
  apply keeps_bind; [by apply keeps_load_audio|]. intros [audio|]; [|apply keeps_ret].
  by apply keeps_split_audio.
Qed.

Lemma keeps_process_single_audio_file_server (p : path) (folder : string) :
  folder <> fst q -> reencoded_path p <> q ->
  keeps_file q (Segmentation.process_single_audio_file_server E p folder).
Proof.
  intros Hne Hre. unfold Segmentation.process_single_audio_file_server.
  apply keeps_bind; [by apply keeps_clean_folder|]. intros _.
  apply keeps_bind; [apply keeps_gets|]. intros ok.
  destruct (negb ok); [apply keeps_ret|].
  apply keeps_bind; [by apply keeps_load_audio|]. intros [audio|]; [|apply keeps_ret].
  by apply keeps_split_audio.
Qed.

Lemma keeps_transcribe_audio (p : path) (tok : option string) :
  keeps_file q (Transcription.transcribe_audio E p tok).
Proof.
  unfold Transcription.transcribe_audio.
  apply keeps_try_except; [|intros _; apply keeps_ret].
  apply keeps_bind; [apply keeps_gets|]. intros [c|]; [|apply keeps_raise].
  destruct tok as [name|]; [|apply keeps_raise].
  apply keeps_bind; [apply keeps_lift|]. intros t. apply keeps_ret.
Qed.

Lemma keeps_predict (X : DataFrame) : keeps_file q (Prediction.predict E scaler X).
Proof.
  unfold Prediction.predict.
  apply keeps_bind.
  { unfold Prediction.scaler_transform. apply keeps_bind; [apply keeps_log|]. intros _.
    destruct scaler; [apply keeps_lift | apply keeps_raise]. }
  intros Y. apply keeps_bind; [apply keeps_lift|]. intros sel.
  apply keeps_bind; [apply keeps_lift|]. intros preds.
  apply keeps_bind; [apply keeps_lift|]. intros proba. apply keeps_ret.
Qed.

Lemma keeps_extract_all_features (p : path) :
  keeps_file q (Backend.extract_all_features E p).
Proof.
  unfold Backend.extract_all_features.
  apply keeps_bind; [apply keeps_gets|]. intros [c|]; [apply keeps_lift | apply keeps_ret].
Qed.

Lemma keeps_backend_score_segment (lang : string) (tok : option string) (p : path) :
  keeps_file q (Backend.score_segment E scaler lang tok p).
Proof.
  unfold Backend.score_segment.
  apply keeps_bind; [apply keeps_extract_all_features|]. intros a.
  apply keeps_bind; [apply keeps_transcribe_audio|]. intros t.
  apply keeps_bind.
  { unfold Linguistic.extract_linguistic_features. destruct t as [text|]; [|apply keeps_raise].
    destruct (Linguistic.is_blank text); [apply keeps_ret|].
    apply keeps_try_except; [|intros _; apply keeps_ret].
    apply keeps_bind; [apply keeps_lift|]. intros _.
    apply keeps_bind; [apply keeps_lift|]. intros f. apply keeps_ret. }
  intros L. apply keeps_bind; [apply keeps_predict|]. intros [preds probs].
  apply keeps_bind; [destruct probs; [apply keeps_raise | apply keeps_ret]|].
  intros prob. apply keeps_ret.
Qed.

Lemma keeps_server_score_segment (lang : string) (tok : option string) (p : path) :
  keeps_file q (Server.score_segment E scaler lang tok p).
Proof.
  unfold Server.score_segment.
  apply keeps_bind; [apply keeps_extract_all_features|]. intros a.
  apply keeps_bind; [apply keeps_transcribe_audio|]. intros t.
  apply keeps_bind.
  { unfold Linguistic.extract_linguistic_features_server.
    destruct t as [text|]; [|apply keeps_raise].
    apply keeps_bind; [apply keeps_lift|]. intros _.
    apply keeps_try_except; [apply keeps_lift | intros _; apply keeps_ret]. }
  intros L. apply keeps_bind; [apply keeps_predict|]. intros [preds probs].
  apply keeps_bind; [destruct probs; [apply keeps_raise | apply keeps_ret]|].
  intros prob. apply keeps_ret.
Qed.

Lemma keeps_load_language_model (lang : string) :
  keeps_file q (Transcription.load_language_model E lang).
Proof.
  unfold Transcription.load_language_model.
  destruct (Transcription.model_name_of lang) as [name|]; [|apply keeps_raise].
  apply keeps_try_except; [|intros _; apply keeps_set_loaded].
  apply keeps_bind; [apply keeps_lift|]. intros _. apply keeps_set_loaded.
Qed.

Lemma keeps_save_predictions (output_dir : string) (rows : list ScoredSegment) :
  (output_dir, "predictions.csv") <> q ->
  keeps_file q (Prediction.save_predictions E output_dir rows).
Proof.
  intros Hne. unfold Prediction.save_predictions.
  apply keeps_bind; [apply keeps_makedirs|]. intros _.
  apply keeps_bind; [by apply keeps_write_file|]. intros _.
  apply keeps_bind; [apply keeps_log|]. intros _. apply keeps_ret.
Qed.

Lemma keeps_scoring (lang : string) (files : list path) (output_dir : string)
    (score : option string -> path -> M ScoredSegment) :
  (output_dir, "predictions.csv") <> q ->
  (forall tok p, keeps_file q (score tok p)) ->
  keeps_file q
    (match files with
     | [] => raise FileNotFoundError
     | _ =>
         Transcription.load_language_model E lang;;
         tokenizer_model ← Transcription.get_language_model lang;
         results ← collect files (score tokenizer_model);
         Prediction.save_predictions E output_dir results;;
         mret (label_of (Prediction.weighted_majority_voting results))
     end).
Proof.
  intros Hout Hscore. destruct files as [|p ps]; [apply keeps_raise|].
  apply keeps_bind; [apply keeps_load_language_model|]. intros _.
  apply keeps_bind.
  { unfold Transcription.get_language_model. apply keeps_bind; [apply keeps_gets|].
    intros [h|]; [apply keeps_ret | apply keeps_raise]. }
  intros tok. apply keeps_bind; [apply keeps_collect; intros x; apply Hscore|].
  intros rows. apply keeps_bind; [by apply keeps_save_predictions|]. intros _.
  apply keeps_ret.
Qed.

Lemma keeps_listdir (d : string) : keeps_file q (listdir d).
Proof. intros w. unfold listdir. by destruct (fs w !! d). Qed.

Lemma keeps_backend_pipeline (file_path : path) (lang : string) :
  Backend.PROCESSED_DIR <> fst q -> reencoded_path file_path <> q ->
  (Backend.OUTPUTS_DIR, "predictions.csv") <> q ->
  keeps_file q (Backend.pipeline E scaler file_path lang).
Proof.
  intros Hdir Hre Hout. unfold Backend.pipeline.
  apply keeps_bind; [by apply keeps_process_single_audio_file|]. intros _.
  apply keeps_bind; [apply keeps_listdir|]. intros names.
  apply (keeps_scoring lang _ _ (Backend.score_segment E scaler lang)); [done|].
  intros tok p. apply keeps_backend_score_segment.
Qed.

Lemma keeps_server_pipeline (file_path : path) (lang : string) :
  Server.processed_folder <> fst q -> reencoded_path file_path <> q ->
  (Server.outputs, "predictions.csv") <> q ->
  keeps_file q (Server.pipeline E scaler file_path lang).
Proof.
  intros Hdir Hre Hout. unfold Server.pipeline.
  apply keeps_bind; [apply keeps_makedirs|]. intros _.
  apply keeps_bind; [by apply keeps_process_single_audio_file_server|]. intros _.
  apply keeps_bind; [apply keeps_listdir|]. intros names.
  apply (keeps_scoring lang _ _ (Server.score_segment E scaler lang)); [done|].
  intros tok p. apply keeps_server_score_segment.
Qed.

End Pipeline.
End KeepsFile.

Lemma keeps_try_finally {A} (q : path) (body : M A) (fin : M unit) :
  keeps_file q body -> keeps_file q fin -> keeps_file q (try_finally body fin).
Proof.
  intros Hb Hf w. rewrite try_finally_run. by rewrite Hf, Hb.
Qed.

Lemma keeps_backend_finalize (q : path) :
  Backend.PROCESSED_DIR <> fst q ->
  q <> (Backend.UPLOAD_DIR, "recording.wav") ->
  q <> (Backend.UPLOAD_DIR, "test_connection.wav") ->
  keeps_file q Backend.finalize.
Proof.
  intros Hdir H1 H2. unfold Backend.finalize.
  apply keeps_bind.
  { unfold Backend.delete_directory. apply keeps_bind; [apply keeps_gets|].
    intros [|]; [|apply keeps_ret].
    apply keeps_try_except; [by apply keeps_rmtree | intros _; apply keeps_ret]. }
  intros _. apply keeps_bind.
  { unfold Backend.safe_delete_file. apply keeps_bind; [apply keeps_gets|].
    intros [|]; [|apply keeps_ret].
    apply keeps_try_except; [by apply keeps_os_remove | intros _; apply keeps_ret]. }
  intros _. unfold Backend.safe_delete_file. apply keeps_bind; [apply keeps_gets|].
  intros [|]; [|apply keeps_ret].
  apply keeps_try_except; [by apply keeps_os_remove | intros _; apply keeps_ret].
Qed.

Lemma backend_request_keeps (E : Env) (scaler : StandardScaler) (file_path : path)
    (lang : string) (q : path) :
  Backend.PROCESSED_DIR <> fst q ->
  reencoded_path file_path <> q ->
  q <> (Backend.UPLOAD_DIR, "recording.wav") ->
  q <> (Backend.UPLOAD_DIR, "test_connection.wav") ->
  q <> (Backend.OUTPUTS_DIR, "predictions.csv") ->
  keeps_file q (Backend.predict_final_classification E scaler file_path lang).
Proof.
  intros Hdir Hre H1 H2 Hout. unfold Backend.predict_final_classification.
  apply keeps_try_finally; [|by apply keeps_backend_finalize].
  apply keeps_try_except; [by apply keeps_backend_pipeline | intros _; apply keeps_ret].
Qed.



(** ** The upload that a request consumed *)

Lemma cancel_process_backend_keeps (w : world) (d : string) :
  d <> Http.API_PROCESSED_FOLDER ->
  fs (snd (Http.cancel_process_backend w)) !! d = fs w !! d.
Proof.
  intros Hne. unfold Http.cancel_process_backend, try_except, Http.clear_processed_audio.
  rewrite !bind_run. unfold exists_dir, gets, rmtree, makedirs.
  destruct (fs w !! Http.API_PROCESSED_FOLDER) as [files|] eqn:Hd.
  - rewrite bool_decide_true by eauto. rewrite !bind_run, Hd. simpl.
    rewrite lookup_delete_eq. simpl. rewrite lookup_insert_ne by done.
    by rewrite lookup_delete_ne.
  - rewrite bool_decide_false by (intros [? ?]; congruence). done.
Qed.

Lemma cancel_process_server_keeps (w : world) (d : string) :
  d <> Server.processed_folder ->
  fs (snd (Http.cancel_process_server w)) !! d = fs w !! d.
Proof.
  intros Hne. unfold Http.cancel_process_server, try_except.
  rewrite !bind_run. unfold exists_dir, gets, rmtree.
  destruct (fs w !! Server.processed_folder) as [files|] eqn:Hd.
  - rewrite bool_decide_true by eauto. rewrite bind_run. cbv iota. rewrite Hd. simpl.
    by rewrite lookup_delete_ne.
  - rewrite bool_decide_false by (intros [? ?]; congruence). done.
Qed.

(** C8 at a request to the backend, whose upload the handler of /upload
    stored as recording_<timestamp>.wav in the upload folder of
    backend/api/server.py.  The [finally] block runs on every exit and the
    folder of segments is gone, but the files it removes are the fixed
    names recording.wav and test_connection.wav of another folder: the
    upload that the request consumed is still there, unchanged, after
    any outcome.  A cancel request does not reach the [finally] block at
    all: the handler of the backend empties its own folder, not the one
    the pipeline writes the segments to, and both handlers leave the
    uploads in place. *)
Theorem consumed_upload_is_not_deleted (E : Env) (scaler : StandardScaler)
    (name lang : string) (w : world) (c : file_data) :
  lookup_file (fs w) (Http.API_UPLOAD_FOLDER, name) = Some c ->
  (let w' := snd (Backend.predict_final_classification E scaler
                    (Http.API_UPLOAD_FOLDER, name) lang w) in
   fs w' !! Backend.PROCESSED_DIR = None /\
   lookup_file (fs w') (Http.API_UPLOAD_FOLDER, name) = Some c) /\
  (let w' := snd (Http.cancel_process_backend w) in
   fs w' !! Backend.PROCESSED_DIR = fs w !! Backend.PROCESSED_DIR /\
   lookup_file (fs w') (Http.API_UPLOAD_FOLDER, name) = Some c) /\
  (let w' := snd (Http.cancel_process_server w) in
   fs w' !! Server.uploads = fs w !! Server.uploads).
Proof.
  intros Hc. split; [|split]; cbv zeta.
  - split.
    + unfold Backend.predict_final_classification. rewrite try_finally_run.
      destruct (backend_finalize_run
                  (snd (try_except (Backend.pipeline E scaler (Http.API_UPLOAD_FOLDER, name) lang)
                          is_Exception (fun _ => mret ERROR_LABEL) w)))
        as (w' & -> & H1 & _).
      done.
    + rewrite <- Hc. apply backend_request_keeps; try done.
      intros Heq. apply (reencoded_name_differs name).
      by apply (f_equal snd) in Heq.
  - split; [by apply cancel_process_backend_keeps|].
    unfold lookup_file. by rewrite cancel_process_backend_keeps.
  - by apply cancel_process_server_keeps.
Qed.

Lemma consumed_upload_is_not_deleted_witness :
  (let w' := snd (Backend.predict_final_classification Sample.env (Some [])
                    (Http.API_UPLOAD_FOLDER, "recording_20240101_120000.wav") "en"
                    Sample.in_flight_backend) in
   fs w' !! Backend.PROCESSED_DIR = None /\
   lookup_file (fs w') (Http.API_UPLOAD_FOLDER, "recording_20240101_120000.wav")
   = Some (Wav [5; 5])) /\
  (let w' := snd (Http.cancel_process_backend Sample.in_flight_backend) in
   fs w' !! Backend.PROCESSED_DIR = fs Sample.in_flight_backend !! Backend.PROCESSED_DIR /\
   lookup_file (fs w') (Http.API_UPLOAD_FOLDER, "recording_20240101_120000.wav")
   = Some (Wav [5; 5])) /\
  (let w' := snd (Http.cancel_process_server Sample.in_flight_backend) in
   fs w' !! Server.uploads = fs Sample.in_flight_backend !! Server.uploads).
Proof.
  apply (consumed_upload_is_not_deleted Sample.env (Some [])
           "recording_20240101_120000.wav" "en" Sample.in_flight_backend (Wav [5; 5])).
  reflexivity.
Defined.

(** ** The unguarded removals of the server's cleanup *)

Lemma server_finalize_missing_upload (w : world) :
  lookup_file (fs w) (Server.uploads, "recording.wav") = None \/
  lookup_file (fs w) (Server.uploads, "test_connection.wav") = None ->
  fst (Server.finalize w) = Raise FileNotFoundError.
Proof.
  intros Hmissing. unfold Server.finalize.
  rewrite bind_run, server_delete_directory_run, bind_run.
  set (w1 := set_fs (delete Server.processed_folder) w).
  assert (Hsame : forall name, lookup_file (fs w1) (Server.uploads, name)
                               = lookup_file (fs w) (Server.uploads, name)).
  { intros name. unfold lookup_file. simpl. by rewrite lookup_delete_ne. }
  pose proof (keeps_os_remove (Server.uploads, "test_connection.wav")
                (Server.uploads, "recording.wav") ltac:(discriminate) w1) as Hkeep.
  destruct (os_remove (Server.uploads, "recording.wav") w1) as [[[]|e] w2] eqn:Hrm;
    simpl in Hkeep |- *.
  - unfold os_remove in Hrm. rewrite (Hsame "recording.wav") in Hrm.
    destruct Hmissing as [Hrec|Htest]; [by rewrite Hrec in Hrm|].
    unfold os_remove. by rewrite Hkeep, Hsame, Htest.
  - unfold os_remove in Hrm.
    destruct (lookup_file (fs w1) (Server.uploads, "recording.wav")); by inversion Hrm.
Qed.

Lemma server_finalize_removes_recording (w : world) :
  lookup_file (fs (snd (Server.finalize w))) (Server.uploads, "recording.wav") = None.
Proof.
  unfold Server.finalize.
  rewrite bind_run, server_delete_directory_run, bind_run.
  set (w1 := set_fs (delete Server.processed_folder) w).
  assert (Hrm : lookup_file (fs (snd (os_remove (Server.uploads, "recording.wav") w1)))
                  (Server.uploads, "recording.wav") = None).
  { unfold os_remove.
    destruct (lookup_file (fs w1) (Server.uploads, "recording.wav")) eqn:Hrec; [|done].
    apply (lookup_file_alter_delete _ (Server.uploads, "recording.wav")). }
  destruct (os_remove (Server.uploads, "recording.wav") w1) as [[[]|e] w2]; simpl in *; [|done].
  by rewrite (keeps_os_remove (Server.uploads, "recording.wav")
                (Server.uploads, "test_connection.wav") ltac:(discriminate) w2).
Qed.

Lemma finally_raises {A} (body : M A) (fin : M unit) (w : world) (e : exn) :
  fst (fin (snd (body w))) = Raise e -> fst (try_finally body fin w) = Raise e.
Proof.
  unfold try_finally. destruct (body w) as [r w1]. simpl.
  destruct (fin w1) as [[[]|e'] w2]; simpl; intros H; [discriminate H | by injection H as ->].
Qed.

Lemma server_request_raises (E : Env) (scaler : StandardScaler) (file_path : path)
    (lang : string) (w : world) :
  reencoded_path file_path <> (Server.uploads, "recording.wav") ->
  reencoded_path file_path <> (Server.uploads, "test_connection.wav") ->
  lookup_file (fs w) (Server.uploads, "recording.wav") = None \/
  lookup_file (fs w) (Server.uploads, "test_connection.wav") = None ->
  fst (Server.predict_final_classification E scaler file_path lang w)
  = Raise FileNotFoundError.
Proof.
  intros Hre1 Hre2 Hmissing. unfold Server.predict_final_classification.
  apply finally_raises, server_finalize_missing_upload.
  assert (Hkeep : forall q, Server.processed_folder <> fst q -> reencoded_path file_path <> q ->
            (Server.outputs, "predictions.csv") <> q ->
            keeps_file q (try_except (Server.pipeline E scaler file_path lang) is_Exception
                            (fun _ => mret ERROR_LABEL))).
  { intros q Hdir Hre Hout. apply keeps_try_except;
      [by apply keeps_server_pipeline | intros _; apply keeps_ret]. }
  destruct Hmissing as [H|H]; [left|right]; rewrite Hkeep; try done.
Qed.

Lemma server_request_removes_recording (E : Env) (scaler : StandardScaler) (file_path : path)
    (lang : string) (w : world) :
  lookup_file (fs (snd (Server.predict_final_classification E scaler file_path lang w)))
    (Server.uploads, "recording.wav") = None.
Proof.
  unfold Server.predict_final_classification. rewrite try_finally_run.
  apply server_finalize_removes_recording.
Qed.

(** X13: the server's cleanup removes its two upload files without a
    guard.  If recording.wav or test_connection.wav is missing when a
    request starts, the request raises FileNotFoundError out of the
    [finally] block, whatever the pipeline had computed: no label and no
    error string is returned. *)
Theorem server_request_needs_both_uploads (E : Env) (scaler : StandardScaler)
    (file_path : path) (lang : string) (w : world) :
  reencoded_path file_path <> (Server.uploads, "recording.wav") ->
  reencoded_path file_path <> (Server.uploads, "test_connection.wav") ->
  lookup_file (fs w) (Server.uploads, "recording.wav") = None \/
  lookup_file (fs w) (Server.uploads, "test_connection.wav") = None ->
  fst (Server.predict_final_classification E scaler file_path lang w)
  = Raise FileNotFoundError.
Proof. apply server_request_raises. Qed.

Lemma server_request_needs_both_uploads_witness :
  fst (Server.predict_final_classification Sample.env (Some []) Sample.server_recording "en"
         {| fs := {[ Server.uploads := {[ "recording.wav" := Wav [90; 90; 90] ]} ]};
            loaded := ∅; trace := [] |})
  = Raise FileNotFoundError.
Proof.
  apply (server_request_needs_both_uploads Sample.env (Some []) Sample.server_recording "en").
  - discriminate.
  - discriminate.
  - right. reflexivity.
Defined.

(** X14: the server's orchestrator cannot be called twice on one upload:
    whatever the first request did, recording.wav is gone afterwards and a
    second request raises FileNotFoundError. *)
Theorem server_second_request_raises (E : Env) (scaler : StandardScaler)
    (first second : path) (lang1 lang2 : string) (w : world) :
  reencoded_path second <> (Server.uploads, "recording.wav") ->
  reencoded_path second <> (Server.uploads, "test_connection.wav") ->
  let w1 := snd (Server.predict_final_classification E scaler first lang1 w) in
  lookup_file (fs w1) (Server.uploads, "recording.wav") = None /\
  fst (Server.predict_final_classification E scaler second lang2 w1)
  = Raise FileNotFoundError.
Proof.
  intros Hre1 Hre2 w1.
  assert (Hgone : lookup_file (fs w1) (Server.uploads, "recording.wav") = None)
    by apply server_request_removes_recording.
  split; [done|]. apply server_request_raises; auto.
Qed.

Lemma server_second_request_raises_witness :
  let w1 := snd (Server.predict_final_classification Sample.env (Some [])
                   Sample.server_recording "en" (Sample.server_upload (Wav [90; 90; 90]))) in
  lookup_file (fs w1) (Server.uploads, "recording.wav") = None /\
  fst (Server.predict_final_classification Sample.env (Some [])
         Sample.server_recording "en" w1)
  = Raise FileNotFoundError.
Proof.
  apply (server_second_request_raises Sample.env (Some []) Sample.server_recording
           Sample.server_recording "en" "en" (Sample.server_upload (Wav [90; 90; 90]))).
  - discriminate.
  - discriminate.
Defined.

(** ** A recording of a single segment *)

Lemma single_row_vote (r : ScoredSegment) :
  thresholded r -> Prediction.weighted_majority_voting [r] = Prediction r.
Proof.
  intros (H1 & H0 & _). rewrite vote_decision.
  unfold float_positive_sum, float_negative_sum. simpl.
  destruct (Qlt_le_dec (Probability r) 0.28) as [Hlt|Hle].
  - apply H0 in Hlt as Hp. rewrite Hp. simpl.
    destruct (Qgt_bool _ _) eqn:Hgt; [|done].
    apply Qgt_bool_iff in Hgt. exfalso. revert Hgt. apply Qle_not_lt.
    rewrite sum_nil. apply sum_nonneg. constructor; [|done].
    apply b64_nonneg. unfold Qminus. rewrite <- Qle_minus_iff.
    apply Qlt_le_weak. eapply Qlt_trans; [exact Hlt | reflexivity].
  - apply H1 in Hle as Hp. rewrite Hp. simpl.
    destruct (Qgt_bool _ _) eqn:Hgt; [done|].
    assert (Hpos : (Numpy.sum [] < Numpy.sum [Probability r])%Q).
    { rewrite sum_nil. apply sum_pos; [done|]. constructor; [|done].
      eapply Qlt_le_trans; [|exact Hle]. reflexivity. }
    apply Qgt_bool_iff in Hpos. congruence.
Qed.

(** X15: for a recording shorter than 20 s the verdict is the
    thresholded probability of its single padded segment: when the
    backend pipeline returns a label, exactly one row was saved and the
    label is AD if the probability of that row is at least 0.28 and HC if
    it is below. *)
Theorem short_recording_verdict (E : Env) (scaler : StandardScaler) (file_path : path)
    (lang : string) (w : world) (c : file_data) (audio : AudioSegment) (label : string) :
  fst file_path <> Backend.PROCESSED_DIR ->
  lookup_file (fs w) file_path = Some c ->
  decodes E c audio ->
  0 < len audio < 20000 ->
  fst (Backend.pipeline E scaler file_path lang w) = Ok label ->
  exists r,
    last (trace (snd (Backend.pipeline E scaler file_path lang w)))
    = Some (SavePredictions [r]) /\
    ((0.28 <= Probability r)%Q -> label = "AD") /\
    ((Probability r < 0.28)%Q -> label = "HC").
Proof.
  intros Hne Hc Hdec Hlen Hrun.
  destruct (backend_pipeline_rows E scaler file_path lang w c audio label
              Hne Hc Hdec ltac:(lia) Hrun) as (rows & Hlast & Hcount & Hthr & _ & Hlabel).
  destruct (Z.ltb_spec (len audio) 20000); [|lia].
  destruct rows as [|r [|r' rows]]; simpl in Hcount; try lia.
  exists r. split; [done|].
  apply Forall_cons in Hthr as [Hr _].
  rewrite (single_row_vote r Hr) in Hlabel. destruct Hr as (H1 & H0 & _).
  split; intros Hp.
  - apply H1 in Hp. by rewrite Hlabel, Hp.
  - apply H0 in Hp. by rewrite Hlabel, Hp.
Qed.

Lemma short_recording_verdict_witness :
  exists r,
    last (trace (snd (Backend.pipeline Sample.env (Some []) Sample.recording "en"
                        (Sample.upload (Wav [90; 90; 90])))))
    = Some (SavePredictions [r]) /\
    ((0.28 <= Probability r)%Q -> "AD" = "AD") /\
    ((Probability r < 0.28)%Q -> "AD" = "HC").
Proof.
  apply (short_recording_verdict Sample.env (Some []) Sample.recording "en"
           (Sample.upload (Wav [90; 90; 90])) (Wav [90; 90; 90]) [90; 90; 90] "AD").
  - discriminate.
  - reflexivity.
  - left. reflexivity.
  - split; reflexivity.
  - vm_compute. reflexivity.
Defined.

(** ** The whole-file path of backend/api/prediction.py *)

Lemma fillna_median_single_row (r : Row) :
  ApiPrediction.fillna_median (DataFrame_of_row r) = DataFrame_of_row r.
Proof.
  unfold ApiPrediction.fillna_median, DataFrame_of_row.
  induction r as [|[k v] r IH]; simpl; [done|].
  rewrite IH. by destruct v.
Qed.

Lemma extract_linguistic_features_one_row (E : Env) (t : option string) (lang : string)
    (w : world) (L : DataFrame) (w' : world) :
  Linguistic.extract_linguistic_features E t lang w = (Ok L, w') ->
  exists l, L = DataFrame_of_row l.
Proof.
  unfold Linguistic.extract_linguistic_features. destruct t as [text|]; [|discriminate].
  destruct (Linguistic.is_blank text); [intros H; inversion H; eauto|].
  unfold try_except. rewrite bind_run.
  destruct (lift (spacy_nlp E lang text) w) as [[[]|e] w1].
  - rewrite bind_run. destruct (lift (lftk_extract E lang text) w1) as [[f|e] w2].
    + intros H; inversion H; eauto.
    + destruct (is_Exception e); intros H; inversion H; eauto.
  - destruct (is_Exception e); intros H; inversion H; eauto.
Qed.

Lemma DataFrame_of_row_app (a l : Row) :
  concat_axis1 (DataFrame_of_row a) (DataFrame_of_row l) = DataFrame_of_row (a ++ l).
Proof. unfold concat_axis1, DataFrame_of_row. by rewrite map_app. Qed.

(** X16: the median imputation of [prepare_features] never changes a
    cell.  The frame it works on has a single row, so a missing cell is
    its whole column: what [prepare_features] returns is the plain
    concatenation of the acoustic and the linguistic features, missing
    values included. *)
Theorem prepare_features_imputes_nothing (E : Env) (audio_path : path)
    (language_code : string) (w : world) (X : DataFrame) (w' : world) :
  ApiPrediction.prepare_features E audio_path language_code w = (Ok X, w') ->
  exists (acoustic_df linguistic_df : DataFrame) (w1 : world),
    ApiPrediction.extract_acoustic_features E audio_path w = (Ok acoustic_df, w1) /\
    Linguistic.extract_linguistic_features E
      (Some (ApiPrediction.path_string audio_path)) language_code w1
    = (Ok linguistic_df, w') /\
    X = concat_axis1 acoustic_df linguistic_df.
Proof.
  unfold ApiPrediction.prepare_features. intros H.
  apply bind_Ok in H as (A & w1 & HA & H).
  apply bind_Ok in H as (L & w2 & HL & H).
  inversion H; subst. exists A, L, w1. split; [done|]. split; [done|].
  destruct (extract_linguistic_features_one_row _ _ _ _ _ _ HL) as [l ->].
  assert (Ha : exists a, A = DataFrame_of_row a).
  { unfold ApiPrediction.extract_acoustic_features in HA.
    apply bind_Ok in HA as ([cnt|] & w0 & _ & HA).
    - apply bind_Ok in HA as (f & w0' & _ & HA). inversion HA. eauto.
    - inversion HA. by exists []. }
  destruct Ha as [a ->].
  by rewrite DataFrame_of_row_app, fillna_median_single_row.
Qed.

Lemma prepare_features_imputes_nothing_witness :
  exists (acoustic_df linguistic_df : DataFrame) (w1 : world),
    ApiPrediction.extract_acoustic_features Sample.env Sample.recording
      (Sample.deployed (Wav [90])) = (Ok acoustic_df, w1) /\
    Linguistic.extract_linguistic_features Sample.env
      (Some (ApiPrediction.path_string Sample.recording)) "en" w1
    = (Ok linguistic_df, Sample.deployed (Wav [90])) /\
    [("zcr", [Num (90 # 100)]); ("t_word", [Num 3]); ("t_sent", [Num 1])]
    = concat_axis1 acoustic_df linguistic_df.
Proof.
  apply (prepare_features_imputes_nothing Sample.env Sample.recording "en"
           (Sample.deployed (Wav [90]))).
  reflexivity.
Defined.

Lemma np_round_unit_interval (m : Q) :
  (0 <= m)%Q -> (m <= 1)%Q ->
  ((1 # 2 < m)%Q -> ApiPrediction.np_round m = 1) /\
  ((m <= 1 # 2)%Q -> ApiPrediction.np_round m = 0).
Proof.
  intros H0 H1. unfold ApiPrediction.np_round.
  assert (Hfl : Qfloor m = 0 \/ Qfloor m = 1).
  { pose proof (Qfloor_resp_le _ _ H0) as Ha. pose proof (Qfloor_resp_le _ _ H1) as Hb.
    change (Qfloor 0) with 0 in Ha. change (Qfloor 1) with 1 in Hb. lia. }
  destruct Hfl as [Hf|Hf]; rewrite Hf.
  - change (inject_Z 0) with 0%Q.
    assert (Hd : (m - 0 == m)%Q) by ring.
    rewrite (Qgt_bool_proper (1 # 2) (1 # 2) (m - 0) m) by (done || reflexivity).
    rewrite (Qgt_bool_proper (m - 0) m (1 # 2) (1 # 2)) by (done || reflexivity).
    split; intros Hm.
    + destruct (Qgt_bool (1 # 2) m) eqn:Ha.
      { apply Qgt_bool_iff in Ha. exfalso. eapply Qlt_irrefl, Qlt_trans; eauto. }
      apply Qgt_bool_iff in Hm. by rewrite Hm.
    + destruct (Qgt_bool (1 # 2) m) eqn:Ha; [done|].
      destruct (Qgt_bool m (1 # 2)) eqn:Hb; [|done].
      apply Qgt_bool_iff in Hb. exfalso. by apply (Qlt_not_le _ _ Hb).
  - assert (Hm1 : (m == 1)%Q).
    { apply Qle_antisym; [done|]. pose proof (Qfloor_le m) as Hle. by rewrite Hf in Hle. }
    change (inject_Z 1) with 1%Q.
    rewrite (Qgt_bool_proper (1 # 2) (1 # 2) (m - 1) 0) by (reflexivity || (rewrite Hm1; ring)).
    split; intros Hm; [done|].
    rewrite Hm1 in Hm. by exfalso.
Qed.

(** X17: the whole-file path decides at one half, not at 0.28.  With a
    fitted scaler, when every step succeeds and the mean [m] of the
    probabilities lies between 0 and 1, the label is "Alzheimer's
    Detected" exactly when [m] is above one half; a mean of exactly one
    half gives "Healthy Control". *)
Theorem whole_file_path_decides_at_one_half (E : Env) (audio_path : path)
    (language_code : string) (w : world) (X : DataFrame) (w1 : world)
    (params : scaler_params) (Y : list (list value)) (proba : list (Q * Q)) (m : Q) :
  is_Some (lookup_file (fs w) ApiPrediction.MODEL_PATH) ->
  is_Some (lookup_file (fs w) ApiPrediction.SCALER_PATH) ->
  ApiPrediction.prepare_features E audio_path language_code w = (Ok X, w1) ->
  scaler_apply E params X = Ok Y ->
  model_predict_proba E (Prediction.with_columns (map fst X) Y) = Ok proba ->
  ApiPrediction.mean (map snd proba) = Ok m ->
  (0 <= m)%Q -> (m <= 1)%Q ->
  ((1 # 2 < m)%Q ->
   fst (ApiPrediction.predict_final_classification E (Some params) audio_path language_code w)
   = Ok "Alzheimer's Detected") /\
  ((m <= 1 # 2)%Q ->
   fst (ApiPrediction.predict_final_classification E (Some params) audio_path language_code w)
   = Ok "Healthy Control").
Proof.
  intros Hm Hs Hprep Happly Hproba Hmean H0 H1.
  assert (Hrun : fst (ApiPrediction.predict_final_classification E (Some params) audio_path
                        language_code w)
                 = Ok (if ApiPrediction.np_round m =? 1
                       then "Alzheimer's Detected" else "Healthy Control")).
  { unfold ApiPrediction.predict_final_classification, try_except.
    rewrite bind_run, load_model_and_scaler_run by done.
    rewrite bind_run, Hprep, bind_run.
    unfold Prediction.scaler_transform at 1. rewrite bind_run. simpl.
    unfold lift. rewrite Happly. simpl.
    rewrite !bind_run, Hproba. simpl. rewrite bind_run, Hmean. reflexivity. }
  rewrite Hrun. destruct (np_round_unit_interval m H0 H1) as [Hhi Hlo].
  split; intros Hcmp; [by rewrite Hhi | by rewrite Hlo].
Qed.

Lemma whole_file_path_decides_at_one_half_witness :
  fst (ApiPrediction.predict_final_classification Sample.env (Some []) Sample.recording "en"
         (Sample.deployed (Wav [50])))
  = Ok "Healthy Control".
Proof.
  apply (proj2 (whole_file_path_decides_at_one_half Sample.env Sample.recording "en"
                  (Sample.deployed (Wav [50]))
                  [("zcr", [Num (50 # 100)]); ("t_word", [Num 3]); ("t_sent", [Num 1])]
                  (Sample.deployed (Wav [50])) []
                  [[Num (50 # 100)]; [Num 3]; [Num 1]]
                  [((1 - (50 # 100))%Q, 50 # 100)] (1 # 2)
                  ltac:(vm_compute; eauto) ltac:(vm_compute; eauto)
                  ltac:(vm_compute; reflexivity) ltac:(vm_compute; reflexivity)
                  ltac:(vm_compute; reflexivity) ltac:(vm_compute; reflexivity)
                  ltac:(vm_compute; discriminate) ltac:(vm_compute; discriminate))).
  vm_compute. discriminate.
Defined.

(** X18: [predict_final_classification] of backend/api/prediction.py
    lets no Exception out and returns one of three strings; when the
    model file or the scaler file is missing it returns the error string
    without having called the scaler. *)
Theorem whole_file_path_outcomes (E : Env) (saved_scaler : StandardScaler)
    (audio_path : path) (language_code : string) (w : world) :
  (match fst (ApiPrediction.predict_final_classification E saved_scaler audio_path
                language_code w) with
   | Ok label => label = "Alzheimer's Detected" \/ label = "Healthy Control" \/
                 label = "Error: Prediction failed."
   | Raise e => is_Exception e = false
   end) /\
  (lookup_file (fs w) ApiPrediction.MODEL_PATH = None \/
   lookup_file (fs w) ApiPrediction.SCALER_PATH = None ->
   ApiPrediction.predict_final_classification E saved_scaler audio_path language_code w
   = (Ok "Error: Prediction failed.", w)).
Proof.
  split.
  - unfold ApiPrediction.predict_final_classification. unfold try_except at 1.
    match goal with |- context [match ?body w with _ => _ end] =>
      assert (Hbody : match fst (body w) with
                      | Ok label => label = "Alzheimer's Detected" \/ label = "Healthy Control"
                      | Raise _ => True
                      end); [|destruct (body w) as [[label|e] w1]]
    end.
    + rewrite bind_run.
      destruct (ApiPrediction.load_model_and_scaler saved_scaler w) as [[s|e] w1]; [|done].
      rewrite bind_run.
      destruct (ApiPrediction.prepare_features E audio_path language_code w1)
        as [[X|e] w2]; [|done].
      rewrite bind_run.
      match goal with |- context [@try_except ?T ?a ?b ?c w2] =>
        destruct (@try_except T a b c w2) as [[Y|e] w3]; [|done] end.
      rewrite bind_run.
      match goal with |- context [@lift ?T ?a w3] =>
        destruct (@lift T a w3) as [[proba|e] w4]; [|done] end.
      rewrite bind_run.
      match goal with |- context [@lift ?T ?a w4] =>
        destruct (@lift T a w4) as [[m|e] w5]; [|done] end.
      simpl. destruct (ApiPrediction.np_round m =? 1); auto.
    + simpl in *. tauto.
    + simpl. destruct (is_Exception e) eqn:He; simpl; auto.
  - intros Hmissing.
    unfold ApiPrediction.predict_final_classification, try_except.
    rewrite bind_run. unfold ApiPrediction.load_model_and_scaler, exists_file.
    rewrite bind_run, isfile_run.
    destruct (lookup_file (fs w) ApiPrediction.MODEL_PATH) as [c|] eqn:Hmodel.
    + destruct Hmissing as [?|Hscaler]; [done|].
      rewrite bool_decide_true by eauto. simpl.
      rewrite bind_run, isfile_run, Hscaler.
      rewrite bool_decide_false by (intros [? ?]; congruence). reflexivity.
    + rewrite bool_decide_false by (intros [? ?]; congruence). reflexivity.
Qed.

Lemma whole_file_path_outcomes_witness :
  ApiPrediction.predict_final_classification Sample.env (Some []) Sample.recording "en"
    (Sample.upload (Wav [50]))
  = (Ok "Error: Prediction failed.", Sample.upload (Wav [50])).
Proof.
  apply (proj2 (whole_file_path_outcomes Sample.env (Some []) Sample.recording "en"
                  (Sample.upload (Wav [50])))).
  left. reflexivity.
Defined.

(** ** The model's features *)

Lemma select_columns_Ok (df : DataFrame) (names : list string) (cols : DataFrame) :
  Prediction.select_columns df names = Ok cols ->
  map fst cols = names /\ Forall (fun c => c ∈ df) cols.
Proof.
  revert cols. induction names as [|n names IH]; simpl; intros cols H.
  - inversion H. by split.
  - destruct (find (fun col => String.eqb (fst col) n) df) as [col|] eqn:Hfind; [|done].
    destruct (Prediction.select_columns df names) as [cols'|e]; [|done].
    inversion H; subst. destruct (IH cols' eq_refl) as [Hn Hin].
    apply find_some in Hfind as [Hcol Heq]. apply String.eqb_eq in Heq.
    split; [simpl; congruence|].
    constructor; [by apply list_elem_of_In|done].
Qed.

Lemma select_columns_missing (df : DataFrame) (names : list string) (n : string) :
  n ∈ names -> n ∉ map fst df ->
  Prediction.select_columns df names = Raise KeyError.
Proof.
  intros Hin Hout. induction names as [|n' names IH]; [by apply elem_of_nil in Hin|].
  simpl. destruct (find (fun col => String.eqb (fst col) n') df) as [col|] eqn:Hfind; [|done].
  apply elem_of_cons in Hin as [->|Hin].
  - apply find_some in Hfind as [Hcol Heq]. apply String.eqb_eq in Heq.
    exfalso. apply Hout. subst n'. apply list_elem_of_fmap. exists col.
    split; [done|by apply list_elem_of_In].
  - by rewrite (IH Hin).
Qed.

Lemma with_columns_names (names : list string) (cols : list (list value)) (n : string) :
  n ∈ map fst (Prediction.with_columns names cols) -> n ∈ names.
Proof.
  unfold Prediction.with_columns. revert cols.
  induction names as [|m names IH]; intros [|c cols]; simpl; try (by intros H; apply elem_of_nil in H).
  intros H. apply elem_of_cons in H as [->|H]; [by left|right; eauto].
Qed.

(** X19: a feature the classifier was trained on and that the combined
    frame lacks is a KeyError of [predict]: no prediction is returned
    for such a frame, whatever the scaler is, and with a scaler that
    transforms the frame the exception is the KeyError of the column
    selection. *)
Theorem missing_model_feature_is_a_KeyError (E : Env) (scaler : StandardScaler)
    (combined_features : DataFrame) (n : string) (w : world) :
  n ∈ feature_names_in_ E ->
  n ∉ map fst combined_features ->
  (exists e, fst (Prediction.predict E scaler combined_features w) = Raise e) /\
  (forall params Y,
     scaler = Some params ->
     scaler_apply E params combined_features = Ok Y ->
     Prediction.predict E scaler combined_features w
     = (Raise KeyError, log_event (ScalerTransform combined_features) w)).
Proof.
  intros Hin Hout.
  assert (Hsel : forall Y,
            Prediction.select_columns
              (Prediction.with_columns (map fst combined_features) Y) (feature_names_in_ E)
            = Raise KeyError).
  { intros Y. apply select_columns_missing with (n := n); [done|].
    intros H. by apply Hout, with_columns_names with (cols := Y). }
  split.
  - unfold Prediction.predict. rewrite bind_run.
    destruct (Prediction.scaler_transform E scaler combined_features w) as [[Y|e] w1]; [|eauto].
    rewrite bind_run. unfold lift at 1. rewrite Hsel. eauto.
  - intros params Y -> Happly. unfold Prediction.predict, Prediction.scaler_transform.
    rewrite !bind_run. simpl. unfold lift at 1. rewrite Happly.
    rewrite bind_run. unfold lift at 1. by rewrite Hsel.
Qed.

Lemma missing_model_feature_is_a_KeyError_witness :
  (exists e, fst (Prediction.predict Sample.env (Some []) [("zcr", [Num 1])]
                    (Sample.upload (Wav [1]))) = Raise e) /\
  (forall params Y,
     Some [] = Some params ->
     scaler_apply Sample.env params [("zcr", [Num 1])] = Ok Y ->
     Prediction.predict Sample.env (Some []) [("zcr", [Num 1])] (Sample.upload (Wav [1]))
     = (Raise KeyError, log_event (ScalerTransform [("zcr", [Num 1])]) (Sample.upload (Wav [1])))).
Proof.
  apply (missing_model_feature_is_a_KeyError Sample.env (Some []) [("zcr", [Num 1])] "t_word"
           (Sample.upload (Wav [1]))).
  - vm_compute. apply elem_of_cons. right. apply elem_of_cons. by left.
  - vm_compute. intros H. apply elem_of_cons in H as [H|H]; [discriminate|].
    by apply elem_of_nil in H.
Defined.

Lemma zip_functional {A B} (ks : list A) (vs : list B) (k : A) (v v' : B) :
  NoDup ks -> (k, v) ∈ zip ks vs -> (k, v') ∈ zip ks vs -> v = v'.
Proof.
  intros Hnd. revert vs. induction Hnd as [|k0 ks Hk0 _ IH]; intros [|v0 vs]; simpl;
    try (by intros H; apply elem_of_nil in H).
  intros H1 H2. apply elem_of_cons in H1 as [H1|H1], H2 as [H2|H2].
  - congruence.
  - inversion H1; subst. by apply elem_of_zip_l in H2.
  - inversion H2; subst. by apply elem_of_zip_l in H1.
  - by apply (IH vs).
Qed.

(** X20: what the classifier sees.  When [predict] returns, the scaler
    was fit and has transformed the combined frame, nothing else was
    done to the world, and the frame handed to [model.predict] and to
    [model.predict_proba] holds exactly the model's features, in the
    model's order, each one the scaled column of the combined frame
    that has this label: columns the model does not know are dropped,
    and the returned probabilities are the second column of
    [predict_proba].  The labels of the combined frame are taken to be
    distinct, which makes the column of a label unique (of a repeated
    label pandas would select every copy). *)
Theorem predict_selects_the_model_features (E : Env) (scaler : StandardScaler)
    (combined_features : DataFrame) (w : world) (preds : list Z) (probs : list Q)
    (w' : world) :
  NoDup (map fst combined_features) ->
  Prediction.predict E scaler combined_features w = (Ok (preds, probs), w') ->
  exists (params : scaler_params) (Y : list (list value)) (selected : DataFrame)
         (proba : list (Q * Q)),
    scaler = Some params /\
    scaler_apply E params combined_features = Ok Y /\
    w' = log_event (ScalerTransform combined_features) w /\
    map fst selected = feature_names_in_ E /\
    Forall (fun c =>
              c ∈ zip (map fst combined_features) Y /\
              forall y, (fst c, y) ∈ zip (map fst combined_features) Y -> y = snd c)
      selected /\
    model_predict E selected = Ok preds /\
    model_predict_proba E selected = Ok proba /\
    probs = map snd proba.
Proof.
  intros Hnd H. unfold Prediction.predict in H.
  apply bind_Ok in H as (Y & w1 & Hscale & H).
  apply bind_Ok in H as (selected & w2 & Hsel & H).
  apply bind_Ok in H as (preds' & w3 & Hp & H).
  apply bind_Ok in H as (proba & w4 & Hpr & H).
  inversion H; subst.
  unfold lift in Hsel, Hp, Hpr.
  destruct (Prediction.select_columns _ _) as [sel|e] eqn:Hs in Hsel; [|done].
  inversion Hsel; subst.
  destruct (model_predict E selected) as [p|e] eqn:Hmp; [|done]. inversion Hp; subst.
  destruct (model_predict_proba E selected) as [pr|e] eqn:Hmpp; [|done]. inversion Hpr; subst.
  destruct (select_columns_Ok _ _ _ Hs) as [Hnames Hcols].
  unfold Prediction.scaler_transform in Hscale. rewrite bind_run in Hscale. simpl in Hscale.
  destruct scaler as [params|]; [|done].
  unfold lift in Hscale.
  destruct (scaler_apply E params combined_features) as [Y'|e] eqn:Happly; [|done].
  inversion Hscale; subst.
  exists params, Y, selected, proba. repeat split; try done.
  eapply Forall_impl; [exact Hcols|]. intros [n col] Hin. split; [done|].
  intros y Hy. simpl. symmetry. exact (zip_functional _ _ _ _ _ Hnd Hin Hy).
Qed.

Lemma predict_selects_the_model_features_witness :
  exists (params : scaler_params) (Y : list (list value)) (selected : DataFrame)
         (proba : list (Q * Q)),
    Some [] = Some params /\
    scaler_apply Sample.env params
      [("t_sent", [Num 1]); ("t_word", [Num 3]); ("zcr", [Num (90 # 100)])] = Ok Y /\
    log_event (ScalerTransform [("t_sent", [Num 1]); ("t_word", [Num 3]);
                                ("zcr", [Num (90 # 100)])])
      (Sample.upload (Wav [1]))
    = log_event (ScalerTransform [("t_sent", [Num 1]); ("t_word", [Num 3]);
                                  ("zcr", [Num (90 # 100)])])
        (Sample.upload (Wav [1])) /\
    map fst selected = feature_names_in_ Sample.env /\
    Forall (fun c =>
              c ∈ zip (map fst [("t_sent", [Num 1]); ("t_word", [Num 3]);
                                ("zcr", [Num (90 # 100)])]) Y /\
              forall y, (fst c, y) ∈ zip (map fst [("t_sent", [Num 1]); ("t_word", [Num 3]);
                                                   ("zcr", [Num (90 # 100)])]) Y ->
                        y = snd c)
      selected /\
    model_predict Sample.env selected = Ok [1] /\
    model_predict_proba Sample.env selected = Ok proba /\
    [90 # 100] = map snd proba.
Proof.
  apply (predict_selects_the_model_features Sample.env (Some [])
           [("t_sent", [Num 1]); ("t_word", [Num 3]); ("zcr", [Num (90 # 100)])]
           (Sample.upload (Wav [1])) [1] [90 # 100]
           (log_event (ScalerTransform [("t_sent", [Num 1]); ("t_word", [Num 3]);
                                         ("zcr", [Num (90 # 100)])])
              (Sample.upload (Wav [1])))).
  - repeat constructor; vm_compute; intros H;
      repeat (apply elem_of_cons in H as [H|H]; [discriminate|]); by apply elem_of_nil in H.
  - vm_compute. reflexivity.
Defined.

(** ** A path that is not a file *)



(** X22: the backend orchestrator on an upload that does not exist.
    With no processed folder, or an empty one, the request ends in the
    error outcome without any collaborator having been called: nothing
    is decoded, scaled or saved. *)
Theorem backend_request_for_a_missing_upload (E : Env) (scaler : StandardScaler)
    (file_path : path) (lang : string) (w : world) :
  lookup_file (fs w) file_path = None ->
  (forall d, fs w !! Backend.PROCESSED_DIR = Some d -> d = ∅) ->
  fst (Backend.predict_final_classification E scaler file_path lang w) = Ok ERROR_LABEL /\
  trace (snd (Backend.predict_final_classification E scaler file_path lang w)) = trace w.
Proof.
  intros Hmissing Hfolder.
  assert (Hseg : Segmentation.process_single_audio_file E file_path Backend.PROCESSED_DIR w
                 = (Ok tt, w)).
  { unfold Segmentation.process_single_audio_file.
    rewrite bind_run, isfile_run, Hmissing.
    by rewrite bool_decide_false by (intros [? ?]; congruence). }
  assert (Hpipe : Backend.pipeline E scaler file_path lang w = (Raise FileNotFoundError, w)).
  { unfold Backend.pipeline. rewrite bind_run, Hseg, bind_run.
    destruct (fs w !! Backend.PROCESSED_DIR) as [d|] eqn:Hd.
    - rewrite (Hfolder d eq_refl) in Hd. by rewrite (listdir_empty _ _ Hd).
    - unfold listdir. by rewrite Hd. }
  unfold Backend.predict_final_classification, try_finally, try_except.
  rewrite Hpipe. simpl.
  destruct (backend_finalize_run w) as (w' & -> & _ & _ & _ & Htrace). done.
Qed.

Lemma backend_request_for_a_missing_upload_witness :
  fst (Backend.predict_final_classification Sample.env (Some [])
         (Backend.UPLOAD_DIR, "other.wav") "en" (Sample.upload (Wav [90])))
  = Ok ERROR_LABEL /\
  trace (snd (Backend.predict_final_classification Sample.env (Some [])
                (Backend.UPLOAD_DIR, "other.wav") "en" (Sample.upload (Wav [90]))))
  = trace (Sample.upload (Wav [90])).
Proof.
  apply (backend_request_for_a_missing_upload Sample.env (Some [])
           (Backend.UPLOAD_DIR, "other.wav") "en" (Sample.upload (Wav [90]))).
  - reflexivity.
  - intros d Hd. vm_compute in Hd. discriminate Hd.
Defined.

(** ** The request handlers *)

Lemma server_get_classification_run (E : Env) (scaler : StandardScaler) (s : session)
    (lang : string) (w : world) :
  selected_language_code s = Some lang ->
  UPLOAD_STATUS s = true ->
  ServerApp.get_classification E scaler s w
  = match Server.predict_final_classification E scaler (Server.uploads, "recording.wav")
            lang w with
    | (Ok label, w') => (Ok ((Classification label, 200), s), w')
    | (Raise e, w') => if is_Exception e then (Ok ((Error, 500), s), w') else (Raise e, w')
    end.
Proof.
  intros Hlang Hflag. unfold ServerApp.get_classification, try_except.
  rewrite Hlang, Hflag. simpl. rewrite bind_run.
  by destruct (Server.predict_final_classification E scaler _ lang w) as [[label|e] w'].
Qed.

Lemma server_get_classification_missing (E : Env) (scaler : StandardScaler) (s : session)
    (lang : string) (w : world) :
  selected_language_code s = Some lang ->
  UPLOAD_STATUS s = true ->
  lookup_file (fs w) (Server.uploads, "recording.wav") = None \/
  lookup_file (fs w) (Server.uploads, "test_connection.wav") = None ->
  fst (ServerApp.get_classification E scaler s w) = Ok ((Error, 500), s).
Proof.
  intros Hlang Hflag Hmissing.
  rewrite (server_get_classification_run E scaler s lang w Hlang Hflag).
  pose proof (server_request_raises E scaler (Server.uploads, "recording.wav") lang w
                ltac:(discriminate) ltac:(discriminate) Hmissing) as Hraise.
  destruct (Server.predict_final_classification E scaler _ lang w) as [[label|e] w'];
    simpl in Hraise; [done|].
  by injection Hraise as ->.
Qed.

(** X23: polling the server.  With a language selected and the upload
    flag set, GET /get_classification answers 500 whenever recording.wav
    or test_connection.wav is missing from the upload folder, whatever
    the pipeline computes; and since a request always removes
    recording.wav while the flag stays set, asking again answers 500
    too, not the 400 of an upload that is not complete. *)
Theorem server_poll_needs_fresh_uploads (E : Env) (scaler : StandardScaler) (s : session)
    (lang : string) (w : world) :
  selected_language_code s = Some lang ->
  UPLOAD_STATUS s = true ->
  (lookup_file (fs w) (Server.uploads, "recording.wav") = None \/
   lookup_file (fs w) (Server.uploads, "test_connection.wav") = None ->
   fst (ServerApp.get_classification E scaler s w) = Ok ((Error, 500), s)) /\
  fst (ServerApp.get_classification E scaler s
         (snd (ServerApp.get_classification E scaler s w)))
  = Ok ((Error, 500), s).
Proof.
  intros Hlang Hflag. split.
  - by apply server_get_classification_missing with (lang := lang).
  - apply server_get_classification_missing with (lang := lang); [done..|]. left.
    rewrite (server_get_classification_run E scaler s lang w Hlang Hflag).
    pose proof (server_request_removes_recording E scaler (Server.uploads, "recording.wav")
                  lang w) as Hgone.
    destruct (Server.predict_final_classification E scaler _ lang w) as [[label|e] w'];
      simpl in Hgone; [done|].
    by destruct (is_Exception e).
Qed.

Lemma server_poll_needs_fresh_uploads_witness :
  (lookup_file (fs (Sample.upload (Wav [90; 90; 90]))) (Server.uploads, "recording.wav") = None \/
   lookup_file (fs (Sample.upload (Wav [90; 90; 90]))) (Server.uploads, "test_connection.wav")
   = None ->
   fst (ServerApp.get_classification Sample.env (Some [])
          {| selected_language_code := Some "en"; UPLOAD_STATUS := true |}
          (Sample.upload (Wav [90; 90; 90])))
   = Ok ((Error, 500), {| selected_language_code := Some "en"; UPLOAD_STATUS := true |})) /\
  fst (ServerApp.get_classification Sample.env (Some [])
         {| selected_language_code := Some "en"; UPLOAD_STATUS := true |}
         (snd (ServerApp.get_classification Sample.env (Some [])
                 {| selected_language_code := Some "en"; UPLOAD_STATUS := true |}
                 (Sample.upload (Wav [90; 90; 90])))))
  = Ok ((Error, 500), {| selected_language_code := Some "en"; UPLOAD_STATUS := true |}).
Proof.
  apply (server_poll_needs_fresh_uploads Sample.env (Some [])
           {| selected_language_code := Some "en"; UPLOAD_STATUS := true |} "en"
           (Sample.upload (Wav [90; 90; 90]))).
  - reflexivity.
  - reflexivity.
Defined.

Lemma save_upload_session (files : request_files) (target : path)
    (bad saved : M (response * session)) (P : response * session -> Prop) (w : world)
    (r : response * session) (w' : world) :
  (forall w0 w1, bad w0 = (Ok r, w1) -> P r) ->
  (forall w0 w1, saved w0 = (Ok r, w1) -> P r) ->
  save_upload files target bad saved w = (Ok r, w') -> P r.
Proof.
  intros Hbad Hsaved. unfold save_upload.
  destruct (files !! "file") as [[filename content]|]; [|by apply Hbad].
  destruct (String.eqb filename ""); [by apply Hbad|].
  intros H. apply bind_Ok in H as ([] & w1 & _ & H). by apply Hsaved in H.
Qed.

Lemma try_except_Ok {A} (body : M A) (handler : exn -> M A) (P : A -> Prop) (w : world)
    (a : A) (w' : world) :
  (forall w1, body w = (Ok a, w1) -> P a) ->
  (forall e w0 w1, handler e w0 = (Ok a, w1) -> P a) ->
  try_except body is_Exception handler w = (Ok a, w') -> P a.
Proof.
  intros Hbody Hhandler. unfold try_except.
  destruct (body w) as [[a'|e] w1].
  - intros H. inversion H; subst. by apply (Hbody w').
  - destruct (is_Exception e); [by apply Hhandler|done].
Qed.

Lemma server_handle_step (E : Env) (scaler : StandardScaler) (r : request) (s : session)
    (w : world) (out : response * session) (w' : world) :
  server_handle E scaler r s w = (Ok out, w') -> server_step_ok r s out.
Proof.
  assert (Hsame : forall r', r' <> GET_upload_status -> forall resp, server_step_ok r' s (resp, s)).
  { intros r' Hr' resp. by repeat split. }
  destruct r as [data|now files| | | |files]; simpl.
  - unfold ServerApp.selected_language. apply try_except_Ok.
    + intros w1. destruct data as [d|]; [|intros H; inversion H; by apply Hsame].
      destruct (bool_decide (d = ∅)); [intros H; inversion H; by apply Hsame|].
      destruct (d !! "languageCode") as [code|]; intros H; inversion H; [|by apply Hsame].
      by repeat split.
    + intros e w0 w1 H. inversion H. by apply Hsame.
  - unfold ServerApp.upload_audio. apply try_except_Ok.
    + intros w1. destruct (selected_language_code s) as [lang|] eqn:Hlang;
        [|intros H; inversion H; by apply Hsame].
      apply save_upload_session.
      * intros w0 w2 H. inversion H. by apply Hsame.
      * intros w0 w2 H. inversion H. by repeat split.
    + intros e w0 w1 H. inversion H. by apply Hsame.
  - intros H. inversion H. by repeat split.
  - unfold ServerApp.get_classification. apply try_except_Ok.
    + intros w1. destruct (selected_language_code s) as [lang|];
        [|intros H; inversion H; by apply Hsame].
      destruct (UPLOAD_STATUS s); simpl; [|intros H; inversion H; by apply Hsame].
      intros H. apply bind_Ok in H as (label & w2 & _ & H). inversion H. by apply Hsame.
    + intros e w0 w1 H. inversion H. by apply Hsame.
  - unfold ServerApp.cancel_process. apply try_except_Ok.
    + intros w1 H. apply bind_Ok in H as (ex & w2 & _ & H).
      apply bind_Ok in H as ([] & w3 & _ & H). inversion H. by apply Hsame.
    + intros e w0 w1 H. inversion H. by apply Hsame.
  - unfold ServerApp.test_connection. apply try_except_Ok.
    + intros w1. apply save_upload_session; intros w0 w2 H; inversion H; by apply Hsame.
    + intros e w0 w1 H. inversion H. by apply Hsame.
Qed.

(** X24: no handler of server/server/server.py clears the upload flag.
    Once it is set it stays set through every run of requests, so each
    later GET /upload-status answers that the upload is complete, also
    after the verdict has been fetched and the recording removed. *)
Theorem server_upload_flag_is_never_cleared (E : Env) (scaler : StandardScaler)
    (rs : list request) (s : session) (w : world) (resps : list response) (s' : session)
    (w' : world) :
  UPLOAD_STATUS s = true ->
  serve (server_handle E scaler) rs s w = (Ok (resps, s'), w') ->
  UPLOAD_STATUS s' = true /\
  length resps = length rs /\
  (forall i, rs !! i = Some GET_upload_status -> resps !! i = Some (Complete true, 200)).
Proof.
  revert s w resps. induction rs as [|r rs IH]; intros s w resps Hflag Hrun.
  - inversion Hrun; subst. by repeat split.
  - simpl in Hrun. apply bind_Ok in Hrun as ([resp s1] & w1 & Hstep & Hrun).
    apply bind_Ok in Hrun as ([resps1 s2] & w2 & Hrest & Hrun).
    inversion Hrun; subst.
    apply server_handle_step in Hstep as (Hkeep & _ & Hstatus).
    destruct (IH s1 w1 resps1 (Hkeep Hflag) Hrest) as (Hend & Hlen & Hall).
    split; [done|]. split; [simpl; congruence|].
    intros [|i] Hi; simpl in *.
    + inversion Hi; subst. rewrite (Hstatus eq_refl), Hflag. done.
    + by apply Hall.
Qed.

Lemma server_upload_flag_is_never_cleared_witness :
  UPLOAD_STATUS {| selected_language_code := Some "en"; UPLOAD_STATUS := true |} = true /\
  length [((Error, 500) : response); (Complete true, 200)]
  = length [GET_get_classification; GET_upload_status] /\
  (forall i, [GET_get_classification; GET_upload_status] !! i = Some GET_upload_status ->
             [((Error, 500) : response); (Complete true, 200)] !! i
             = Some (Complete true, 200)).
Proof.
  apply (server_upload_flag_is_never_cleared Sample.env (Some [])
           [GET_get_classification; GET_upload_status]
           {| selected_language_code := Some "en"; UPLOAD_STATUS := true |}
           (Sample.upload (Wav [90; 90; 90]))
           [(Error, 500); (Complete true, 200)]
           {| selected_language_code := Some "en"; UPLOAD_STATUS := true |}
           (snd (serve (server_handle Sample.env (Some []))
                   [GET_get_classification; GET_upload_status]
                   {| selected_language_code := Some "en"; UPLOAD_STATUS := true |}
                   (Sample.upload (Wav [90; 90; 90]))))).
  - reflexivity.
  - vm_compute. reflexivity.
Defined.

Lemma backend_pipeline_label (E : Env) (scaler : StandardScaler) (file_path : path)
    (lang : string) (w : world) (label : string) :
  fst (Backend.pipeline E scaler file_path lang w) = Ok label ->
  label = "AD" \/ label = "HC".
Proof.
  destruct (Backend.pipeline E scaler file_path lang w) as [r w'] eqn:Hrun. simpl.
  intros ->. unfold Backend.pipeline in Hrun.
  apply bind_Ok in Hrun as ([] & w1 & _ & Hrun).
  apply bind_Ok in Hrun as (names & w2 & _ & Hrun).
  destruct (wav_files Backend.PROCESSED_DIR names) as [|p ps]; [done|].
  apply bind_Ok in Hrun as ([] & w3 & _ & Hrun).
  apply bind_Ok in Hrun as (tok & w4 & _ & Hrun).
  apply bind_Ok in Hrun as (results & w5 & _ & Hrun).
  apply bind_Ok in Hrun as ([] & w6 & _ & Hrun).
  inversion Hrun. unfold label_of.
  destruct (Prediction.weighted_majority_voting results =? 0); auto.
Qed.

Lemma backend_request_outcome (E : Env) (scaler : StandardScaler) (file_path : path)
    (lang : string) (w : world) :
  match fst (Backend.predict_final_classification E scaler file_path lang w) with
  | Ok label => label = "AD" \/ label = "HC" \/ label = ERROR_LABEL
  | Raise e => is_Exception e = false
  end.
Proof.
  unfold Backend.predict_final_classification, try_finally, try_except.
  pose proof (backend_pipeline_label E scaler file_path lang w) as Hlabel.
  destruct (Backend.pipeline E scaler file_path lang w) as [[label|e] w1]; simpl in Hlabel.
  - destruct (backend_finalize_run w1) as (w2 & -> & _). simpl.
    destruct (Hlabel label eq_refl); auto.
  - destruct (is_Exception e) eqn:He; simpl.
    + destruct (backend_finalize_run w1) as (w2 & -> & _). simpl. auto.
    + destruct (backend_finalize_run w1) as (w2 & -> & _). done.
Qed.

Lemma insert_by_key_cons (key : string -> Z) (x : string) (l : list string) :
  exists y l', BackendApp.insert_by_key key x l = y :: l'.
Proof. destruct l as [|y l]; simpl; [eauto|]. destruct (key y <=? key x); eauto. Qed.

Lemma sorted_reverse_cons (key : string -> Z) (names : list string) :
  names <> [] -> exists y l', BackendApp.sorted_reverse key names = y :: l'.
Proof.
  destruct names as [|x names]; [done|]. intros _. simpl. apply insert_by_key_cons.
Qed.

(** X25: the backend's GET /get_classification never answers a failed
    classification with an error code.  With a language selected, the
    upload flag set and a .wav file in the upload folder, the answer is
    200 with "AD", "HC" or the error string as the classification (only
    an exception that is no Exception gets through); the flag is reset
    on the way, so that asking again answers 400 and changes nothing. *)
Theorem backend_answers_200_for_every_outcome (E : Env) (scaler : StandardScaler)
    (getmtime : path -> Z) (s : session) (lang : string) (w : world) (d : directory)
    (f : string) :
  selected_language_code s = Some lang ->
  UPLOAD_STATUS s = true ->
  fs w !! Http.API_UPLOAD_FOLDER = Some d ->
  is_Some (d !! f) ->
  endswith f ".wav" = true ->
  match BackendApp.get_classification E scaler getmtime s w with
  | (Ok (resp, s'), w') =>
      (exists label,
         resp = (Classification label, 200) /\
         (label = "AD" \/ label = "HC" \/ label = ERROR_LABEL)) /\
      s' = BackendApp.reset_upload_status s /\
      BackendApp.get_classification E scaler getmtime s' w' = (Ok ((Error, 400), s'), w')
  | (Raise e, _) => is_Exception e = false
  end.
Proof.
  intros Hlang Hflag Hd [c Hf] Hwav.
  unfold BackendApp.get_classification at 1. unfold try_except.
  rewrite Hlang, Hflag. simpl. rewrite bind_run. unfold listdir at 1. rewrite Hd.
  set (names := List.filter (fun f => endswith f ".wav") (map fst (map_to_list d))).
  assert (Hne : names <> []).
  { assert (Hin : In f names).
    { apply filter_In. split; [|done]. apply list_elem_of_In, list_elem_of_fmap.
      exists (f, c). split; [done|]. by apply elem_of_map_to_list. }
    intros Hnil. by rewrite Hnil in Hin. }
  destruct (sorted_reverse_cons (fun x => getmtime (Http.API_UPLOAD_FOLDER, x)) names Hne)
    as (latest & rest & ->).
  rewrite bind_run.
  pose proof (backend_request_outcome E scaler (Http.API_UPLOAD_FOLDER, latest) lang w) as Hout.
  destruct (Backend.predict_final_classification E scaler (Http.API_UPLOAD_FOLDER, latest) lang w)
    as [[label|e] w1]; simpl in Hout |- *.
  - split; [eauto|]. split; [done|].
    unfold BackendApp.get_classification, try_except. simpl. by rewrite Hlang.
  - by rewrite Hout.
Qed.

Lemma backend_answers_200_for_every_outcome_witness :
  match BackendApp.get_classification Sample.env (Some []) (fun _ => 0)
          {| selected_language_code := Some "fr"; UPLOAD_STATUS := true |}
          Sample.in_flight_backend with
  | (Ok (resp, s'), w') =>
      (exists label,
         resp = (Classification label, 200) /\
         (label = "AD" \/ label = "HC" \/ label = ERROR_LABEL)) /\
      s' = BackendApp.reset_upload_status
             {| selected_language_code := Some "fr"; UPLOAD_STATUS := true |} /\
      BackendApp.get_classification Sample.env (Some []) (fun _ => 0) s' w'
      = (Ok ((Error, 400), s'), w')
  | (Raise e, _) => is_Exception e = false
  end.
Proof.
  apply (backend_answers_200_for_every_outcome Sample.env (Some []) (fun _ => 0)
           {| selected_language_code := Some "fr"; UPLOAD_STATUS := true |} "fr"
           Sample.in_flight_backend
           {[ "recording_20240101_120000.wav" := Wav [5; 5] ]}
           "recording_20240101_120000.wav").
  - reflexivity.
  - reflexivity.
  - reflexivity.
  - vm_compute. eauto.
  - reflexivity.
Defined.

(** ** Transcribing a folder *)

Lemma collect_pure {A B} (body : A -> M B) (g : A -> B) (xs : list A) (w : world) :
  Forall (fun x => body x w = (Ok (g x), w)) xs ->
  collect xs body w = (Ok (map g xs), w).
Proof.
  induction 1 as [|x xs Hx _ IH]; simpl; [done|].
  by rewrite bind_run, Hx, bind_run, IH.
Qed.

Lemma transcribe_audio_heard (E : Env) (dataset_path f name : string) (d : directory)
    (w : world) :
  fs w !! dataset_path = Some d ->
  (forall c e, d !! f = Some c -> wav2vec2 E name c = Raise e -> is_Exception e = true) ->
  Transcription.transcribe_audio E (dataset_path, f) (Some name) w
  = (Ok (Dataset.heard E name (d !! f)), w).
Proof.
  intros Hd Hexn. unfold Transcription.transcribe_audio, try_except.
  rewrite bind_run. simpl. unfold lookup_file. simpl. rewrite Hd. simpl.
  destruct (d !! f) as [c|] eqn:Hf; simpl; [|done].
  rewrite bind_run. unfold lift.
  destruct (wav2vec2 E name c) as [text|e] eqn:Hasr; [done|].
  by rewrite (Hexn c e eq_refl Hasr).
Qed.

Lemma exists_dir_run (d : string) (w : world) :
  exists_dir d w = (Ok (bool_decide (is_Some (fs w !! d))), w).
Proof. reflexivity. Qed.

Lemma load_language_model_loaded (E : Env) (lang name : string) (w : world) :
  Transcription.model_name_of lang = Some name ->
  from_pretrained E name = Ok tt ->
  Transcription.load_language_model E lang w
  = (Ok tt, set_loaded (insert lang (Some name)) w).
Proof.
  intros Hname Hload. unfold Transcription.load_language_model, try_except.
  rewrite Hname, bind_run. unfold lift. by rewrite Hload.
Qed.

Lemma get_language_model_run (lang : string) (entry : option string) (w : world) :
  Transcription.get_language_model lang (set_loaded (insert lang entry) w)
  = (Ok entry, set_loaded (insert lang entry) w).
Proof.
  unfold Transcription.get_language_model. rewrite bind_run. simpl.
  by rewrite lookup_insert_eq.
Qed.

(** X26: [transcribe_dataset] keeps a failure local.  In a folder that
    exists, for a language whose model loads, it returns one row for
    each file whose name ends in ".wav" in any case of the letters, in
    the order of the listing; the row of a file that the ASR model fails
    on (with an Exception) holds [None], and the rows of the other files
    hold their text.  Both versions of the function do so. *)
Theorem transcribe_dataset_keeps_failures_local (E : Env) (dataset_path lang name : string)
    (d : directory) (w : world) :
  fs w !! dataset_path = Some d ->
  Transcription.model_name_of lang = Some name ->
  from_pretrained E name = Ok tt ->
  (forall f c e, d !! f = Some c -> wav2vec2 E name c = Raise e -> is_Exception e = true) ->
  let rows :=
    map (fun f => {| Dataset.file_name := f;
                     Dataset.transcription := Dataset.heard E name (d !! f);
                     Dataset.label := "Unknown" |})
        (Dataset.audio_files (map fst (map_to_list d))) in
  Dataset.transcribe_dataset E dataset_path lang w
  = (Ok rows, set_loaded (insert lang (Some name)) w) /\
  Dataset.transcribe_dataset_server E dataset_path lang w
  = (Ok rows, set_loaded (insert lang (Some name)) w).
Proof.
  intros Hd Hname Hload Hexn rows.
  assert (Hrows : collect (Dataset.audio_files (map fst (map_to_list d)))
                    (Dataset.transcribe_file E dataset_path (Some name))
                    (set_loaded (insert lang (Some name)) w)
                  = (Ok rows, set_loaded (insert lang (Some name)) w)).
  { apply collect_pure, Forall_forall. intros f _.
    unfold Dataset.transcribe_file. rewrite bind_run.
    rewrite (transcribe_audio_heard E dataset_path f name d); [done|done|].
    intros c e. apply Hexn. }
  split.
  - unfold Dataset.transcribe_dataset.
    rewrite bind_run, exists_dir_run, bool_decide_true by eauto. simpl.
    rewrite bind_run, (load_language_model_loaded E lang name) by done.
    rewrite bind_run, get_language_model_run, bind_run.
    unfold listdir at 1. simpl. by rewrite Hd.
  - unfold Dataset.transcribe_dataset_server.
    rewrite bind_run, exists_dir_run, bool_decide_true by eauto. simpl.
    rewrite bind_run, (load_language_model_loaded E lang name) by done.
    rewrite bind_run, get_language_model_run, bind_run.
    unfold listdir at 1. simpl. by rewrite Hd.
Qed.

Lemma transcribe_dataset_keeps_failures_local_witness :
  let rows :=
    map (fun f => {| Dataset.file_name := f;
                     Dataset.transcription :=
                       Dataset.heard Sample.env "facebook/wav2vec2-large-960h"
                         (({[ "a.WAV" := Wav [0; 0]; "b.wav" := Wav [7]; "notes.txt" := Bytes "x" ]}
                             : directory) !! f);
                     Dataset.label := "Unknown" |})
        (Dataset.audio_files
           (map fst (map_to_list ({[ "a.WAV" := Wav [0; 0]; "b.wav" := Wav [7];
                                     "notes.txt" := Bytes "x" ]} : directory)))) in
  Dataset.transcribe_dataset Sample.env "corpus" "en"
    {| fs := {[ "corpus" := {[ "a.WAV" := Wav [0; 0]; "b.wav" := Wav [7];
                               "notes.txt" := Bytes "x" ]} ]};
       loaded := ∅; trace := [] |}
  = (Ok rows,
     set_loaded (insert "en" (Some "facebook/wav2vec2-large-960h"))
       {| fs := {[ "corpus" := {[ "a.WAV" := Wav [0; 0]; "b.wav" := Wav [7];
                                  "notes.txt" := Bytes "x" ]} ]};
          loaded := ∅; trace := [] |}) /\
  Dataset.transcribe_dataset_server Sample.env "corpus" "en"
    {| fs := {[ "corpus" := {[ "a.WAV" := Wav [0; 0]; "b.wav" := Wav [7];
                               "notes.txt" := Bytes "x" ]} ]};
       loaded := ∅; trace := [] |}
  = (Ok rows,
     set_loaded (insert "en" (Some "facebook/wav2vec2-large-960h"))
       {| fs := {[ "corpus" := {[ "a.WAV" := Wav [0; 0]; "b.wav" := Wav [7];
                                  "notes.txt" := Bytes "x" ]} ]};
          loaded := ∅; trace := [] |}).
Proof.
  apply (transcribe_dataset_keeps_failures_local Sample.env "corpus" "en"
           "facebook/wav2vec2-large-960h"
           {[ "a.WAV" := Wav [0; 0]; "b.wav" := Wav [7]; "notes.txt" := Bytes "x" ]}
           {| fs := {[ "corpus" := {[ "a.WAV" := Wav [0; 0]; "b.wav" := Wav [7];
                                      "notes.txt" := Bytes "x" ]} ]};
              loaded := ∅; trace := [] |}).
  - reflexivity.
  - reflexivity.
  - reflexivity.
  - intros f c e _. simpl.
    repeat match goal with
           | |- context [match ?x with _ => _ end] => destruct x
           end; intros H; inversion H; reflexivity.
Defined.

(** X27: when the ASR model does not load, the two versions part.  The
    backend's [transcribe_dataset] raises its RuntimeError before any
    file is read; the server's goes on with no tokenizer and returns a
    row for every file, each with [None] for the transcription. *)
Theorem transcribe_dataset_without_a_model (E : Env) (dataset_path lang name : string)
    (d : directory) (w : world) (e : exn) :
  fs w !! dataset_path = Some d ->
  Transcription.model_name_of lang = Some name ->
  from_pretrained E name = Raise e ->
  is_Exception e = true ->
  Dataset.transcribe_dataset E dataset_path lang w
  = (Raise OtherException, set_loaded (insert lang None) w) /\
  Dataset.transcribe_dataset_server E dataset_path lang w
  = (Ok (map (fun f => {| Dataset.file_name := f;
                          Dataset.transcription := None;
                          Dataset.label := "Unknown" |})
           (Dataset.audio_files (map fst (map_to_list d)))),
     set_loaded (insert lang None) w).
Proof.
  intros Hd Hname Hload He. split.
  - unfold Dataset.transcribe_dataset.
    rewrite bind_run, exists_dir_run, bool_decide_true by eauto. simpl.
    rewrite bind_run, (load_language_model_failed E lang name w e) by done.
    by rewrite bind_run, get_language_model_run.
  - unfold Dataset.transcribe_dataset_server.
    rewrite bind_run, exists_dir_run, bool_decide_true by eauto. simpl.
    rewrite bind_run, (load_language_model_failed E lang name w e) by done.
    rewrite bind_run, get_language_model_run, bind_run.
    unfold listdir at 1. simpl. rewrite Hd.
    apply collect_pure, Forall_forall. intros f _.
    unfold Dataset.transcribe_file. by rewrite bind_run, transcribe_audio_unloaded.
Qed.

Lemma transcribe_dataset_without_a_model_witness :
  Dataset.transcribe_dataset Offline.env "corpus" "en"
    {| fs := {[ "corpus" := {[ "b.wav" := Wav [7] ]} ]}; loaded := ∅; trace := [] |}
  = (Raise OtherException,
     set_loaded (insert "en" None)
       {| fs := {[ "corpus" := {[ "b.wav" := Wav [7] ]} ]}; loaded := ∅; trace := [] |}) /\
  Dataset.transcribe_dataset_server Offline.env "corpus" "en"
    {| fs := {[ "corpus" := {[ "b.wav" := Wav [7] ]} ]}; loaded := ∅; trace := [] |}
  = (Ok (map (fun f => {| Dataset.file_name := f;
                          Dataset.transcription := None;
                          Dataset.label := "Unknown" |})
           (Dataset.audio_files
              (map fst (map_to_list ({[ "b.wav" := Wav [7] ]} : directory))))),
     set_loaded (insert "en" None)
       {| fs := {[ "corpus" := {[ "b.wav" := Wav [7] ]} ]}; loaded := ∅; trace := [] |}).
Proof.
  apply (transcribe_dataset_without_a_model Offline.env "corpus" "en"
           "facebook/wav2vec2-large-960h" {[ "b.wav" := Wav [7] ]}
           {| fs := {[ "corpus" := {[ "b.wav" := Wav [7] ]} ]}; loaded := ∅; trace := [] |}
           OtherException).
  - reflexivity.
  - reflexivity.
  - reflexivity.
  - reflexivity.
Defined.

(** ** One verdict for each upload *)

Section OneVerdictPerUpload.
Context (handle : request -> session -> M (response * session)).
(** a state in which no verdict can be given *)
Context (spent : session -> world -> Prop).

Hypothesis verdict_spends : forall s w label code s1 w1,
  handle GET_get_classification s w = (Ok ((Classification label, code), s1), w1) ->
  spent s1 w1.
Hypothesis spent_blocks : forall s w resp s1 w1 label code,
  spent s w ->
  handle GET_get_classification s w = (Ok (resp, s1), w1) ->
  resp <> (Classification label, code).
Hypothesis spent_until_upload : forall r s w resp s1 w1,
  spent s w ->
  handle r s w = (Ok (resp, s1), w1) ->
  spent s1 w1 \/ exists now files, r = POST_upload now files /\ resp = (Success, 200).

Lemma no_verdict_without_upload (rs : list request) :
  forall s w resps s' w' j label code,
    serve handle rs s w = (Ok (resps, s'), w') ->
    spent s w ->
    rs !! j = Some GET_get_classification ->
    resps !! j = Some (Classification label, code) ->
    exists k now files,
      (k < j)%nat /\ rs !! k = Some (POST_upload now files) /\
      resps !! k = Some (Success, 200).
Proof.
  induction rs as [|r rs IH]; intros s w resps s' w' j label code Hrun Hspent Hj Hresp;
    [done|].
  simpl in Hrun. apply bind_Ok in Hrun as ([resp s1] & w1 & Hstep & Hrun).
  apply bind_Ok in Hrun as ([resps1 s2] & w2 & Hrest & Hrun).
  inversion Hrun; subst. destruct j as [|j]; simpl in Hj, Hresp.
  - inversion Hj; subst. inversion Hresp; subst.
    by destruct (spent_blocks _ _ _ _ _ label code Hspent Hstep).
  - destruct (spent_until_upload _ _ _ _ _ _ Hspent Hstep) as [Hspent1|(now & files & -> & ->)].
    + destruct (IH _ _ _ _ _ _ _ _ Hrest Hspent1 Hj Hresp) as (k & now & files & Hk & Hrk & Hpk).
      exists (S k), now, files. split; [lia|done].
    + exists 0%nat, now, files. split; [lia|done].
Qed.

Lemma one_verdict_per_upload (rs : list request) :
  forall s w resps s' w' i j label code label' code',
    serve handle rs s w = (Ok (resps, s'), w') ->
    (i < j)%nat ->
    rs !! i = Some GET_get_classification ->
    resps !! i = Some (Classification label, code) ->
    rs !! j = Some GET_get_classification ->
    resps !! j = Some (Classification label', code') ->
    exists k now files,
      (i < k < j)%nat /\ rs !! k = Some (POST_upload now files) /\
      resps !! k = Some (Success, 200).
Proof.
  induction rs as [|r rs IH];
    intros s w resps s' w' i j label code label' code' Hrun Hij Hi Hri Hj Hrj; [done|].
  simpl in Hrun. apply bind_Ok in Hrun as ([resp s1] & w1 & Hstep & Hrun).
  apply bind_Ok in Hrun as ([resps1 s2] & w2 & Hrest & Hrun).
  inversion Hrun; subst. destruct j as [|j]; [lia|]. simpl in Hj, Hrj.
  destruct i as [|i]; simpl in Hi, Hri.
  - inversion Hi; subst. inversion Hri; subst.
    pose proof (verdict_spends _ _ _ _ _ _ Hstep) as Hspent.
    destruct (no_verdict_without_upload _ _ _ _ _ _ _ _ _ Hrest Hspent Hj Hrj)
      as (k & now & files & Hk & Hrk & Hpk).
    exists (S k), now, files. split; [lia|done].
  - destruct (IH _ _ _ _ _ i j _ _ _ _ Hrest ltac:(lia) Hi Hri Hj Hrj)
      as (k & now & files & Hk & Hrk & Hpk).
    exists (S k), now, files. split; [lia|done].
Qed.

End OneVerdictPerUpload.

Lemma try_except_run_Ok {A} (body : M A) (handler : exn -> M A) (w : world) (a : A)
    (w' : world) :
  try_except body is_Exception handler w = (Ok a, w') ->
  body w = (Ok a, w') \/
  exists e w1, body w = (Raise e, w1) /\ is_Exception e = true /\ handler e w1 = (Ok a, w').
Proof.
  unfold try_except. destruct (body w) as [[a'|e] w1]; [by left|].
  destruct (is_Exception e) eqn:He; [|done]. right. eauto.
Qed.

Lemma save_upload_run (files : request_files) (target : path) (s s1 : session)
    (r bad : response) (w : world) (out : response * session) (w' : world) :
  save_upload files target (mret (bad, s)) (mret (r, s1)) w = (Ok out, w') ->
  (out = (bad, s) /\ w' = w) \/
  (out = (r, s1) /\ exists c, write_file target c w = (Ok tt, w')).
Proof.
  unfold save_upload. destruct (files !! "file") as [[filename content]|];
    [|intros H; inversion H; by left].
  destruct (String.eqb filename ""); [intros H; inversion H; by left|].
  intros H. apply bind_Ok in H as ([] & w1 & Hw & H). inversion H; subst. right. eauto.
Qed.

Lemma save_upload_raises (files : request_files) (target : path)
    (bad saved : response * session) (w : world) (e : exn) (w' : world) :
  save_upload files target (mret bad) (mret saved) w = (Raise e, w') -> w' = w.
Proof.
  unfold save_upload. destruct (files !! "file") as [[filename content]|]; [|done].
  destruct (String.eqb filename ""); [done|].
  rewrite bind_run. unfold write_file.
  destruct (fs w !! fst target); [done|]. by intros H; inversion H.
Qed.

(** *** backend/api/server.py: the flag *)

Lemma backend_verdict_spends (E : Env) (scaler : StandardScaler) (getmtime : path -> Z)
    (s : session) (w : world) (label : string) (code : Z) (s1 : session) (w1 : world) :
  backend_handle E scaler getmtime GET_get_classification s w
  = (Ok ((Classification label, code), s1), w1) ->
  UPLOAD_STATUS s1 = false.
Proof.
  simpl. unfold BackendApp.get_classification. intros H.
  apply try_except_run_Ok in H as [H|(e & w0 & _ & _ & H)]; [|by inversion H; subst].
  destruct (selected_language_code s) as [lang|]; [|by inversion H; subst].
  destruct (UPLOAD_STATUS s); simpl in H; [|by inversion H; subst].
  apply bind_Ok in H as (names & w2 & _ & H).
  destruct (BackendApp.sorted_reverse _ _) as [|latest rest]; [by inversion H; subst|].
  apply bind_Ok in H as (l & w3 & _ & H). by inversion H; subst.
Qed.

Lemma backend_spent_blocks (E : Env) (scaler : StandardScaler) (getmtime : path -> Z)
    (s : session) (w : world) (resp : response) (s1 : session) (w1 : world)
    (label : string) (code : Z) :
  UPLOAD_STATUS s = false ->
  backend_handle E scaler getmtime GET_get_classification s w = (Ok (resp, s1), w1) ->
  resp <> (Classification label, code).
Proof.
  intros Hflag. simpl. unfold BackendApp.get_classification. rewrite Hflag. intros H.
  apply try_except_run_Ok in H as [H|(e & w0 & _ & _ & H)]; [|by inversion H; subst].
  destruct (selected_language_code s) as [lang|]; by inversion H; subst.
Qed.

Lemma backend_spent_until_upload (E : Env) (scaler : StandardScaler) (getmtime : path -> Z)
    (r : request) (s : session) (w : world) (resp : response) (s1 : session) (w1 : world) :
  UPLOAD_STATUS s = false ->
  backend_handle E scaler getmtime r s w = (Ok (resp, s1), w1) ->
  UPLOAD_STATUS s1 = false \/
  exists now files, r = POST_upload now files /\ resp = (Success, 200).
Proof.
  intros Hflag. destruct r as [data|now files| | | |files]; simpl.
  - unfold BackendApp.selected_language. intros H. left.
    apply try_except_run_Ok in H as [H|(e & w0 & _ & _ & H)]; [|by inversion H; subst].
    destruct data as [d|]; [|by inversion H; subst].
    destruct (bool_decide (d = ∅)); [by inversion H; subst|].
    destruct (d !! "languageCode"); by inversion H; subst.
  - unfold BackendApp.upload_audio. intros H.
    apply try_except_run_Ok in H as [H|(e & w0 & _ & _ & H)]; [|left; by inversion H; subst].
    destruct (selected_language_code s) as [lang|]; [|left; by inversion H; subst].
    apply save_upload_run in H as [[H _]|[H _]]; inversion H; subst; [by left|].
    right. eauto.
  - intros H. inversion H; subst. by left.
  - intros H. left.
    destruct resp as [[| |label|c] code].
    + unfold BackendApp.get_classification in H. rewrite Hflag in H.
      apply try_except_run_Ok in H as [H|(e & w0 & _ & _ & H)]; [|by inversion H; subst].
      destruct (selected_language_code s); by inversion H; subst.
    + unfold BackendApp.get_classification in H. rewrite Hflag in H.
      apply try_except_run_Ok in H as [H|(e & w0 & _ & _ & H)]; [|by inversion H; subst].
      destruct (selected_language_code s); by inversion H; subst.
    + by apply backend_verdict_spends in H.
    + unfold BackendApp.get_classification in H. rewrite Hflag in H.
      apply try_except_run_Ok in H as [H|(e & w0 & _ & _ & H)]; [|by inversion H; subst].
      destruct (selected_language_code s); by inversion H; subst.
  - unfold BackendApp.cancel_process. intros H. left.
    apply try_except_run_Ok in H as [H|(e & w0 & _ & _ & H)]; [|by inversion H; subst].
    apply bind_Ok in H as ([] & w2 & _ & H). by inversion H; subst.
  - unfold BackendApp.test_connection. intros H. left.
    apply try_except_run_Ok in H as [H|(e & w0 & _ & _ & H)]; [|by inversion H; subst].
    apply save_upload_run in H as [[H _]|[H _]]; by inversion H; subst.
Qed.

(** X28: the backend gives one verdict for each upload.  In every run
    of requests handled by backend/api/server.py, between two answers of
    GET /get_classification that carry a classification there is a POST
    /upload that was answered 200: the flag that the first verdict
    resets is only set again by an upload. *)
Theorem backend_one_verdict_per_upload (E : Env) (scaler : StandardScaler)
    (getmtime : path -> Z) (rs : list request) (s : session) (w : world)
    (resps : list response) (s' : session) (w' : world) (i j : nat)
    (label label' : string) (code code' : Z) :
  serve (backend_handle E scaler getmtime) rs s w = (Ok (resps, s'), w') ->
  (i < j)%nat ->
  rs !! i = Some GET_get_classification ->
  resps !! i = Some (Classification label, code) ->
  rs !! j = Some GET_get_classification ->
  resps !! j = Some (Classification label', code') ->
  exists k now files,
    (i < k < j)%nat /\ rs !! k = Some (POST_upload now files) /\
    resps !! k = Some (Success, 200).
Proof.
  apply (one_verdict_per_upload (backend_handle E scaler getmtime)
           (fun s _ => UPLOAD_STATUS s = false)).
  - intros. by eapply backend_verdict_spends.
  - intros. by eapply backend_spent_blocks.
  - intros. by eapply backend_spent_until_upload.
Qed.

Lemma backend_one_verdict_per_upload_witness :
  exists k now files,
    (0 < k < 2)%nat /\
    [GET_get_classification;
     POST_upload "20240101_120001" {[ "file" := ("clip.wav", Bytes "x") ]};
     GET_get_classification] !! k = Some (POST_upload now files) /\
    [((Classification ERROR_LABEL, 200) : response); (Success, 200);
     (Classification ERROR_LABEL, 200)] !! k = Some (Success, 200).
Proof.
  apply (backend_one_verdict_per_upload Sample.env (Some []) (fun _ => 0)
           [GET_get_classification;
            POST_upload "20240101_120001" {[ "file" := ("clip.wav", Bytes "x") ]};
            GET_get_classification]
           {| selected_language_code := Some "en"; UPLOAD_STATUS := true |}
           {| fs := {[ Http.API_UPLOAD_FOLDER :=
                         {[ "recording_20240101_120000.wav" := Bytes "x" ]} ]};
              loaded := ∅; trace := [] |}
           [(Classification ERROR_LABEL, 200); (Success, 200);
            (Classification ERROR_LABEL, 200)]
           {| selected_language_code := Some "en"; UPLOAD_STATUS := false |}
           (snd (serve (backend_handle Sample.env (Some []) (fun _ => 0))
                   [GET_get_classification;
                    POST_upload "20240101_120001" {[ "file" := ("clip.wav", Bytes "x") ]};
                    GET_get_classification]
                   {| selected_language_code := Some "en"; UPLOAD_STATUS := true |}
                   {| fs := {[ Http.API_UPLOAD_FOLDER :=
                                 {[ "recording_20240101_120000.wav" := Bytes "x" ]} ]};
                      loaded := ∅; trace := [] |}))
           0%nat 2%nat ERROR_LABEL ERROR_LABEL 200 200).
  - vm_compute. reflexivity.
  - lia.
  - reflexivity.
  - reflexivity.
  - reflexivity.
  - reflexivity.
Defined.

(** *** server/server/server.py: the recording *)

Lemma keeps_save_upload (q : path) (files : request_files) (target : path)
    (bad saved : M (response * session)) :
  target <> q -> keeps_file q bad -> keeps_file q saved ->
  keeps_file q (save_upload files target bad saved).
Proof.
  intros Hne Hbad Hsaved. unfold save_upload.
  destruct (files !! "file") as [[filename content]|]; [|done].
  destruct (String.eqb filename ""); [done|].
  apply keeps_bind; [by apply keeps_write_file | by intros _].
Qed.

Lemma keeps_run {A} (q : path) (m : M A) (w : world) (r : result A) (w' : world) :
  keeps_file q m -> m w = (r, w') -> lookup_file (fs w') q = lookup_file (fs w) q.
Proof. intros Hkeep Hrun. specialize (Hkeep w). by rewrite Hrun in Hkeep. Qed.

Lemma server_get_classification_spends (E : Env) (scaler : StandardScaler) (s : session)
    (w : world) (out : result (response * session)) (w1 : world) :
  lookup_file (fs w) (Server.uploads, "recording.wav") = None \/
  (exists label code s1, out = Ok ((Classification label, code), s1)) ->
  ServerApp.get_classification E scaler s w = (out, w1) ->
  lookup_file (fs w1) (Server.uploads, "recording.wav") = None.
Proof.
  intros Hcase. unfold ServerApp.get_classification, try_except.
  destruct (selected_language_code s) as [lang|].
  - destruct (UPLOAD_STATUS s); simpl.
    + rewrite bind_run.
      pose proof (server_request_removes_recording E scaler (Server.uploads, "recording.wav")
                    lang w) as Hgone.
      destruct (Server.predict_final_classification E scaler _ lang w) as [[label|e] w2];
        simpl in Hgone.
      * intros H. by inversion H; subst.
      * destruct (is_Exception e); intros H; by inversion H; subst.
    + intros H. inversion H; subst.
      destruct Hcase as [?|(label & code & s1 & ?)]; done.
  - intros H. inversion H; subst.
    destruct Hcase as [?|(label & code & s1 & ?)]; done.
Qed.

Lemma server_verdict_spends (E : Env) (scaler : StandardScaler) (s : session) (w : world)
    (label : string) (code : Z) (s1 : session) (w1 : world) :
  server_handle E scaler GET_get_classification s w
  = (Ok ((Classification label, code), s1), w1) ->
  lookup_file (fs w1) (Server.uploads, "recording.wav") = None.
Proof.
  simpl. apply server_get_classification_spends. right. eauto.
Qed.

Lemma server_spent_blocks (E : Env) (scaler : StandardScaler) (s : session) (w : world)
    (resp : response) (s1 : session) (w1 : world) (label : string) (code : Z) :
  lookup_file (fs w) (Server.uploads, "recording.wav") = None ->
  server_handle E scaler GET_get_classification s w = (Ok (resp, s1), w1) ->
  resp <> (Classification label, code).
Proof.
  intros Hgone. simpl. intros H.
  destruct (selected_language_code s) as [lang|] eqn:Hlang.
  - destruct (UPLOAD_STATUS s) eqn:Hflag.
    + pose proof (server_get_classification_missing E scaler s lang w Hlang Hflag
                    (or_introl Hgone)) as Herr.
      rewrite H in Herr. simpl in Herr. by inversion Herr.
    + unfold ServerApp.get_classification, try_except in H. rewrite Hlang, Hflag in H.
      by inversion H.
  - unfold ServerApp.get_classification, try_except in H. rewrite Hlang in H.
    by inversion H.
Qed.

Lemma server_spent_until_upload (E : Env) (scaler : StandardScaler) (r : request)
    (s : session) (w : world) (resp : response) (s1 : session) (w1 : world) :
  lookup_file (fs w) (Server.uploads, "recording.wav") = None ->
  server_handle E scaler r s w = (Ok (resp, s1), w1) ->
  lookup_file (fs w1) (Server.uploads, "recording.wav") = None \/
  exists now files, r = POST_upload now files /\ resp = (Success, 200).
Proof.
  intros Hgone. destruct r as [data|now files| | | |files]; simpl.
  - unfold ServerApp.selected_language. intros H. left.
    apply try_except_run_Ok in H as [H|(e & w0 & Hraise & _ & H)].
    + destruct data as [d|]; [|by inversion H; subst].
      destruct (bool_decide (d = ∅)); [by inversion H; subst|].
      destruct (d !! "languageCode"); by inversion H; subst.
    + destruct data as [d|]; [|by inversion Hraise].
      destruct (bool_decide (d = ∅)); [by inversion Hraise|].
      destruct (d !! "languageCode"); by inversion Hraise.
  - unfold ServerApp.upload_audio. intros H.
    apply try_except_run_Ok in H as [H|(e & w0 & Hraise & _ & H)].
    + destruct (selected_language_code s) as [lang|]; [|left; by inversion H; subst].
      apply save_upload_run in H as [[H ->]|[H _]]; inversion H; subst; [by left|].
      right. eauto.
    + left. assert (w0 = w) as ->.
      { destruct (selected_language_code s) as [lang|]; [|by inversion Hraise].
        by apply save_upload_raises in Hraise. }
      by inversion H; subst.
  - intros H. inversion H; subst. by left.
  - intros H. left. revert H. apply server_get_classification_spends. by left.
  - intros H. left. rewrite <- Hgone. revert H. apply keeps_run.
    unfold ServerApp.cancel_process. apply keeps_try_except; [|intros _; apply keeps_ret].
    apply keeps_bind; [apply keeps_gets|]. intros ex.
    apply keeps_bind; [|intros _; apply keeps_ret].
    destruct ex; [by apply keeps_rmtree | apply keeps_ret].
  - intros H. left. rewrite <- Hgone. revert H. apply keeps_run.
    unfold ServerApp.test_connection. apply keeps_try_except; [|intros _; apply keeps_ret].
    apply keeps_save_upload; [done | apply keeps_ret | apply keeps_ret].
Qed.

(** X29: the server gives one verdict for each upload too, though its
    flag is never cleared: a request removes recording.wav, without
    which GET /get_classification can only answer an error, and POST
    /upload is the only handler that writes it.  In every run of
    requests handled by server/server/server.py, between two answers
    that carry a classification there is an upload answered 200. *)
Theorem server_one_verdict_per_upload (E : Env) (scaler : StandardScaler)
    (rs : list request) (s : session) (w : world)
    (resps : list response) (s' : session) (w' : world) (i j : nat)
    (label label' : string) (code code' : Z) :
  serve (server_handle E scaler) rs s w = (Ok (resps, s'), w') ->
  (i < j)%nat ->
  rs !! i = Some GET_get_classification ->
  resps !! i = Some (Classification label, code) ->
  rs !! j = Some GET_get_classification ->
  resps !! j = Some (Classification label', code') ->
  exists k now files,
    (i < k < j)%nat /\ rs !! k = Some (POST_upload now files) /\
    resps !! k = Some (Success, 200).
Proof.
  apply (one_verdict_per_upload (server_handle E scaler)
           (fun _ w => lookup_file (fs w) (Server.uploads, "recording.wav") = None)).
  - intros. by eapply server_verdict_spends.
  - intros. by eapply server_spent_blocks.
  - intros. by eapply server_spent_until_upload.
Qed.

Lemma server_one_verdict_per_upload_witness :
  exists k now files,
    (0 < k < 3)%nat /\
    [GET_get_classification;
     POST_upload "" {[ "file" := ("clip.wav", Bytes "x") ]};
     POST_test_connection {[ "file" := ("ping.wav", Bytes "ping") ]};
     GET_get_classification] !! k = Some (POST_upload now files) /\
    [((Classification ERROR_LABEL, 200) : response); (Success, 200); (Success, 200);
     (Classification ERROR_LABEL, 200)] !! k = Some (Success, 200).
Proof.
  apply (server_one_verdict_per_upload Sample.env (Some [])
           [GET_get_classification;
            POST_upload "" {[ "file" := ("clip.wav", Bytes "x") ]};
            POST_test_connection {[ "file" := ("ping.wav", Bytes "ping") ]};
            GET_get_classification]
           {| selected_language_code := Some "en"; UPLOAD_STATUS := true |}
           (Sample.server_upload (Bytes "x"))
           [(Classification ERROR_LABEL, 200); (Success, 200); (Success, 200);
            (Classification ERROR_LABEL, 200)]
           {| selected_language_code := Some "en"; UPLOAD_STATUS := true |}
           (snd (serve (server_handle Sample.env (Some []))
                   [GET_get_classification;
                    POST_upload "" {[ "file" := ("clip.wav", Bytes "x") ]};
                    POST_test_connection {[ "file" := ("ping.wav", Bytes "ping") ]};
                    GET_get_classification]
                   {| selected_language_code := Some "en"; UPLOAD_STATUS := true |}
                   (Sample.server_upload (Bytes "x"))))
           0%nat 3%nat ERROR_LABEL ERROR_LABEL 200 200).
  - vm_compute. reflexivity.
  - lia.
  - reflexivity.
  - reflexivity.
  - reflexivity.
  - reflexivity.
Defined.
